(** * A shallow embedding of the in-memory virtual file system

    The development follows [file_system_structure.py]: node objects live in
    a store addressed by object identity, the tree and the traversal cache
    hold references into that store, [datetime.now()] reads a clock, and an
    operation that can raise returns an [outcome]. *)

From Stdlib Require Import String Ascii List NArith ZArith Lia Bool.
From Stdlib.Strings Require Import Byte.
From stdpp Require Import gmap strings list fin_maps.

Local Open Scope string_scope.
Set Warnings "-register-all".

(** ** Python string methods used by the source *)

Module Str.

Definition slash : ascii := "/"%char.
Definition newline : ascii := "010"%char.
Definition backslash : ascii := "\"%char.

(** [s.startswith(p)] *)
Definition startswith (s p : string) : bool := String.prefix p s.

(** [s.endswith("/")] *)
Fixpoint endswith_slash (s : string) : bool :=
  match s with
  | EmptyString => false
  | String c EmptyString => Ascii.eqb c slash
  | String _ r => endswith_slash r
  end.

(** [s[:-1]] *)
Fixpoint drop_last (s : string) : string :=
  match s with
  | EmptyString => EmptyString
  | String _ EmptyString => EmptyString
  | String c r => String c (drop_last r)
  end.

(** [s.lstrip("/")] *)
Fixpoint lstrip_slash (s : string) : string :=
  match s with
  | String c r => if Ascii.eqb c slash then lstrip_slash r else s
  | EmptyString => EmptyString
  end.

(** [s.rstrip("/")] *)
Fixpoint rstrip_slash (s : string) : string :=
  match s with
  | EmptyString => EmptyString
  | String c r =>
      match rstrip_slash r with
      | EmptyString => if Ascii.eqb c slash then EmptyString else String c EmptyString
      | r' => String c r'
      end
  end.

(** [s.strip("/")] *)
Definition strip_slash (s : string) : string := rstrip_slash (lstrip_slash s).

(** [s.split("/")]: the pieces in_range separators, empty pieces kept; the
    result is never the empty list. *)
Fixpoint split_slash (s : string) : list string :=
  match s with
  | EmptyString => [EmptyString]
  | String c r =>
      if Ascii.eqb c slash then EmptyString :: split_slash r
      else match split_slash r with
           | p :: ps => String c p :: ps
           | [] => [String c EmptyString]
           end
  end.

(** [s.replace("/", "")] *)
Fixpoint remove_slashes (s : string) : string :=
  match s with
  | EmptyString => EmptyString
  | String c r => if Ascii.eqb c slash then remove_slashes r else String c (remove_slashes r)
  end.

(** whether a backslash occurs in [s] *)
Fixpoint has_backslash (s : string) : bool :=
  match s with
  | EmptyString => false
  | String c r => Ascii.eqb c backslash || has_backslash r
  end.

End Str.

(** ** The three regular expressions of the source

    Python's [re] is not part of the repository; each pattern of the source is
    a fixed one, and its matcher is written out here the way the backtracking
    engine runs it: [.] matches any character but a line feed, [*] is greedy,
    [$] matches at the end of the string and before a final line feed, and
    [re.search] tries the start positions from left to right. *)

Module Re.
Import Str.

(** [.*\/] matches at the start of [s]: a separator before any line feed.
    This is the body of the negative lookahead [(?!.*\/)]. *)
Fixpoint dotstar_slash (s : string) : bool :=
  match s with
  | EmptyString => false
  | String c r =>
      if Ascii.eqb c slash then true
      else if Ascii.eqb c newline then false
      else dotstar_slash r
  end.

(** The lookahead [(?=\/(?!.*\/))] at the start of [s]. *)
Definition at_last_slash (s : string) : bool :=
  match s with
  | String c r => Ascii.eqb c slash && negb (dotstar_slash r)
  | EmptyString => false
  end.

(** [.*(?=\/(?!.*\/))] anchored at the start of [s]: the longest run of
    characters first, then shorter ones, until the lookahead holds. *)
Fixpoint parent_match_at (s : string) : option string :=
  match s with
  | EmptyString => None
  | String c r =>
      if Ascii.eqb c newline then None
      else match parent_match_at r with
           | Some m => Some (String c m)
           | None => if at_last_slash s then Some EmptyString else None
           end
  end.

(** [re.search(r".*(?=\/(?!.*\/))", s)]; [None] when there is no match. *)
Fixpoint search_parent (s : string) : option string :=
  match parent_match_at s with
  | Some m => Some m
  | None => match s with
            | EmptyString => None
            | String _ r => search_parent r
            end
  end.

(** [.*$] anchored at the start of [s]. *)
Fixpoint dotstar_end (s : string) : option string :=
  match s with
  | EmptyString => Some EmptyString
  | String c r =>
      if Ascii.eqb c newline
      then match r with EmptyString => Some EmptyString | _ => None end
      else option_map (String c) (dotstar_end r)
  end.

(** [\/(?!.*\/).*$] anchored at the start of [s]. *)
Definition name_match_at (s : string) : option string :=
  match s with
  | String c r =>
      if Ascii.eqb c slash && negb (dotstar_slash r)
      then option_map (String c) (dotstar_end r)
      else None
  | EmptyString => None
  end.

(** [re.search(r"\/(?!.*\/).*$", s)]; [None] when there is no match. *)
Fixpoint search_name (s : string) : option string :=
  match name_match_at s with
  | Some m => Some m
  | None => match s with
            | EmptyString => None
            | String _ r => search_name r
            end
  end.

(** [re.sub(r"\/(?!.*\/).*", repl, s)] for a replacement [repl] already
    expanded: every match (the last separator of a line and the rest of that
    line) is replaced; [skipping] is true while the [.*] of a match is being
    consumed. *)
Fixpoint sub_go (repl : string) (skipping : bool) (s : string) : string :=
  match s with
  | EmptyString => EmptyString
  | String c r =>
      if skipping
      then if Ascii.eqb c newline then String c (sub_go repl false r)
           else sub_go repl true r
      else if Ascii.eqb c slash && negb (dotstar_slash r)
           then repl +:+ sub_go repl true r
           else String c (sub_go repl false r)
  end.

Definition sub_last (repl s : string) : string := sub_go repl false s.

End Re.

(** ** Exceptions and results *)

Inductive exn : Set :=
| AttributeError
| ReError
| UnicodeDecodeError
| UnicodeEncodeError
| RecursionError
| IndexError.

Inductive outcome (A : Type) : Type :=
| Ok (a : A)
| Raise (e : exn).

Arguments Ok {A} a.
Arguments Raise {A} e.

(** ** UTF-8, as [bytes.decode('utf-8')] and [str.encode('utf-8')] run it

    A Python [str] is a sequence of code points; the strict codec refuses
    overlong forms, surrogates and code points above 0x10FFFF. *)

Module Utf8.

Definition byte_of (n : N) : byte :=
  match Byte.of_N n with Some b => b | None => x00 end.

Definition cont (n : N) : bool := (128 <=? n)%N && (n <=? 191)%N.

Definition in_range (lo hi n : N) : bool := (lo <=? n)%N && (n <=? hi)%N.

(** the range allowed for the second byte after the lead byte [b0] *)
Definition second_ok (b0 b1 : N) : bool :=
  if (b0 =? 224)%N then in_range 160 191 b1
  else if (b0 =? 237)%N then in_range 128 159 b1
  else if (b0 =? 240)%N then in_range 144 191 b1
  else if (b0 =? 244)%N then in_range 128 143 b1
  else cont b1.

Fixpoint decode_go (bs : list N) : option (list N) :=
  match bs with
  | [] => Some []
  | b0 :: r =>
      if (b0 <? 128)%N then option_map (cons b0) (decode_go r)
      else if in_range 194 223 b0 then
        match r with
        | b1 :: r1 =>
            if cont b1
            then option_map (cons ((b0 - 192) * 64 + (b1 - 128))%N) (decode_go r1)
            else None
        | _ => None
        end
      else if in_range 224 239 b0 then
        match r with
        | b1 :: b2 :: r2 =>
            if second_ok b0 b1 && cont b2
            then option_map
                   (cons ((b0 - 224) * 4096 + (b1 - 128) * 64 + (b2 - 128))%N)
                   (decode_go r2)
            else None
        | _ => None
        end
      else if in_range 240 244 b0 then
        match r with
        | b1 :: b2 :: b3 :: r3 =>
            if second_ok b0 b1 && cont b2 && cont b3
            then option_map
                   (cons ((b0 - 240) * 262144 + (b1 - 128) * 4096
                          + (b2 - 128) * 64 + (b3 - 128))%N)
                   (decode_go r3)
            else None
        | _ => None
        end
      else None
  end.

(** [bs.decode('utf-8')]; [None] stands for UnicodeDecodeError *)
Definition decode (bs : list byte) : option (list N) :=
  decode_go (map Byte.to_N bs).

Definition encode_cp (cp : N) : option (list N) :=
  if (cp <? 128)%N then Some [cp]
  else if (cp <? 2048)%N then Some [192 + cp / 64; 128 + cp mod 64]%N
  else if (cp <? 65536)%N then
    if in_range 55296 57343 cp then None
    else Some [224 + cp / 4096; 128 + (cp / 64) mod 64; 128 + cp mod 64]%N
  else if (cp <? 1114112)%N then
    Some [240 + cp / 262144; 128 + (cp / 4096) mod 64;
          128 + (cp / 64) mod 64; 128 + cp mod 64]%N
  else None.

Fixpoint encode_go (s : list N) : option (list N) :=
  match s with
  | [] => Some []
  | cp :: r =>
      match encode_cp cp, encode_go r with
      | Some a, Some b => Some (a ++ b)%list
      | _, _ => None
      end
  end.

(** [s.encode('utf-8')]; [None] stands for UnicodeEncodeError *)
Definition encode (s : list N) : option (list byte) :=
  option_map (map byte_of) (encode_go s).


End Utf8.

(** ** Node objects and the object store *)

(** what a [FileNode] and a [DirectoryNode] add to a [FileSystemNode];
    [content] is a byte string, as the annotations of [FileNode.__init__],
    [write], [create_file] and [write_file] declare it *)
Inductive NodeBody : Type :=
| FileBody (content : list byte) (size : nat)
| DirBody (children : gmap string nat).

Record Node : Type := mkNode {
  name : string;
  parent : option nat;
  created : nat;
  modified : nat;
  accessed : nat;
  body : NodeBody
}.

(** The file system object together with the objects it can reach: [heap]
    maps an object identity to the node's current attributes, [next_id] is
    the identity the next constructed node gets, [clock] is what the next
    [datetime.now()] returns. *)
Record VirtualFileSystem : Type := mkVFS {
  heap : gmap nat Node;
  next_id : nat;
  clock : nat;
  root : nat;
  traversal_cache : gmap string nat
}.

Definition with_heap (h : gmap nat Node) (st : VirtualFileSystem) : VirtualFileSystem :=
  mkVFS h (next_id st) (clock st) (root st) (traversal_cache st).

Definition with_cache (c : gmap string nat) (st : VirtualFileSystem) : VirtualFileSystem :=
  mkVFS (heap st) (next_id st) (clock st) (root st) c.

Definition with_root (r : nat) (st : VirtualFileSystem) : VirtualFileSystem :=
  mkVFS (heap st) (next_id st) (clock st) r (traversal_cache st).

Inductive timestamp_field : Set := Created | Modified | Accessed.

Definition set_timestamp (f : timestamp_field) (t : nat) (n : Node) : Node :=
  match f with
  | Created => mkNode (name n) (parent n) t (modified n) (accessed n) (body n)
  | Modified => mkNode (name n) (parent n) (created n) t (accessed n) (body n)
  | Accessed => mkNode (name n) (parent n) (created n) (modified n) t (body n)
  end.

Definition set_name (nm : string) (n : Node) : Node :=
  mkNode nm (parent n) (created n) (modified n) (accessed n) (body n).

Definition set_parent (p : option nat) (n : Node) : Node :=
  mkNode (name n) p (created n) (modified n) (accessed n) (body n).

Definition set_body (b : NodeBody) (n : Node) : Node :=
  mkNode (name n) (parent n) (created n) (modified n) (accessed n) b.

(** an update of the [children] dictionary of a directory object *)
Definition on_children (f : gmap string nat -> gmap string nat) (n : Node) : Node :=
  match body n with
  | DirBody ch => set_body (DirBody (f ch)) n
  | FileBody _ _ => n
  end.

(** [isinstance(node, DirectoryNode)], giving the [children] dictionary *)
Definition children_of (h : gmap nat Node) (id : nat) : option (gmap string nat) :=
  match h !! id with
  | Some n => match body n with DirBody ch => Some ch | FileBody _ _ => None end
  | None => None
  end.

(** [isinstance(node, FileNode)], giving [content] *)
Definition content_of (h : gmap nat Node) (id : nat) : option (list byte) :=
  match h !! id with
  | Some n => match body n with FileBody c _ => Some c | DirBody _ => None end
  | None => None
  end.

(** [FileSystemNode.__init__]: one reading of the clock sets the three
    timestamps *)
Definition new_node (nm : string) (par : option nat) (b : NodeBody)
    (st : VirtualFileSystem) : nat * VirtualFileSystem :=
  (next_id st,
   mkVFS (<[next_id st := mkNode nm par (clock st) (clock st) (clock st) b]> (heap st))
         (S (next_id st)) (S (clock st)) (root st) (traversal_cache st)).

Definition FileNode (nm : string) (par : option nat) (content : list byte) :=
  new_node nm par (FileBody content (length content)).

Definition DirectoryNode (nm : string) (par : option nat) :=
  new_node nm par (DirBody ∅).

(** [FileSystemNode.update_timestamp_metadata] *)
Definition update_timestamp_metadata (self : nat) (f : timestamp_field)
    (st : VirtualFileSystem) : VirtualFileSystem :=
  mkVFS (alter (set_timestamp f (clock st)) self (heap st))
        (next_id st) (S (clock st)) (root st) (traversal_cache st).

(** [FileSystemNode.update_modified_time]; no method of the source calls it *)
Definition update_modified_time (self : nat) (st : VirtualFileSystem) : VirtualFileSystem :=
  let st1 := update_timestamp_metadata self Modified st in
  match heap st1 !! self with
  | Some n => match parent n with
              | Some p => update_timestamp_metadata p Modified st1
              | None => st1
              end
  | None => st1
  end.

(** [FileNode.read] *)
Definition FileNode_read (self : nat) (st : VirtualFileSystem)
    : option (list byte) * VirtualFileSystem :=
  let st1 := update_timestamp_metadata self Accessed st in
  (content_of (heap st1) self, st1).

(** [FileNode.write] *)
Definition FileNode_write (self : nat) (content : list byte)
    (st : VirtualFileSystem) : VirtualFileSystem :=
  let h := alter (fun n => match body n with
                           | FileBody _ _ => set_body (FileBody content (length content)) n
                           | DirBody _ => n
                           end) self (heap st) in
  update_timestamp_metadata self Accessed
    (update_timestamp_metadata self Modified
       (update_timestamp_metadata self Created (with_heap h st))).

(** [DirectoryNode.add_child] *)
Definition add_child (self child : nat) (st : VirtualFileSystem) : VirtualFileSystem :=
  match heap st !! child with
  | Some c =>
      let h1 := alter (on_children (insert (name c) child)) self (heap st) in
      let h2 := alter (set_parent (Some self)) child h1 in
      update_timestamp_metadata self Modified (with_heap h2 st)
  | None => st
  end.

(** [DirectoryNode.remove_child] *)
Definition remove_child (self : nat) (child_name : string)
    (st : VirtualFileSystem) : VirtualFileSystem :=
  match children_of (heap st) self with
  | Some ch =>
      match ch !! child_name with
      | Some _ =>
          update_timestamp_metadata self Modified
            (with_heap (alter (on_children (delete child_name)) self (heap st)) st)
      | None => st
      end
  | None => st
  end.

(** [DirectoryNode.get_child] *)
Definition get_child (h : gmap nat Node) (self : nat) (child_name : string) : option nat :=
  match children_of h self with
  | Some ch => ch !! child_name
  | None => None
  end.

(** ** The file system object *)

(** [VirtualFileSystem.__init__], in a process whose clock shows [clk] *)
Definition VirtualFileSystem_init (clk : nat) : VirtualFileSystem :=
  let '(r, st) := DirectoryNode "/" None (mkVFS ∅ 0 clk 0 ∅) in
  with_cache {["/" := r]} (with_root r st).

Definition _normalize_path (path : string) : string :=
  let path := if String.eqb path "" then "/" else path in
  let path := if Str.startswith path "/" then path else "/" +:+ path in
  if negb (String.eqb path "/") && Str.endswith_slash path
  then Str.drop_last path else path.

(** the loop of [_get_node_object_by_path] over [path_parts] *)
Fixpoint walk (h : gmap nat Node) (path_parts : list string) (current : nat) : option nat :=
  match path_parts with
  | [] => Some current
  | part :: rest =>
      if String.eqb part "" then None
      else match children_of h current with
           | None => None
           | Some ch =>
               match ch !! part with
               | None => None
               | Some child => walk h rest child
               end
           end
  end.

Definition _get_node_object_by_path (path : string) (st : VirtualFileSystem)
    : option nat * VirtualFileSystem :=
  let path := _normalize_path path in
  match traversal_cache st !! path with
  | Some node => (Some node, st)
  | None =>
      if String.eqb path "/" then (Some (root st), st)
      else
        let path_parts := Str.split_slash (Str.strip_slash path) in
        match walk (heap st) path_parts (root st) with
        | None => (None, st)
        | Some current =>
            (Some current, with_cache (<[path := current]> (traversal_cache st)) st)
        end
  end.

(** [re.search(...).group()]: [group] of [None] raises AttributeError *)
Definition group (m : option string) : outcome string :=
  match m with
  | Some s => Ok s
  | None => Raise AttributeError
  end.

Definition _get_parent_directory_and_name (path : string) (st : VirtualFileSystem)
    : outcome (option nat * string) * VirtualFileSystem :=
  let normalized_path := _normalize_path path in
  if String.eqb path "/" then (Ok (None, ""), st)
  else
    match group (Re.search_parent normalized_path) with
    | Raise e => (Raise e, st)
    | Ok parent_path =>
        match group (Re.search_name path) with
        | Raise e => (Raise e, st)
        | Ok m =>
            let name := Str.remove_slashes m in
            let '(parent_dir_object, st1) := _get_node_object_by_path parent_path st in
            match parent_dir_object with
            | None => (Ok (None, name), st1)
            | Some p =>
                match children_of (heap st1) p with
                | None => (Ok (None, name), st1)
                | Some _ => (Ok (Some p, name), st1)
                end
            end
        end
    end.

(** the test of [_remove_changed_node_from_cache] on one cached path *)
Definition changed (normalized_path cached_path : string) : bool :=
  String.eqb cached_path normalized_path
  || Str.startswith cached_path (normalized_path +:+ "/").

Definition _remove_changed_node_from_cache (cached_path : string)
    (st : VirtualFileSystem) : VirtualFileSystem :=
  let normalized_path := _normalize_path cached_path in
  with_cache
    (filter (fun kv => changed normalized_path (fst kv) = false) (traversal_cache st)) st.

Definition create_file (path : string) (content : list byte) (st : VirtualFileSystem)
    : outcome bool * VirtualFileSystem :=
  let normalized_path := _normalize_path path in
  match _get_parent_directory_and_name path st with
  | (Raise e, st1) => (Raise e, st1)
  | (Ok (None, _), st1) => (Ok false, st1)
  | (Ok (Some parent_dir, file_name), st1) =>
      match get_child (heap st1) parent_dir file_name with
      | Some _ => (Ok false, st1)
      | None =>
          let '(new_file, st2) := FileNode file_name (Some parent_dir) content st1 in
          let st3 := add_child parent_dir new_file st2 in
          (Ok true, with_cache (<[normalized_path := new_file]> (traversal_cache st3)) st3)
      end
  end.

Definition read_file (path : string) (st : VirtualFileSystem)
    : option (list byte) * VirtualFileSystem :=
  match _get_node_object_by_path path st with
  | (None, st1) => (None, st1)
  | (Some file_object, st1) =>
      match content_of (heap st1) file_object with
      | None => (None, st1)
      | Some _ => FileNode_read file_object st1
      end
  end.

Definition write_file (path : string) (content : list byte) (st : VirtualFileSystem)
    : outcome bool * VirtualFileSystem :=
  match _get_node_object_by_path path st with
  | (None, st1) =>
      match _get_parent_directory_and_name path st1 with
      | (Raise e, st2) => (Raise e, st2)
      | (Ok (None, _), st2) => (Ok false, st2)
      | (Ok (Some parent_dir, file_name), st2) =>
          let '(new_file, st3) := FileNode file_name (Some parent_dir) content st2 in
          let st4 := add_child parent_dir new_file st3 in
          (Ok true,
           with_cache (<[_normalize_path path := new_file]> (traversal_cache st4)) st4)
      end
  | (Some file_object, st1) =>
      match content_of (heap st1) file_object with
      | None => (Ok false, st1)
      | Some _ => (Ok true, FileNode_write file_object content st1)
      end
  end.

Definition create_directory (path : string) (st : VirtualFileSystem)
    : outcome bool * VirtualFileSystem :=
  match _get_parent_directory_and_name path st with
  | (Raise e, st1) => (Raise e, st1)
  | (Ok (None, _), st1) => (Ok false, st1)
  | (Ok (Some parent_dir, dir_name), st1) =>
      match get_child (heap st1) parent_dir dir_name with
      | Some _ => (Ok false, st1)
      | None =>
          let '(new_dir, st2) := DirectoryNode dir_name (Some parent_dir) st1 in
          let st3 := add_child parent_dir new_dir st2 in
          (Ok true,
           with_cache (<[_normalize_path path := new_dir]> (traversal_cache st3)) st3)
      end
  end.

Definition delete (path : string) (st : VirtualFileSystem)
    : outcome bool * VirtualFileSystem :=
  match _get_parent_directory_and_name path st with
  | (Raise e, st1) => (Raise e, st1)
  | (Ok (None, _), st1) => (Ok false, st1)
  | (Ok (Some parent_dir, node_name), st1) =>
      match _get_node_object_by_path path st1 with
      | (None, st2) => (Ok false, st2)
      | (Some node_object, st2) =>
          if Nat.eqb node_object (root st2) then (Ok false, st2)
          else
            let st3 := remove_child parent_dir node_name st2 in
            let st4 :=
              with_cache (<[_normalize_path path := node_object]> (traversal_cache st3)) st3 in
            let st5 := _remove_changed_node_from_cache path st4 in
            (Ok true, update_timestamp_metadata parent_dir Modified st5)
      end
  end.

Section Rename.

(** What [re.sub] makes of a replacement template that contains a
    backslash (an escape, a group reference, or an error) is left to the
    library; a template without one stands for itself. *)
Variable escaped_template : string -> outcome string.

Definition expand_template (repl : string) : outcome string :=
  if Str.has_backslash repl then escaped_template repl else Ok repl.

Definition rename (path new_name : string) (st : VirtualFileSystem)
    : outcome bool * VirtualFileSystem :=
  match _get_parent_directory_and_name path st with
  | (Raise e, st1) => (Raise e, st1)
  | (Ok (None, _), st1) => (Ok false, st1)
  | (Ok (Some parent_dir, node_name), st1) =>
      match get_child (heap st1) parent_dir node_name with
      | None => (Ok false, st1)
      | Some node_object =>
          let old_name := match heap st1 !! node_object with
                          | Some n => name n
                          | None => node_name
                          end in
          let st2 := remove_child parent_dir old_name st1 in
          let st3 := with_heap (alter (set_name new_name) node_object (heap st2)) st2 in
          let st4 := add_child parent_dir node_object st3 in
          let st5 := _remove_changed_node_from_cache path st4 in
          match expand_template ("/" +:+ new_name) with
          | Raise e => (Raise e, st5)
          | Ok repl =>
              let new_path := Re.sub_last repl path in
              (Ok true,
               with_cache (<[_normalize_path new_path := node_object]> (traversal_cache st5))
                          st5)
          end
      end
  end.

End Rename.

(** ** Serialisation *)

(** the value under ["content"]: a [str] or a [bytes] object *)
Inductive PyContent : Type :=
| PyStr (s : list N)
| PyBytes (b : list byte).

(** The dictionary of one node, for the two values of ["type"] on which
    [_construct_node] builds a node. A timestamp is written by [isoformat]
    and read back by [fromisoformat], which gives the same [datetime]: the
    dictionary carries the timestamp itself. ["size"], ["content"] and
    ["children"] may be absent from a dictionary that is read. *)
Inductive NodeData : Type :=
| FileData (created accessed modified : nat)
           (size : option nat) (content : option PyContent)
| DirData (created accessed modified : nat)
          (children : option (list (string * NodeData))).

Fixpoint mapM {A B : Type} (f : A -> outcome B) (l : list A) : outcome (list B) :=
  match l with
  | [] => Ok []
  | x :: r =>
      match f x with
      | Raise e => Raise e
      | Ok y => match mapM f r with
                | Raise e => Raise e
                | Ok ys => Ok (y :: ys)
                end
      end
  end.

(** [FileSystemNode.to_metadata] *)
Definition to_metadata (n : Node) : outcome NodeData :=
  match body n with
  | DirBody _ => Ok (DirData (created n) (accessed n) (modified n) None)
  | FileBody c sz =>
      match Utf8.decode c with
      | Some s => Ok (FileData (created n) (accessed n) (modified n) (Some sz) (Some (PyStr s)))
      | None => Raise UnicodeDecodeError
      end
  end.

(** [FileNode.to_dict] *)
Definition FileNode_to_dict (n : Node) : outcome NodeData :=
  match to_metadata n with
  | Raise e => Raise e
  | Ok data =>
      match data, body n with
      | FileData cr ac mo _ _, FileBody c sz => Ok (FileData cr ac mo (Some sz) (Some (PyBytes c)))
      | _, _ => Ok data
      end
  end.

(** one item of the comprehension of [DirectoryNode.to_dict]:
    [child.to_dict()] for a directory, [child.to_metadata()] otherwise *)
Definition child_to_dict (dir_to_dict : nat -> outcome NodeData) (h : gmap nat Node)
    (item : string * nat) : outcome (string * NodeData) :=
  let '(child_name, child) := item in
  match (match children_of h child with
         | Some _ => dir_to_dict child
         | None => match h !! child with
                   | Some c => to_metadata c
                   | None => Raise AttributeError
                   end
         end) with
  | Raise e => Raise e
  | Ok d => Ok (child_name, d)
  end.

(** [DirectoryNode.to_dict]; the recursion follows the references of the
    store, and [fuel] bounds its depth the way the interpreter's stack does *)
Fixpoint DirectoryNode_to_dict (fuel : nat) (h : gmap nat Node) (self : nat)
    : outcome NodeData :=
  match fuel with
  | O => Raise RecursionError
  | S f =>
      match h !! self with
      | None => Raise AttributeError
      | Some n =>
          match to_metadata n, body n with
          | Ok (DirData cr ac mo _), DirBody ch =>
              match mapM (child_to_dict (DirectoryNode_to_dict f h) h) (map_to_list ch) with
              | Raise e => Raise e
              | Ok items => Ok (DirData cr ac mo (Some items))
              end
          | Ok data, _ => Ok data
          | Raise e, _ => Raise e
          end
      end
  end.

(** [VirtualFileSystem.to_dict], with the depth the recursion may reach *)
Definition to_dict_fuel (fuel : nat) (st : VirtualFileSystem) : outcome NodeData :=
  match heap st !! root st with
  | None => Raise AttributeError
  | Some n =>
      match body n with
      | DirBody _ => DirectoryNode_to_dict fuel (heap st) (root st)
      | FileBody _ _ => FileNode_to_dict n
      end
  end.

(** no chain of children is longer than the number of objects made *)
Definition to_dict (st : VirtualFileSystem) : outcome NodeData :=
  to_dict_fuel (next_id st) st.

Definition set_times (cr ac mo : nat) (n : Node) : Node :=
  mkNode (name n) (parent n) cr mo ac (body n).

Definition set_size (sz : nat) (n : Node) : Node :=
  match body n with
  | FileBody c _ => set_body (FileBody c sz) n
  | DirBody _ => n
  end.

Definition set_content (c : list byte) (n : Node) : Node :=
  match body n with
  | FileBody _ sz => set_body (FileBody c sz) n
  | DirBody _ => n
  end.

(** the loop of [_construct_node] over [children_object.items()] *)
Section ConstructItems.

Variable construct :
  string -> NodeData -> option nat -> VirtualFileSystem -> outcome nat * VirtualFileSystem.
Variable dir_node : nat.

Fixpoint construct_items (items : list (string * NodeData)) (st : VirtualFileSystem)
    : outcome nat * VirtualFileSystem :=
  match items with
  | [] => (Ok dir_node, st)
  | (child_name, child_data) :: rest =>
      match construct child_name child_data (Some dir_node) st with
      | (Raise e, st') => (Raise e, st')
      | (Ok child_node, st') => construct_items rest (add_child dir_node child_node st')
      end
  end.

End ConstructItems.

(** [_construct_node] of [from_dict] *)
Fixpoint _construct_node (nm : string) (data : NodeData) (par : option nat)
    (st : VirtualFileSystem) {struct data} : outcome nat * VirtualFileSystem :=
  match data with
  | FileData cr ac mo sz ct =>
      let '(file_node, st1) := FileNode nm par [] st in
      let h1 := alter (set_times cr ac mo) file_node (heap st1) in
      let h2 := match sz with
                | Some n => alter (set_size n) file_node h1
                | None => h1
                end in
      match ct with
      | None => (Ok file_node, with_heap h2 st1)
      | Some (PyBytes b) => (Ok file_node, with_heap (alter (set_content b) file_node h2) st1)
      | Some (PyStr s) =>
          match Utf8.encode s with
          | Some b => (Ok file_node, with_heap (alter (set_content b) file_node h2) st1)
          | None => (Raise UnicodeEncodeError, with_heap h2 st1)
          end
      end
  | DirData cr ac mo chs =>
      let '(dir_node, st1) := DirectoryNode nm par st in
      let st2 := with_heap (alter (set_times cr ac mo) dir_node (heap st1)) st1 in
      match chs with
      | None => (Ok dir_node, st2)
      | Some children_object => construct_items _construct_node dir_node children_object st2
      end
  end.

(** the path [_cache_persisted_data] gives to a child *)
Definition child_path (current_path child_name : string) : string :=
  if negb (String.eqb current_path "/")
  then Str.rstrip_slash current_path +:+ "/" +:+ "/" +:+ child_name
  else "/" +:+ child_name.

(** the loop of [_cache_persisted_data] over [node.children.items()] *)
Fixpoint cache_items
    (cache_node : nat -> string -> gmap string nat -> outcome (gmap string nat))
    (current_path : string) (items : list (string * nat)) (cache : gmap string nat)
    : outcome (gmap string nat) :=
  match items with
  | [] => Ok cache
  | (child_name, child_node) :: rest =>
      match cache_node child_node (child_path current_path child_name) cache with
      | Raise e => Raise e
      | Ok cache' => cache_items cache_node current_path rest cache'
      end
  end.

(** [_cache_persisted_data] of [from_dict]; it reads the store and fills
    the cache *)
Fixpoint _cache_persisted_data (fuel : nat) (h : gmap nat Node) (node : nat)
    (current_path : string) (cache : gmap string nat) : outcome (gmap string nat) :=
  match fuel with
  | O => Raise RecursionError
  | S f =>
      let cache1 := <[current_path := node]> cache in
      match children_of h node with
      | None => Ok cache1
      | Some ch =>
          cache_items (_cache_persisted_data f h) current_path (map_to_list ch) cache1
      end
  end.

(** [VirtualFileSystem.from_dict], in a process whose clock shows [clk];
    [data] lists the items of the dictionary in order *)
Definition from_dict (clk : nat) (data : list (string * NodeData))
    : outcome VirtualFileSystem :=
  let vfs := VirtualFileSystem_init clk in
  match data with
  | [] => Raise IndexError
  | (root_name, root_data) :: _ =>
      match _construct_node root_name root_data None vfs with
      | (Raise e, _) => Raise e
      | (Ok r, vfs1) =>
          let vfs2 := with_root r vfs1 in
          match _cache_persisted_data (next_id vfs2) (heap vfs2) r "/" (traversal_cache vfs2) with
          | Raise e => Raise e
          | Ok cache => Ok (with_cache cache vfs2)
          end
      end
  end.

(** what [update_json_storage] hands to persistence: the serialised root
    under the key ["/"] *)
Definition file_system_status (st : VirtualFileSystem) : outcome (list (string * NodeData)) :=
  match to_dict st with
  | Raise e => Raise e
  | Ok d => Ok [("/", d)]
  end.

(** ** Runs of the file system *)

Inductive call : Type :=
| CreateFile (path : string) (content : list byte)
| CreateDirectory (path : string)
| WriteFile (path : string) (content : list byte)
| ReadFile (path : string)
| Delete (path : string)
| Rename (path new_name : string).

Section Runs.

Variable escaped_template : string -> outcome string.

(** the file system object after a call, whatever the call returned or raised *)
Definition exec (c : call) (st : VirtualFileSystem) : VirtualFileSystem :=
  match c with
  | CreateFile path content => snd (create_file path content st)
  | CreateDirectory path => snd (create_directory path st)
  | WriteFile path content => snd (write_file path content st)
  | ReadFile path => snd (read_file path st)
  | Delete path => snd (delete path st)
  | Rename path new_name => snd (rename escaped_template path new_name st)
  end.

Inductive reachable : VirtualFileSystem -> Prop :=
| reachable_init clk : reachable (VirtualFileSystem_init clk)
| reachable_from_dict clk data st : from_dict clk data = Ok st -> reachable st
| reachable_call c st : reachable st -> reachable (exec c st).

End Runs.

(** ** Notions the properties are stated with *)

(** the node found by walking [path] from the root, the cache left aside:
    the second half of [_get_node_object_by_path] *)
Definition walk_from_root (st : VirtualFileSystem) (path : string) : option nat :=
  if String.eqb path "/" then Some (root st)
  else walk (heap st) (Str.split_slash (Str.strip_slash path)) (root st).

(** every cached path leads to the node a walk of that path finds *)
Definition cache_coherent (st : VirtualFileSystem) : Prop :=
  forall path node, traversal_cache st !! path = Some node ->
                    walk_from_root st path = Some node.

(** [x] is [d] or lies below [d] in the tree of the store *)
Inductive descendant (h : gmap nat Node) : nat -> nat -> Prop :=
| descendant_self d : descendant h d d
| descendant_child d ch k c x :
    children_of h d = Some ch -> ch !! k = Some c ->
    descendant h c x -> descendant h d x.

(** the [children] of a directory object *)
Definition dir_children (x : Node) : option (gmap string nat) :=
  match body x with
  | DirBody ch => Some ch
  | FileBody _ _ => None
  end.

(** the shape every store has: identities below [n], the number of objects
    made, and children that are live objects made after their directory *)
Definition heap_ok (h : gmap nat Node) (n : nat) : Prop :=
  (forall id x, h !! id = Some x -> id < n)
  /\ (forall d ch k c,
        children_of h d = Some ch -> ch !! k = Some c -> d < c /\ is_Some (h !! c)).

Definition store_ok (st : VirtualFileSystem) : Prop :=
  heap_ok (heap st) (next_id st) /\ is_Some (heap st !! root st).


(** the serialisation of one node, as [child_to_dict] chooses it *)
Definition node_to_dict (fuel : nat) (h : gmap nat Node) (id : nat) : outcome NodeData :=
  match children_of h id with
  | Some _ => DirectoryNode_to_dict fuel h id
  | None => match h !! id with
            | Some c => to_metadata c
            | None => Raise AttributeError
            end
  end.

(** what [_construct_node] returns: a live node made during the call, in
    a store that has kept its objects *)
Definition constructs_ok (data : NodeData) : Prop :=
  forall nm par st id st',
    store_ok st ->
    _construct_node nm data par st = (Ok id, st') ->
    store_ok st' /\ next_id st <= id /\ id < next_id st' /\ is_Some (heap st' !! id)
    /\ root st' = root st
    /\ forall i, is_Some (heap st !! i) -> is_Some (heap st' !! i).

(** a character of a path segment: neither the separator nor a line feed *)
Definition plain_char (c : ascii) : bool :=
  negb (Ascii.eqb c Str.slash) && negb (Ascii.eqb c Str.newline).

Fixpoint plain (s : string) : bool :=
  match s with
  | EmptyString => true
  | String c r => plain_char c && plain r
  end.

Definition valid_segment (s : string) : bool :=
  negb (String.eqb s "") && plain s.

(** the path whose segments are [segs] *)
Fixpoint path_of (segs : list string) : string :=
  match segs with
  | [] => ""
  | s :: r => "/" +:+ s +:+ path_of r
  end.

Definition is_ok {A : Type} (r : outcome A) : Prop :=
  match r with Ok _ => True | Raise _ => False end.

(** ** Tidy states: what runs with valid arguments keep *)

(** every segment is a valid name *)
Definition valid_segs (qs : list string) : Prop :=
  Forall (fun s => valid_segment s = true) qs.

(** a path tail: empty, or beginning with the separator *)
Definition tail_like (x : string) : Prop :=
  x = "" \/ exists y, x = String Str.slash y.

(** no node is found along two paths from [r] *)
Definition unique_paths (h : gmap nat Node) (r : nat) : Prop :=
  forall s1 s2 n, walk h s1 r = Some n -> walk h s2 r = Some n -> s1 = s2.

(** the two stores have the same children everywhere but at [d] *)
Definition same_kids_except (d : nat) (h h' : gmap nat Node) : Prop :=
  forall x k, x <> d -> get_child h' x k = get_child h x k.

(** the path that led, before the child [k] of the directory at [segs] was
    renamed to [k'], where [s] leads afterwards *)
Definition reroute (segs : list string) (k k' : string) (s : list string) : list string :=
  if decide (take (length segs) s = segs) then
    match drop (length segs) s with
    | x :: t =>
        if decide (x = k') then (segs ++ k :: t)%list
        else if decide (x = k) then (segs ++ k' :: t)%list
        else s
    | [] => s
    end
  else s.

(** what a cache entry must be: the root under ["/"], or the node a valid
    path leads to *)
Definition cached_ok (st : VirtualFileSystem) (q : string) (n : nat) : Prop :=
  (q = "/" /\ n = root st)
  \/ exists qs, qs <> [] /\ valid_segs qs /\ q = path_of qs
                /\ walk (heap st) qs (root st) = Some n.

(** a tidy state: the store is well formed, a child is stored under its own
    name, every cache entry is the root or a valid path that leads to the
    cached node, and no node has two paths *)
Record tidy (st : VirtualFileSystem) : Prop := mkTidy {
  tidy_store : store_ok st;
  tidy_names : forall s d k c,
      walk (heap st) s (root st) = Some d ->
      get_child (heap st) d k = Some c -> name <$> heap st !! c = Some k;
  tidy_cache : forall q n, traversal_cache st !! q = Some n -> cached_ok st q n;
  tidy_paths : unique_paths (heap st) (root st)
}.

(** the two states hold the same tree: same root, children and names *)
Definition same_tree (st st' : VirtualFileSystem) : Prop :=
  root st' = root st
  /\ (forall x k, get_child (heap st') x k = get_child (heap st) x k)
  /\ (forall x, name <$> heap st' !! x = name <$> heap st !! x).

(** the body of a node as the constructors make it: an empty directory or a
    file *)
Definition leaf_body (b : NodeBody) : Prop :=
  b = DirBody ∅ \/ exists c sz, b = FileBody c sz.

(** the name [new_name] is free in the directory the path [segs] leads to,
    or it is the name [nm] the node has already *)
Definition target_free (st : VirtualFileSystem) (segs : list string) (nm new_name : string)
    : Prop :=
  new_name = nm
  \/ forall d, walk (heap st) segs (root st) = Some d ->
               get_child (heap st) d new_name = None.

(** a call whose arguments are valid paths and, for [rename], a valid name
    that is free in the directory *)
Inductive valid_call (st : VirtualFileSystem) : call -> Prop :=
| valid_create_file segs nm content :
    valid_segs (segs ++ [nm])%list ->
    valid_call st (CreateFile (path_of (segs ++ [nm])%list) content)
| valid_create_directory segs nm :
    valid_segs (segs ++ [nm])%list ->
    valid_call st (CreateDirectory (path_of (segs ++ [nm])%list))
| valid_write_file segs nm content :
    valid_segs (segs ++ [nm])%list ->
    valid_call st (WriteFile (path_of (segs ++ [nm])%list) content)
| valid_read_file ps :
    valid_segs ps -> valid_call st (ReadFile (path_of ps))
| valid_delete segs nm :
    valid_segs (segs ++ [nm])%list ->
    valid_call st (Delete (path_of (segs ++ [nm])%list))
| valid_rename segs nm new_name :
    valid_segs (segs ++ [nm])%list ->
    valid_segment new_name = true -> Str.has_backslash new_name = false ->
    target_free st segs nm new_name ->
    valid_call st (Rename (path_of (segs ++ [nm])%list) new_name).

(** the states of runs that start from a new file system and make valid
    calls only *)
Inductive tidy_run (esc : string -> outcome string) : VirtualFileSystem -> Prop :=
| tidy_run_init clk : tidy_run esc (VirtualFileSystem_init clk)
| tidy_run_call c st :
    tidy_run esc st -> valid_call st c -> tidy_run esc (exec esc c st).


(** ** Notions of the further properties *)

(** whether the character [c] occurs in [s] *)
Fixpoint occurs (c : ascii) (s : string) : bool :=
  match s with
  | EmptyString => false
  | String a r => Ascii.eqb a c || occurs c r
  end.

(** the two states hold the same objects, clock and root; the cache of the
    second has the entries of the first *)
Definition same_but_cache (st st' : VirtualFileSystem) : Prop :=
  heap st' = heap st /\ next_id st' = next_id st /\ clock st' = clock st
  /\ root st' = root st /\ traversal_cache st ⊆ traversal_cache st'.

(** the content and the size of a file object *)
Definition file_data (n : Node) : option (list byte * nat) :=
  match body n with
  | FileBody c sz => Some (c, sz)
  | DirBody _ => None
  end.

(** every [str] content of the dictionary can be encoded *)
Fixpoint encodable (data : NodeData) : bool :=
  match data with
  | FileData _ _ _ _ (Some (PyStr s)) =>
      match Utf8.encode s with Some _ => true | None => false end
  | FileData _ _ _ _ _ => true
  | DirData _ _ _ None => true
  | DirData _ _ _ (Some l) =>
      (fix all (l : list (string * NodeData)) : bool :=
         match l with
         | [] => true
         | (_, d) :: r => encodable d && all r
         end) l
  end.

(** what [_construct_node] returns on a dictionary *)
Definition construct_outcome (data : NodeData) : Prop :=
  forall nm par st,
    match fst (_construct_node nm data par st) with
    | Ok _ => encodable data = true
    | Raise e => e = UnicodeEncodeError /\ encodable data = false
    end.

(** the states of runs that start from a new file system *)
Inductive started (esc : string -> outcome string) : VirtualFileSystem -> Prop :=
| started_init clk : started esc (VirtualFileSystem_init clk)
| started_call c st : started esc st -> started esc (exec esc c st).

(** the timestamps of a node when the clock shows [clk]: none is in the
    future; a directory was never accessed after its creation; a file was
    not modified before it was created nor accessed before it was modified *)
Definition times_ok (clk : nat) (n : Node) : Prop :=
  created n < clk /\ modified n < clk /\ accessed n < clk
  /\ match body n with
     | DirBody _ => accessed n = created n /\ created n <= modified n
     | FileBody _ _ => created n <= modified n /\ modified n <= accessed n
     end.

Definition timestamps_ok (st : VirtualFileSystem) : Prop :=
  forall id n, heap st !! id = Some n -> times_ok (clock st) n.

(** whether the name [nm] is free in a directory that [segs] leads to *)
Definition can_create (st : VirtualFileSystem) (segs : list string) (nm : string) : bool :=
  match walk (heap st) segs (root st) with
  | Some d => match children_of (heap st) d with
              | Some ch => match ch !! nm with None => true | Some _ => false end
              | None => false
              end
  | None => false
  end.

(** whether [segs] leads to a directory *)
Definition leads_to_directory (st : VirtualFileSystem) (segs : list string) : bool :=
  match walk (heap st) segs (root st) with
  | Some d => match children_of (heap st) d with Some _ => true | None => false end
  | None => false
  end.

Definition is_some {A : Type} (o : option A) : bool :=
  match o with Some _ => true | None => false end.

(** the node [id'] of the store [h'] and what is below it mirror the node
    [id] of [h]: the same kind, content and size, created and accessed time,
    the same modified time for a file and for a directory without children,
    and under the same names children that mirror each other, each reloaded
    child carrying its key as name *)
Inductive mirrors (h h' : gmap nat Node) : nat -> nat -> Prop :=
| mirrors_file id id' n n' c sz :
    h !! id = Some n -> h' !! id' = Some n' ->
    body n = FileBody c sz -> body n' = FileBody c sz ->
    created n' = created n -> accessed n' = accessed n -> modified n' = modified n ->
    mirrors h h' id id'
| mirrors_dir id id' n n' ch ch' :
    h !! id = Some n -> h' !! id' = Some n' ->
    body n = DirBody ch -> body n' = DirBody ch' ->
    created n' = created n -> accessed n' = accessed n ->
    (ch = ∅ -> modified n' = modified n) ->
    (forall k, ch !! k = None -> ch' !! k = None) ->
    (forall k c, ch !! k = Some c ->
                 exists c', ch' !! k = Some c' /\ name <$> h' !! c' = Some k
                            /\ mirrors h h' c c') ->
    mirrors h h' id id'.

(** what a node shows of itself, its parent left aside *)
Definition shown (n : Node) : string * nat * nat * nat * NodeBody :=
  (name n, created n, modified n, accessed n, body n).

(** what [_construct_node] has done when it built a mirror of the node
    [id] of [h] under the name [nm] *)
Definition built (h : gmap nat Node) (id : nat) (nm : string)
    (st st' : VirtualFileSystem) : Prop :=
  store_ok st' /\ next_id st < next_id st' /\ root st' = root st
  /\ (forall i, i < next_id st -> heap st' !! i = heap st !! i)
  /\ name <$> heap st' !! next_id st = Some nm
  /\ mirrors h (heap st') id (next_id st).

(** every entry [k -> c] of the children of a directory [d] leads to a live
    node whose name is [k] and whose parent is [d] *)
Definition links_ok (h : gmap nat Node) : Prop :=
  forall d ch k c,
    children_of h d = Some ch -> ch !! k = Some c ->
    exists n, h !! c = Some n /\ name n = k /\ parent n = Some d.

(** the name and the parent of a node *)
Definition link (n : Node) : string * option nat := (name n, parent n).

(** no directory has [c] as a child *)
Definition detached (h : gmap nat Node) (c : nat) : Prop :=
  forall d ch k, children_of h d = Some ch -> ch !! k = Some c -> False.

(** what [_construct_node] keeps of the links *)
Definition constructs_links (data : NodeData) : Prop :=
  forall nm par st id st',
    store_ok st -> links_ok (heap st) ->
    _construct_node nm data par st = (Ok id, st') ->
    links_ok (heap st') /\ id = next_id st
    /\ forall d, d < next_id st -> children_of (heap st') d = children_of (heap st) d.



(** ** The unit tests of the repository, as scripts *)

Inductive step : Type :=
| Do (c : call)
| ExpectCreateDirectory (path : string) (expected : bool)
| ExpectCreateFile (path : string) (content : list byte) (expected : bool)
| ExpectDelete (path : string) (expected : bool)
| ExpectRename (path new_name : string) (expected : bool)
| ExpectResolves (path : string) (expected : bool)
| ExpectRead (path : string) (expected : option (list byte)).

Definition returned (expected : bool) (r : outcome bool) : bool :=
  match r with
  | Ok b => Bool.eqb b expected
  | Raise _ => false
  end.

Fixpoint bytes_eqb (a b : list byte) : bool :=
  match a, b with
  | [], [] => true
  | x :: a', y :: b' => Byte.eqb x y && bytes_eqb a' b'
  | _, _ => false
  end.

Definition read_eqb (a b : option (list byte)) : bool :=
  match a, b with
  | None, None => true
  | Some x, Some y => bytes_eqb x y
  | _, _ => false
  end.

Section Scripts.

Variable escaped_template : string -> outcome string.

(** whether every assertion of the script holds, the calls being made one
    after the other on the same file system *)
Fixpoint passes (script : list step) (st : VirtualFileSystem) : bool :=
  match script with
  | [] => true
  | Do c :: rest => passes rest (exec escaped_template c st)
  | ExpectCreateDirectory path expected :: rest =>
      let '(r, st1) := create_directory path st in returned expected r && passes rest st1
  | ExpectCreateFile path content expected :: rest =>
      let '(r, st1) := create_file path content st in returned expected r && passes rest st1
  | ExpectDelete path expected :: rest =>
      let '(r, st1) := delete path st in returned expected r && passes rest st1
  | ExpectRename path new_name expected :: rest =>
      let '(r, st1) := rename escaped_template path new_name st in
      returned expected r && passes rest st1
  | ExpectResolves path expected :: rest =>
      let '(r, st1) := _get_node_object_by_path path st in
      Bool.eqb (match r with Some _ => true | None => false end) expected && passes rest st1
  | ExpectRead path expected :: rest =>
      let '(r, st1) := read_file path st in
      read_eqb r expected && passes rest st1
  end.

End Scripts.

Definition bytes (s : string) : list byte := list_byte_of_string s.

(** [tests/unit_tests.py] *)

Definition test_directory_creation : list step :=
  [ ExpectCreateDirectory "/home" true;
    ExpectResolves "/home" true;
    ExpectCreateDirectory "/home/armir" true;
    ExpectResolves "/home/armir" true;
    ExpectCreateDirectory "/etc/documents" false;
    ExpectResolves "/etc/documents" false;
    ExpectCreateDirectory "/home/documents/armir" false;
    ExpectResolves "/home/documents/armir" false ].

Definition test_file_creation : list step :=
  [ Do (CreateDirectory "/home");
    ExpectCreateFile "/hello.txt" (bytes "Hello, World!") true;
    ExpectResolves "/hello.txt" true;
    ExpectRead "/hello.txt" (Some (bytes "Hello, World!"));
    ExpectCreateFile "/home/documents/sample.txt" (bytes "Sample content") false;
    ExpectResolves "/home/documents/sample.txt" false ].

Definition test_node_deletion : list step :=
  [ Do (CreateDirectory "/home");
    Do (CreateDirectory "/home/armir");
    Do (CreateDirectory "/home/documents");
    Do (CreateDirectory "/home/work");
    Do (CreateDirectory "/home/work/management");
    Do (CreateFile "/home/work/sample.txt" (bytes "Sample content"));
    ExpectDelete "/home/armir" true;
    ExpectResolves "/home/armir" false;
    ExpectDelete "/home/etc" false;
    ExpectDelete "/home/work/sample.txt" true;
    ExpectResolves "/home/work/sample.txt" false;
    ExpectDelete "/home" true;
    ExpectResolves "/home" false;
    ExpectResolves "/home/documents" false;
    ExpectResolves "/home/work/management" false ].

Definition test_node_renaming : list step :=
  [ Do (CreateDirectory "/home");
    Do (CreateFile "/home/sample.txt" (bytes "Sample content"));
    ExpectRename "/home" "home1" true;
    ExpectResolves "/home1" true;
    ExpectResolves "/home" false;
    ExpectRename "/home1/sample.txt" "sample_updated.txt" true;
    ExpectResolves "/home1/sample_updated.txt" true;
    ExpectResolves "/home1/sample.txt" false ].

(** the two scenarios of the specification *)

Definition scenario_notes : list step :=
  [ ExpectCreateDirectory "/home" true;
    ExpectCreateFile "/home/notes.txt" (bytes "hi") true;
    ExpectRead "/home/notes.txt" (Some (bytes "hi"));
    ExpectCreateDirectory "/home/missing/x" false;
    ExpectDelete "/home" true;
    ExpectRead "/home/notes.txt" None ].

Definition scenario_rename : list step :=
  [ ExpectCreateDirectory "/a" true;
    ExpectCreateDirectory "/a/b" true;
    ExpectRename "/a" "z" true;
    ExpectResolves "/z/b" true;
    ExpectResolves "/a" false;
    ExpectResolves "/a/b" false ].

(** the trees of the examples *)

Definition fresh_vfs : VirtualFileSystem := VirtualFileSystem_init 0.

(** [/a] *)
Definition tree_a : VirtualFileSystem := snd (create_directory "/a" fresh_vfs).

(** [/a] and [/b] *)
Definition tree_a_b : VirtualFileSystem := snd (create_directory "/b" tree_a).

(** [/a/b], a file holding "hi" *)
Definition tree_a_file : VirtualFileSystem :=
  snd (create_file "/a/b" ["h"%byte; "i"%byte] tree_a).

(** [/f], a file holding "hi" *)
Definition tree_f : VirtualFileSystem :=
  snd (create_file "/f" ["h"%byte; "i"%byte] fresh_vfs).

(** what the tree [/a/b] serialises to *)
Definition persisted_a_file : list (string * NodeData) :=
  [("/", DirData 0 0 2
           (Some [("a", DirData 1 1 4
                          (Some [("b", FileData 3 3 3 (Some 2)
                                         (Some (PyStr [104%N; 105%N])))]))]))].

(** the file system read back from it, the clock having gone on *)
Definition reloaded_a_file : VirtualFileSystem :=
  match from_dict (clock tree_a_file) persisted_a_file with
  | Ok st => st
  | Raise _ => fresh_vfs
  end.

(** what the tree [/a] serialises to *)
Definition persisted_a : list (string * NodeData) :=
  [("/", DirData 0 0 2 (Some [("a", DirData 1 1 1 (Some []))]))].

(** a node read again: everything but [accessed] as before *)
Definition same_but_accessed (n n' : Node) : Prop :=
  name n' = name n /\ parent n' = parent n /\ body n' = body n
  /\ created n' = created n /\ modified n' = modified n.

(** * Properties *)

Example split_ex : Str.split_slash "a//b" = ["a"; ""; "b"].
Proof. reflexivity. Qed.

Example strip_ex : Str.strip_slash "//a/b//" = "a/b".
Proof. reflexivity. Qed.

Example search_parent_ex : Re.search_parent "/home/armir" = Some "/home".
Proof. reflexivity. Qed.

Example search_parent_top : Re.search_parent "/home" = Some "".
Proof. reflexivity. Qed.

Example search_name_ex : Re.search_name "/home/armir" = Some "/armir".
Proof. reflexivity. Qed.

Example search_name_trailing : Re.search_name "/home/" = Some "/".
Proof. reflexivity. Qed.

Example search_name_none : Re.search_name "home" = None.
Proof. reflexivity. Qed.

Example sub_last_ex : Re.sub_last "/z" "/a/b" = "/a/z".
Proof. reflexivity. Qed.

(** ** The model passes the tests of the repository *)

Lemma unit_tests_pass (escaped_template : string -> outcome string) :
  passes escaped_template test_directory_creation fresh_vfs = true
  /\ passes escaped_template test_file_creation fresh_vfs = true
  /\ passes escaped_template test_node_deletion fresh_vfs = true
  /\ passes escaped_template test_node_renaming fresh_vfs = true.
Proof. split_and!; vm_compute; reflexivity. Qed.

Lemma scenarios_pass (escaped_template : string -> outcome string) :
  passes escaped_template scenario_notes fresh_vfs = true
  /\ passes escaped_template scenario_rename fresh_vfs = true.
Proof. split_and!; vm_compute; reflexivity. Qed.

(** ** Reading *)

Lemma alter_lookup_insert (h : gmap nat Node) i n f :
  h !! i = Some n -> alter f i h = <[i := f n]> h.
Proof.
  intros H. apply map_eq. intros j. destruct (decide (j = i)) as [->|Hne].
  - by rewrite lookup_alter_eq, lookup_insert_eq, H.
  - by rewrite lookup_alter_ne, lookup_insert_ne.
Qed.

(** resolution touches nothing but the cache, and only adds to it *)
Lemma resolve_frame path st :
  let r := _get_node_object_by_path path st in
  heap (snd r) = heap st /\ next_id (snd r) = next_id st /\ clock (snd r) = clock st
  /\ root (snd r) = root st /\ traversal_cache st ⊆ traversal_cache (snd r).
Proof.
  unfold _get_node_object_by_path.
  destruct (traversal_cache st !! _normalize_path path) eqn:Hc; simpl; [done|].
  destruct (String.eqb _ _); simpl; [done|].
  destruct (walk _ _ _); simpl; [|done].
  repeat split; try done. by apply insert_subseteq.
Qed.

(** C9. For every path and every state, [read_file] leaves the root, the
    identities and the cached entries as they were (the cache may gain
    entries); every node keeps its name, parent, children or content and size,
    created and modified time; when nothing is returned the store and the
    clock are untouched, and when content is returned it is the content of one
    file node, the only node whose accessed time changed. *)
Theorem read_file_frame path st :
  let r := read_file path st in
  next_id (snd r) = next_id st /\ root (snd r) = root st
  /\ traversal_cache st ⊆ traversal_cache (snd r)
  /\ (forall id, option_Forall2 same_but_accessed (heap st !! id) (heap (snd r) !! id))
  /\ match fst r with
     | None => heap (snd r) = heap st /\ clock (snd r) = clock st
     | Some bytes =>
         exists file n,
           heap st !! file = Some n /\ content_of (heap st) file = Some bytes
           /\ heap (snd r) = <[file := set_timestamp Accessed (clock st) n]> (heap st)
     end.
Proof.
  assert (Hrefl : forall h : gmap nat Node, forall id,
             option_Forall2 same_but_accessed (h !! id) (h !! id)).
  { intros h id. destruct (h !! id); constructor. by repeat split. }
  unfold read_file.
  pose proof (resolve_frame path st) as H. simpl in H.
  destruct (_get_node_object_by_path path st) as [[f|] st1]; simpl in *;
    destruct H as (Hh & Hn & Hk & Hr & Hc); [|by rewrite Hh].
  destruct (content_of (heap st1) f) as [c|] eqn:Hf; simpl; [|by rewrite Hh].
  rewrite Hh in Hf. rewrite Hh, Hk.
  assert (exists n, heap st !! f = Some n) as [n Hl].
  { unfold content_of in Hf. destruct (heap st !! f); [eauto|done]. }
  rewrite (alter_lookup_insert _ _ _ _ Hl).
  assert (content_of (<[f:=set_timestamp Accessed (clock st) n]> (heap st)) f = Some c) as ->.
  { unfold content_of in *. rewrite lookup_insert_eq. rewrite Hl in Hf. done. }
  repeat split; try done; [|eauto].
  intros id. destruct (decide (id = f)) as [->|Hne].
  - rewrite lookup_insert_eq, Hl. constructor. by repeat split.
  - rewrite lookup_insert_ne by done. apply Hrefl.
Qed.

(** ** The shape of the store *)

Lemma children_of_dir_children h id :
  children_of h id = h !! id ≫= dir_children.
Proof. unfold children_of, dir_children. by destruct (h !! id). Qed.

Lemma children_of_alter h f id d :
  (forall x, dir_children (f x) = dir_children x) ->
  children_of (alter f id h) d = children_of h d.
Proof.
  intros Hf. rewrite !children_of_dir_children.
  destruct (decide (d = id)) as [->|Hne].
  - rewrite lookup_alter_eq. destruct (h !! id); simpl; [apply Hf|done].
  - by rewrite lookup_alter_ne.
Qed.

Lemma is_Some_alter (h : gmap nat Node) f id c :
  is_Some (alter f id h !! c) <-> is_Some (h !! c).
Proof.
  destruct (decide (c = id)) as [->|Hne].
  - rewrite lookup_alter_eq. by rewrite fmap_is_Some.
  - by rewrite lookup_alter_ne.
Qed.

Lemma heap_ok_alter h n f id :
  (forall x, dir_children (f x) = dir_children x) ->
  heap_ok h n -> heap_ok (alter f id h) n.
Proof.
  intros Hf [Hb Hc]. split.
  - intros i x Hx. assert (is_Some (h !! i)) as [y Hy].
    { apply (is_Some_alter h f id). eauto. }
    eauto.
  - intros d ch k c. rewrite children_of_alter by done. intros H1 H2.
    destruct (Hc d ch k c H1 H2). split; [done|]. by apply is_Some_alter.
Qed.

Lemma children_of_on_children h g id d :
  children_of (alter (on_children g) id h) d =
  if decide (d = id) then g <$> children_of h id else children_of h d.
Proof.
  rewrite !children_of_dir_children. case_decide as Hd; [subst d|].
  - rewrite lookup_alter_eq. destruct (h !! id) as [x|]; [|done]. simpl.
    unfold on_children, dir_children. destruct (body x) eqn:E; cbn; by rewrite ?E.
  - by rewrite lookup_alter_ne.
Qed.

Lemma heap_ok_add h n d k c :
  heap_ok h n -> d < c -> is_Some (h !! c) ->
  heap_ok (alter (on_children (insert k c)) d h) n.
Proof.
  intros [Hb Hc] Hlt Hlive. split.
  - intros i x Hx. assert (is_Some (h !! i)) as [y Hy].
    { apply (is_Some_alter h (on_children (insert k c)) d). eauto. }
    eauto.
  - intros d' ch k' c'. rewrite children_of_on_children. case_decide as Hd.
    + subst d'. destruct (children_of h d) as [ch0|] eqn:E; [|done].
      intros [= <-]. rewrite lookup_insert. case_decide.
      * intros [= <-]. split; [done|]. by apply is_Some_alter.
      * intros H2. destruct (Hc d ch0 k' c' E H2). split; [done|]. by apply is_Some_alter.
    + intros H1 H2. destruct (Hc d' ch k' c' H1 H2). split; [done|]. by apply is_Some_alter.
Qed.

Lemma heap_ok_del h n d k :
  heap_ok h n -> heap_ok (alter (on_children (base.delete k)) d h) n.
Proof.
  intros [Hb Hc]. split.
  - intros i x Hx. assert (is_Some (h !! i)) as [y Hy].
    { apply (is_Some_alter h (on_children (base.delete k)) d). eauto. }
    eauto.
  - intros d' ch k' c'. rewrite children_of_on_children. case_decide as Hd.
    + subst d'. destruct (children_of h d) as [ch0|] eqn:E; [|done].
      intros [= <-]. rewrite lookup_delete. case_decide; [done|].
      intros H2. destruct (Hc d ch0 k' c' E H2). split; [done|]. by apply is_Some_alter.
    + intros H1 H2. destruct (Hc d' ch k' c' H1 H2). split; [done|]. by apply is_Some_alter.
Qed.

Lemma heap_ok_new h n x :
  heap_ok h n -> dir_children x = None \/ dir_children x = Some ∅ ->
  heap_ok (<[n := x]> h) (S n).
Proof.
  intros [Hb Hc] Hx. split.
  - intros i y. rewrite lookup_insert. case_decide; [lia|]. intros H'%Hb. lia.
  - intros d ch k c. rewrite children_of_dir_children, lookup_insert. case_decide.
    + simpl. destruct Hx as [-> | ->]; [done|]. intros [= <-]. by rewrite lookup_empty.
    + rewrite <- children_of_dir_children. intros H1 H2.
      destruct (Hc d ch k c H1 H2) as [? [y Hy]]. split; [done|].
      rewrite lookup_insert. case_decide; eauto.
Qed.

Lemma heap_ok_mono h n m : heap_ok h n -> n <= m -> heap_ok h m.
Proof. intros [Hb Hc] Hle. split; [|done]. intros i x H'%Hb. lia. Qed.

(** the primitive steps keep the shape *)

Lemma store_ok_ext st st' :
  heap st' = heap st -> next_id st' = next_id st -> root st' = root st ->
  store_ok st -> store_ok st'.
Proof. unfold store_ok. by intros -> -> ->. Qed.

Lemma dir_children_set_timestamp f t x : dir_children (set_timestamp f t x) = dir_children x.
Proof. by destruct f. Qed.

Lemma store_ok_update_timestamp self f st :
  store_ok st -> store_ok (update_timestamp_metadata self f st).
Proof.
  intros [H1 H2]. split; unfold with_heap, update_timestamp_metadata, new_node; cbn [heap next_id root snd].
  - apply heap_ok_alter; [|done]. intros x. apply dir_children_set_timestamp.
  - by apply is_Some_alter.
Qed.

Lemma store_ok_new_node nm par b st :
  b = DirBody ∅ \/ (exists c sz, b = FileBody c sz) ->
  store_ok st -> store_ok (snd (new_node nm par b st)).
Proof.
  intros Hb [H1 H2]. split; unfold with_heap, update_timestamp_metadata, new_node; cbn [heap next_id root snd].
  - apply heap_ok_new; [done|]. unfold dir_children. cbn.
    destruct Hb as [->|(c & sz & ->)]; auto.
  - rewrite lookup_insert. case_decide; [eauto|done].
Qed.

Lemma store_ok_add_child self child st :
  self < child -> store_ok st -> store_ok (add_child self child st).
Proof.
  intros Hlt Hok. unfold add_child. destruct (heap st !! child) as [c|] eqn:Hc; [|done].
  apply store_ok_update_timestamp. destruct Hok as [H1 H2]. split; unfold with_heap, update_timestamp_metadata, new_node; cbn [heap next_id root snd].
  - apply heap_ok_alter; [done|]. apply heap_ok_add; eauto.
  - by apply is_Some_alter, is_Some_alter.
Qed.

Lemma store_ok_remove_child self nm st :
  store_ok st -> store_ok (remove_child self nm st).
Proof.
  intros Hok. unfold remove_child. destruct (children_of (heap st) self); [|done].
  destruct (_ !! nm); [|done].
  apply store_ok_update_timestamp. destruct Hok as [H1 H2]. split; unfold with_heap, update_timestamp_metadata, new_node; cbn [heap next_id root snd].
  - by apply heap_ok_del.
  - by apply is_Some_alter.
Qed.

Lemma store_ok_with_cache c st : store_ok st -> store_ok (with_cache c st).
Proof. done. Qed.

Lemma store_ok_remove_cache p st :
  store_ok st -> store_ok (_remove_changed_node_from_cache p st).
Proof. done. Qed.

Lemma store_ok_write self content st :
  store_ok st -> store_ok (FileNode_write self content st).
Proof.
  intros [H1 H2]. unfold FileNode_write.
  do 3 apply store_ok_update_timestamp. split; unfold with_heap, update_timestamp_metadata, new_node; cbn [heap next_id root snd].
  - apply heap_ok_alter; [|done]. intros x. unfold dir_children.
    destruct (body x) eqn:E; cbn; by rewrite ?E.
  - by apply is_Some_alter.
Qed.

Lemma store_ok_resolve p st :
  store_ok st -> store_ok (snd (_get_node_object_by_path p st)).
Proof.
  intros H. pose proof (resolve_frame p st) as (Hh & Hn & _ & Hr & _).
  by apply (store_ok_ext st).
Qed.

(** what [_get_parent_directory_and_name] leaves and returns *)
Lemma parent_and_name_frame path st :
  let r := _get_parent_directory_and_name path st in
  heap (snd r) = heap st /\ next_id (snd r) = next_id st /\ clock (snd r) = clock st
  /\ root (snd r) = root st /\ traversal_cache st ⊆ traversal_cache (snd r)
  /\ forall p nm, fst r = Ok (Some p, nm) -> is_Some (children_of (heap st) p).
Proof.
  unfold _get_parent_directory_and_name.
  destruct (String.eqb path "/"); [by repeat split|].
  destruct (group (Re.search_parent _)); [|by repeat split].
  destruct (group (Re.search_name _)); [|by repeat split].
  pose proof (resolve_frame a st) as H.
  destruct (_get_node_object_by_path a st) as [[p|] st1]; cbn [fst snd] in *;
    destruct H as (Hh & Hn & Hk & Hr & Hc); [|by repeat split].
  destruct (children_of (heap st1) p) eqn:E; cbn [fst snd]; repeat split; try done.
  intros p' nm [= <- _]. rewrite <- Hh, E. eauto.
Qed.

Lemma store_ok_live_lt st p :
  store_ok st -> is_Some (children_of (heap st) p) -> p < next_id st.
Proof.
  intros [[Hb _] _] [ch H]. unfold children_of in H.
  destruct (heap st !! p) eqn:E; [|done]. eauto.
Qed.

Lemma store_ok_attach nm p b st :
  b = DirBody ∅ \/ (exists c sz, b = FileBody c sz) ->
  p < next_id st ->
  store_ok st -> store_ok (add_child p (next_id st) (snd (new_node nm (Some p) b st))).
Proof.
  intros Hb Hlt Hok. apply store_ok_add_child; [done|]. by apply store_ok_new_node.
Qed.

Lemma store_ok_create_file path content st :
  store_ok st -> store_ok (snd (create_file path content st)).
Proof.
  intros Hok. unfold create_file.
  pose proof (parent_and_name_frame path st) as H.
  destruct (_get_parent_directory_and_name path st) as [[[[p|] nm]|e] st1];
    cbn [fst snd] in *; destruct H as (Hh & Hn & _ & Hr & _ & Hp);
    pose proof (store_ok_ext st st1 Hh Hn Hr Hok) as Hok1; try done.
  destruct (get_child (heap st1) p nm); [done|].
  cbn. apply store_ok_with_cache. apply store_ok_attach; [eauto| |done].
  rewrite Hn. apply store_ok_live_lt; eauto.
Qed.

Lemma store_ok_create_directory path st :
  store_ok st -> store_ok (snd (create_directory path st)).
Proof.
  intros Hok. unfold create_directory.
  pose proof (parent_and_name_frame path st) as H.
  destruct (_get_parent_directory_and_name path st) as [[[[p|] nm]|e] st1];
    cbn [fst snd] in *; destruct H as (Hh & Hn & _ & Hr & _ & Hp);
    pose proof (store_ok_ext st st1 Hh Hn Hr Hok) as Hok1; try done.
  destruct (get_child (heap st1) p nm); [done|].
  cbn. apply store_ok_with_cache. apply store_ok_attach; [eauto| |done].
  rewrite Hn. apply store_ok_live_lt; eauto.
Qed.

Lemma store_ok_read_file path st :
  store_ok st -> store_ok (snd (read_file path st)).
Proof.
  intros Hok. unfold read_file.
  pose proof (store_ok_resolve path st Hok) as H.
  destruct (_get_node_object_by_path path st) as [[f|] st1]; cbn [snd] in *; [|done].
  destruct (content_of (heap st1) f); [|done].
  by apply store_ok_update_timestamp.
Qed.

Lemma store_ok_write_file path content st :
  store_ok st -> store_ok (snd (write_file path content st)).
Proof.
  intros Hok. unfold write_file.
  pose proof (store_ok_resolve path st Hok) as H.
  destruct (_get_node_object_by_path path st) as [[f|] st1]; cbn [snd] in *.
  - destruct (content_of (heap st1) f); [|done]. by apply store_ok_write.
  - pose proof (parent_and_name_frame path st1) as H'.
    destruct (_get_parent_directory_and_name path st1) as [[[[p|] nm]|e] st2];
      cbn [fst snd] in *; destruct H' as (Hh & Hn & _ & Hr & _ & Hp);
      pose proof (store_ok_ext st1 st2 Hh Hn Hr H) as Hok2; try done.
    cbn. apply store_ok_with_cache. apply store_ok_attach; [eauto| |done].
    rewrite Hn. apply store_ok_live_lt; eauto.
Qed.

Lemma store_ok_delete path st :
  store_ok st -> store_ok (snd (delete path st)).
Proof.
  intros Hok. unfold delete.
  pose proof (parent_and_name_frame path st) as H.
  destruct (_get_parent_directory_and_name path st) as [[[[p|] nm]|e] st1];
    cbn [fst snd] in *; destruct H as (Hh & Hn & _ & Hr & _ & Hp);
    pose proof (store_ok_ext st st1 Hh Hn Hr Hok) as Hok1; try done.
  pose proof (store_ok_resolve path st1 Hok1) as H.
  destruct (_get_node_object_by_path path st1) as [[x|] st2]; cbn [snd] in *; [|done].
  destruct (x =? root st2)%nat; [done|]. cbn [snd].
  apply store_ok_update_timestamp, store_ok_remove_cache, store_ok_with_cache.
  by apply store_ok_remove_child.
Qed.

Lemma store_ok_set_name nm x st :
  store_ok st -> store_ok (with_heap (alter (set_name nm) x (heap st)) st).
Proof.
  intros [H1 H2]. split; unfold with_heap; cbn [heap next_id root].
  - by apply heap_ok_alter.
  - by apply is_Some_alter.
Qed.

Lemma get_child_lt st p nm c :
  store_ok st -> get_child (heap st) p nm = Some c -> p < c.
Proof.
  intros [[_ Hc] _]. unfold get_child.
  destruct (children_of (heap st) p) eqn:E; [|done]. intros H.
  by destruct (Hc _ _ _ _ E H).
Qed.

Lemma store_ok_rename esc path new_name st :
  store_ok st -> store_ok (snd (rename esc path new_name st)).
Proof.
  intros Hok. unfold rename.
  pose proof (parent_and_name_frame path st) as H.
  destruct (_get_parent_directory_and_name path st) as [[[[p|] nm]|e] st1];
    cbn [fst snd] in *; destruct H as (Hh & Hn & _ & Hr & _ & Hp);
    pose proof (store_ok_ext st st1 Hh Hn Hr Hok) as Hok1; try done.
  destruct (get_child (heap st1) p nm) as [c|] eqn:Hc; [|done].
  pose proof (get_child_lt _ _ _ _ Hok1 Hc) as Hlt.
  match goal with |- context [remove_child p ?o st1] => generalize o; intros old end.
  assert (store_ok (_remove_changed_node_from_cache path
            (add_child p c
               (with_heap (alter (set_name new_name) c (heap (remove_child p old st1)))
                  (remove_child p old st1))))) as Hfin.
  { apply store_ok_remove_cache, store_ok_add_child; [done|].
    by apply store_ok_set_name, store_ok_remove_child. }
  destruct (expand_template esc _); cbn [snd]; [|done].
  by apply store_ok_with_cache.
Qed.

Lemma NodeData_ind' (P : NodeData -> Prop) :
  (forall cr ac mo sz ct, P (FileData cr ac mo sz ct)) ->
  (forall cr ac mo, P (DirData cr ac mo None)) ->
  (forall cr ac mo l, Forall (fun kv => P (snd kv)) l -> P (DirData cr ac mo (Some l))) ->
  forall d, P d.
Proof.
  intros Hf Hn Hd. fix IH 1. intros [cr ac mo sz ct | cr ac mo [l|]];
    [apply Hf | | apply Hn].
  apply Hd. induction l as [|[k d] l IHl]; constructor; [apply IH | apply IHl].
Qed.

Lemma store_ok_alter_meta f x st :
  (forall y, dir_children (f y) = dir_children y) ->
  store_ok st -> store_ok (with_heap (alter f x (heap st)) st).
Proof.
  intros Hf [H1 H2]. split; unfold with_heap; cbn [heap next_id root].
  - by apply heap_ok_alter.
  - by apply is_Some_alter.
Qed.

Lemma dir_children_set_size n y : dir_children (set_size n y) = dir_children y.
Proof. unfold dir_children, set_size. destruct (body y) eqn:E; cbn; by rewrite ?E. Qed.

Lemma dir_children_set_content c y : dir_children (set_content c y) = dir_children y.
Proof. unfold dir_children, set_content. destruct (body y) eqn:E; cbn; by rewrite ?E. Qed.

Lemma is_Some_insert_mono (h : gmap nat Node) k x i :
  is_Some (h !! i) -> is_Some (<[k := x]> h !! i).
Proof. intros H. rewrite lookup_insert. case_decide; eauto. Qed.

Lemma constructs_ok_file cr ac mo sz ct : constructs_ok (FileData cr ac mo sz ct).
Proof.
  intros nm par st id st' Hok. cbn [_construct_node FileNode new_node].
  set (st1 := mkVFS _ _ _ _ _).
  assert (Hok1 : store_ok st1).
  { apply (store_ok_new_node nm par (FileBody [] (length (@nil byte))) st); eauto. }
  set (h1 := alter (set_times cr ac mo) (next_id st) (heap st1)).
  assert (Hok2 : store_ok (with_heap h1 st1)) by (by apply store_ok_alter_meta).
  set (h2 := match sz with Some n => alter (set_size n) (next_id st) h1 | None => h1 end).
  assert (Hok3 : store_ok (with_heap h2 st1)).
  { subst h2. destruct sz; [|done].
    apply (store_ok_alter_meta _ _ (with_heap h1 st1)); [|done]. apply dir_children_set_size. }
  assert (Hgrow : forall i, is_Some (heap st !! i) -> is_Some (h2 !! i)).
  { intros i Hi. subst h2. destruct sz; [apply is_Some_alter|]; apply is_Some_alter;
      subst st1; cbn [heap]; by apply is_Some_insert_mono. }
  assert (Hlive : is_Some (h2 !! next_id st)).
  { subst h2. destruct sz; [apply is_Some_alter|]; apply is_Some_alter;
      subst st1; cbn [heap]; rewrite lookup_insert_eq; eauto. }
  assert (Hn : next_id st1 = S (next_id st)) by done.
  assert (Hr : root st1 = root st) by done.
  assert (Hfin : forall b, store_ok (with_heap (alter (set_content b) (next_id st) h2) st1)
                           /\ is_Some (alter (set_content b) (next_id st) h2 !! next_id st)
                           /\ forall i, is_Some (heap st !! i) ->
                                        is_Some (alter (set_content b) (next_id st) h2 !! i)).
  { intros b. split; [|split; [by apply is_Some_alter|]].
    - apply (store_ok_alter_meta _ _ (with_heap h2 st1)); [|done].
      apply dir_children_set_content.
    - intros i Hi. by apply is_Some_alter, Hgrow. }
  clearbody st1 h2.
  destruct ct as [[s|b]|].
  - destruct (Utf8.encode s) as [b|]; [|done]. intros [= <- <-].
    destruct (Hfin b) as (? & ? & ?). unfold with_heap in *. cbn [heap next_id root] in *.
    split_and!; try done; lia.
  - intros [= <- <-]. destruct (Hfin b) as (? & ? & ?).
    unfold with_heap in *. cbn [heap next_id root] in *. split_and!; try done; lia.
  - intros [= <- <-]. unfold with_heap in *. cbn [heap next_id root] in *.
    split_and!; try done; lia.
Qed.

Lemma add_child_frame dir c st :
  next_id (add_child dir c st) = next_id st
  /\ root (add_child dir c st) = root st
  /\ forall i, is_Some (heap st !! i) -> is_Some (heap (add_child dir c st) !! i).
Proof.
  unfold add_child. destruct (heap st !! c); [|done].
  unfold update_timestamp_metadata, with_heap. cbn [heap next_id root].
  repeat split. intros i Hi. by do 3 apply is_Some_alter.
Qed.

Lemma constructs_ok_items dir l :
  Forall (fun kv => constructs_ok (snd kv)) l ->
  forall st id st',
    store_ok st -> dir < next_id st -> is_Some (heap st !! dir) ->
    construct_items _construct_node dir l st = (Ok id, st') ->
    id = dir /\ store_ok st' /\ next_id st <= next_id st'
    /\ root st' = root st
    /\ forall i, is_Some (heap st !! i) -> is_Some (heap st' !! i).
Proof.
  induction 1 as [|[k d] l Hd Hl IH]; intros st id st' Hok Hlt Hlive.
  - intros [= <- <-]. by split_and!.
  - cbn [construct_items].
    destruct (_construct_node k d (Some dir) st) as [[c|e] st1] eqn:E; [|done].
    destruct (Hd k (Some dir) st c st1 Hok E) as (Hok1 & Hge & Hlt1 & Hc & Hr1 & Hg1).
    intros Hrest.
    assert (Hok2 : store_ok (add_child dir c st1)).
    { apply store_ok_add_child; [lia|done]. }
    destruct (add_child_frame dir c st1) as (Hn2 & Hr2 & Hl2).
    destruct (IH _ _ _ Hok2 ltac:(lia) (Hl2 _ (Hg1 _ Hlive)) Hrest)
      as (-> & Hok' & Hn' & Hr' & Hg').
    split_and!; try done; [lia|congruence|]. intros i Hi. auto.
Qed.

Lemma constructs_ok_all data : constructs_ok data.
Proof.
  induction data as [cr ac mo sz ct|cr ac mo|cr ac mo l IH] using NodeData_ind'.
  - apply constructs_ok_file.
  - intros nm par st id st' Hok. cbn [_construct_node DirectoryNode new_node].
    intros [= <- <-].
    pose proof (store_ok_new_node nm par (DirBody ∅) st (or_introl eq_refl) Hok) as Hok1.
    pose proof (store_ok_alter_meta (set_times cr ac mo) (next_id st) _ ltac:(done) Hok1) as Hok2.
    unfold with_heap, new_node in *. cbn [heap next_id root snd] in *.
    split_and!; try done; try lia.
    + apply is_Some_alter. rewrite lookup_insert_eq. eauto.
    + intros i Hi. by apply is_Some_alter, is_Some_insert_mono.
  - intros nm par st id st' Hok. cbn [_construct_node DirectoryNode new_node].
    set (st1 := mkVFS _ _ _ _ _).
    pose proof (store_ok_new_node nm par (DirBody ∅) st (or_introl eq_refl) Hok) as Hok1.
    pose proof (store_ok_alter_meta (set_times cr ac mo) (next_id st) _ ltac:(done) Hok1) as Hok2.
    change (snd (new_node nm par (DirBody ∅) st)) with st1 in *.
    intros Hi.
    assert (Hl : is_Some (heap (with_heap (alter (set_times cr ac mo) (next_id st) (heap st1)) st1)
                            !! next_id st)).
    { unfold with_heap; cbn [heap]. apply is_Some_alter. subst st1. cbn [heap].
      rewrite lookup_insert_eq. eauto. }
    destruct (constructs_ok_items (next_id st) l IH _ _ _ Hok2 ltac:(cbn; lia) Hl Hi)
      as (-> & Hok' & Hn' & Hr' & Hg').
    unfold with_heap in *. cbn [heap next_id root] in *.
    split_and!; try done; try lia.
    + by apply Hg'.
    + intros i Hi'. apply Hg'. by apply is_Some_alter, is_Some_insert_mono.
Qed.

Lemma store_ok_init clk : store_ok (VirtualFileSystem_init clk).
Proof.
  split; cbn.
  - split.
    + intros id x. rewrite lookup_insert. case_decide; [lia|by rewrite lookup_empty].
    + intros d ch k c. unfold children_of. rewrite lookup_insert.
      case_decide; [|by rewrite lookup_empty]. cbn. intros [= <-]. by rewrite lookup_empty.
  - rewrite lookup_insert_eq. eauto.
Qed.

Lemma store_ok_from_dict clk data st : from_dict clk data = Ok st -> store_ok st.
Proof.
  unfold from_dict. destruct data as [|[root_name root_data] rest]; [done|].
  destruct (_construct_node root_name root_data None (VirtualFileSystem_init clk))
    as [[r|e] st1] eqn:E; [|done].
  destruct (constructs_ok_all root_data _ _ _ _ _ (store_ok_init clk) E)
    as (Hok & _ & _ & Hl & _).
  destruct (_cache_persisted_data _ _ _ _ _); [|done]. intros [= <-].
  split; [apply Hok|]. done.
Qed.

Lemma cache_items_ok f h n current_path :
  heap_ok h n ->
  (forall node p cache, n - node <= f -> is_Some (h !! node) ->
                        is_ok (_cache_persisted_data f h node p cache)) ->
  forall items cache,
    Forall (fun kc => n - snd kc <= f /\ is_Some (h !! snd kc)) items ->
    is_ok (cache_items (_cache_persisted_data f h) current_path items cache).
Proof.
  intros Hh IH items. induction items as [|[k c] items IHi]; intros cache Hall; [done|].
  apply Forall_cons in Hall as [[H1 H2] Hall]. cbn [cache_items].
  specialize (IH c (child_path current_path k) cache H1 H2).
  destruct (_cache_persisted_data f h c _ cache); [|done]. by apply IHi.
Qed.

Lemma cache_persisted_data_ok h n :
  heap_ok h n ->
  forall fuel node p cache,
    n - node <= fuel -> is_Some (h !! node) ->
    is_ok (_cache_persisted_data fuel h node p cache).
Proof.
  intros Hh. induction fuel as [|f IH]; intros node p cache Hfuel [x Hx].
  - destruct Hh as [Hb _]. apply Hb in Hx. lia.
  - cbn [_cache_persisted_data]. destruct (children_of h node) as [ch|] eqn:Hch; [|done].
    apply (cache_items_ok f h n); [done|done|].
    apply Forall_forall. intros [k c] Hin%elem_of_map_to_list.
    destruct Hh as [Hb Hc]. destruct (Hc _ _ _ _ Hch Hin). cbn. split; [lia|done].
Qed.

(** [from_dict] raises only what [_construct_node] raises: the pass that
    fills the cache always returns *)
Lemma from_dict_raises clk root_name root_data rest e :
  from_dict clk ((root_name, root_data) :: rest) = Raise e ->
  fst (_construct_node root_name root_data None (VirtualFileSystem_init clk)) = Raise e.
Proof.
  unfold from_dict.
  destruct (_construct_node root_name root_data None (VirtualFileSystem_init clk))
    as [[r|e'] st1] eqn:E; [|by intros [= <-]].
  destruct (constructs_ok_all root_data _ _ _ _ _ (store_ok_init clk) E)
    as (Hok & _ & _ & Hl & _).
  pose proof (cache_persisted_data_ok _ _ (proj1 Hok) (next_id st1) r "/"
                (traversal_cache st1) ltac:(lia) Hl) as H.
  cbn [with_root next_id heap traversal_cache].
  by destruct (_cache_persisted_data _ _ _ _ _).
Qed.

(** every reachable state has the shape [store_ok] *)
Theorem reachable_store_ok esc st : reachable esc st -> store_ok st.
Proof.
  induction 1 as [clk|clk data st H|c st _ IH].
  - apply store_ok_init.
  - by apply (store_ok_from_dict clk data).
  - destruct c; cbn [exec].
    + by apply store_ok_create_file.
    + by apply store_ok_create_directory.
    + by apply store_ok_write_file.
    + by apply store_ok_read_file.
    + by apply store_ok_delete.
    + by apply store_ok_rename.
Qed.


(** ** Paths without a separator *)

(** C3. The leaf name is searched in the path as given, not in the
    normalised one: on the empty path, which has no separator to find,
    [create_directory], [create_file], [delete] and [rename] raise
    AttributeError in every state; so does any path without a separator, as
    ["notes.txt"] on a new file system. *)
Theorem empty_path_raises (escaped_template : string -> outcome string)
    (content : list byte) (new_name : string) (st : VirtualFileSystem) :
  create_directory "" st = (Raise AttributeError, st)
  /\ create_file "" content st = (Raise AttributeError, st)
  /\ delete "" st = (Raise AttributeError, st)
  /\ rename escaped_template "" new_name st = (Raise AttributeError, st)
  /\ fst (write_file "notes.txt" content fresh_vfs) = Raise AttributeError.
Proof. repeat split; reflexivity. Qed.

(** ** Writing to a file that exists *)

(** C6. When [path] resolves to a file, [write_file] succeeds and every
    other node of the store, the containing directory among them, is left as
    it was: its modified time is not touched. *)
Theorem write_file_existing_touches_only_the_file path content st file st1 :
  _get_node_object_by_path path st = (Some file, st1) ->
  is_Some (content_of (heap st1) file) ->
  let r := write_file path content st in
  fst r = Ok true
  /\ forall d, d <> file -> heap (snd r) !! d = heap st !! d.
Proof.
  intros Hres [c Hc]. unfold write_file. rewrite Hres, Hc. simpl. split; [done|].
  intros d Hne.
  pose proof (resolve_frame path st) as H. simpl in H. rewrite Hres in H. simpl in H.
  destruct H as (Hh & _).
  unfold FileNode_write, update_timestamp_metadata, with_heap. simpl.
  rewrite !lookup_alter_ne by done. by rewrite Hh.
Qed.

Lemma write_file_existing_touches_only_the_file_witness :
  _get_node_object_by_path "/f" tree_f = (Some 1, tree_f)
  /\ is_Some (content_of (heap tree_f) 1)
  /\ fst (write_file "/f" ["y"%byte] tree_f) = Ok true
  /\ (modified <$> heap (snd (write_file "/f" ["y"%byte] tree_f)) !! 0) = Some 2
  /\ (modified <$> heap tree_f !! 0) = Some 2
  /\ clock tree_f = 3.
Proof.
  assert (H1 : _get_node_object_by_path "/f" tree_f = (Some 1, tree_f))
    by (vm_compute; reflexivity).
  assert (H2 : is_Some (content_of (heap tree_f) 1))
    by (vm_compute; eexists; reflexivity).
  destruct (write_file_existing_touches_only_the_file "/f" ["y"%byte] tree_f 1 tree_f H1 H2)
    as [Hok Hframe].
  split; [exact H1|]. split; [exact H2|]. split; [exact Hok|].
  split; [|split]; [|vm_compute; reflexivity..].
  rewrite (Hframe 0) by lia. vm_compute. reflexivity.
Defined.

(** ** A trailing separator *)

(** C4. After [create_directory("/a")], [delete("/a/")] reports success, but
    the leaf name taken from the path as given is empty: nothing is removed
    from the root, and [/a/] resolves as before. *)
Theorem delete_with_trailing_separator_removes_nothing :
  let r := delete "/a/" tree_a in
  get_child (heap tree_a) (root tree_a) "a" = Some 1
  /\ fst r = Ok true
  /\ get_child (heap (snd r)) (root (snd r)) "a" = Some 1
  /\ fst (_get_node_object_by_path "/a/" (snd r)) = Some 1
  /\ fst (_get_node_object_by_path "/a" (snd r)) = Some 1.
Proof. vm_compute. repeat split; reflexivity. Qed.

(** ** Renaming onto a sibling *)

(** C5. With [/a] and [/b] in the root, [rename("/a", "b")] succeeds and
    the root then has the single child [b], the node that was [/a]: the
    sibling [b] and its node are gone from the tree. *)
Theorem rename_onto_sibling_replaces_it (escaped_template : string -> outcome string) :
  let r := rename escaped_template "/a" "b" tree_a_b in
  children_of (heap tree_a_b) (root tree_a_b) = Some {[ "a" := 1; "b" := 2 ]}
  /\ fst r = Ok true
  /\ children_of (heap (snd r)) (root (snd r)) = Some {[ "b" := 1 ]}
  /\ fst (_get_node_object_by_path "/b" (snd r)) = Some 1.
Proof. vm_compute. repeat split; reflexivity. Qed.

(** ** Doubled separators *)

Lemma persisted_a_file_eq : file_system_status tree_a_file = Ok persisted_a_file.
Proof. vm_compute. reflexivity. Qed.

Lemma reloaded_a_file_eq :
  from_dict (clock tree_a_file) persisted_a_file = Ok reloaded_a_file.
Proof. vm_compute. reflexivity. Qed.

(** C8. The tree [/a/b] is serialised and read back: [_cache_persisted_data]
    has put the file under the key ["/a//b"], so that path, which has an empty
    segment, resolves and [read_file] returns the content. Without
    [from_dict] too: [create_file("/a//b")] succeeds under [/a], and the path
    then reads back. *)
Theorem doubled_separator_resolves :
  file_system_status tree_a_file = Ok persisted_a_file
  /\ from_dict (clock tree_a_file) persisted_a_file = Ok reloaded_a_file
  /\ fst (_get_node_object_by_path "/a//b" reloaded_a_file) = Some 3
  /\ fst (read_file "/a//b" reloaded_a_file) = Some ["h"%byte; "i"%byte]
  /\ (let r := create_file "/a//b" ["h"%byte; "i"%byte] tree_a in
      fst r = Ok true
      /\ fst (read_file "/a//b" (snd r)) = Some ["h"%byte; "i"%byte]).
Proof. vm_compute. repeat split; reflexivity. Qed.

(** ** The cache after a reload *)

(** C1. The file system read back from the serialised tree [/a/b] is
    reachable, and its cache is not coherent: the key ["/a//b"] is cached for
    the file while a walk of that path finds nothing. Nor is the cache
    coherent after the single call [create_directory("/a/")], which caches
    ["/a"] for a child it has filed under the empty name. *)
Theorem reachable_cache_not_coherent (escaped_template : string -> outcome string) :
  (reachable escaped_template reloaded_a_file /\ ~ cache_coherent reloaded_a_file)
  /\ (reachable escaped_template (exec escaped_template (CreateDirectory "/a/") fresh_vfs)
      /\ ~ cache_coherent (exec escaped_template (CreateDirectory "/a/") fresh_vfs)).
Proof.
  split; split.
  - apply (reachable_from_dict _ (clock tree_a_file) persisted_a_file).
    apply reloaded_a_file_eq.
  - intros H. specialize (H "/a//b" 3). vm_compute in H.
    specialize (H eq_refl). discriminate.
  - apply reachable_call, reachable_init.
  - intros H. specialize (H "/a" 1). vm_compute in H.
    specialize (H eq_refl). discriminate.
Qed.

(** ** The modified time of a directory after a reload *)

(** C2. The tree [/a] serialises to [persisted_a], where the root has the
    modified time 2. Read back at any later time [clk], the root has the name
    and the created time it had and the modified time [3 + clk], the time at
    which [add_child] put [a] back into it. *)
Theorem reload_changes_modified_of_directory (clk : nat) :
  file_system_status tree_a = Ok persisted_a
  /\ (modified <$> heap tree_a !! root tree_a) = Some 2
  /\ exists st,
       from_dict clk persisted_a = Ok st
       /\ (name <$> heap st !! root st) = (name <$> heap tree_a !! root tree_a)
       /\ (created <$> heap st !! root st) = (created <$> heap tree_a !! root tree_a)
       /\ (modified <$> heap st !! root st) = Some (3 + clk)
       /\ (modified <$> heap st !! root st) <> (modified <$> heap tree_a !! root tree_a).
Proof.
  split; [vm_compute; reflexivity|]. split; [vm_compute; reflexivity|].
  eexists. split; [vm_compute; reflexivity|].
  vm_compute. split; [reflexivity|]. split; [reflexivity|].
  split; [reflexivity|]. intros H. discriminate H.
Qed.

(** ** Valid paths *)

Section ValidPaths.
Import Str Re.

Lemma plain_char_spec c :
  plain_char c = true -> Ascii.eqb c slash = false /\ Ascii.eqb c newline = false.
Proof. unfold plain_char. destruct (Ascii.eqb c slash), (Ascii.eqb c newline); auto. Qed.

Lemma plain_cons c w : plain (String c w) = true -> plain_char c = true /\ plain w = true.
Proof. simpl. apply andb_prop. Qed.

Lemma app_nil (t : string) : "" +:+ t = t.
Proof. reflexivity. Qed.

Lemma app_cons c (s t : string) : String c s +:+ t = String c (s +:+ t).
Proof. reflexivity. Qed.

Lemma app_empty_r (s : string) : s +:+ "" = s.
Proof. induction s as [|c s IH]; [done|]. by rewrite app_cons, IH. Qed.

Lemma app_assoc_str (a b c : string) : (a +:+ b) +:+ c = a +:+ (b +:+ c).
Proof. induction a as [|x a IH]; [done|]. by rewrite !app_cons, IH. Qed.

Lemma dotstar_slash_plain w t : plain w = true -> dotstar_slash (w +:+ t) = dotstar_slash t.
Proof.
  induction w as [|c w IH]; [done|]. intros [Hc Hw]%plain_cons.
  destruct (plain_char_spec c Hc) as [H1 H2]. rewrite app_cons. simpl. rewrite H1, H2. auto.
Qed.

Lemma parent_match_at_plain w t :
  plain w = true ->
  parent_match_at (w +:+ t) = option_map (String.append w) (parent_match_at t).
Proof.
  induction w as [|c w IH]; intros Hp.
  - rewrite app_nil. by destruct (parent_match_at t).
  - apply plain_cons in Hp as [Hc Hw]. destruct (plain_char_spec c Hc) as [H1 H2].
    rewrite app_cons. simpl. rewrite H2, (IH Hw). destruct (parent_match_at t); simpl; [done|].
    by rewrite H1.
Qed.

Lemma valid_segment_spec s : valid_segment s = true -> s <> "" /\ plain s = true.
Proof.
  unfold valid_segment. intros [H1 H2]%andb_prop. split; [|done].
  intros ->. done.
Qed.

Lemma path_of_cons s r : path_of (s :: r) = String slash (s +:+ path_of r).
Proof. reflexivity. Qed.

Lemma path_of_app a b : path_of (a ++ b) = path_of a +:+ path_of b.
Proof.
  induction a as [|s a IH]; [done|].
  rewrite <- app_comm_cons, !path_of_cons, IH, app_cons. by rewrite app_assoc_str.
Qed.

Lemma parent_match_at_slash t :
  parent_match_at (String slash t) =
  match parent_match_at t with
  | Some m => Some (String slash m)
  | None => if negb (dotstar_slash t) then Some "" else None
  end.
Proof. reflexivity. Qed.

Lemma parent_match_at_last nm :
  plain nm = true -> parent_match_at (String slash nm) = Some "".
Proof.
  intros Hp. rewrite parent_match_at_slash.
  rewrite <- (app_empty_r nm), parent_match_at_plain, dotstar_slash_plain by done.
  done.
Qed.

Lemma parent_match_at_path segs nm :
  Forall (fun s => valid_segment s = true) (segs ++ [nm]) ->
  parent_match_at (path_of (segs ++ [nm])) = Some (path_of segs).
Proof.
  induction segs as [|s segs IH]; intros Hv.
  - apply Forall_inv in Hv. apply valid_segment_spec in Hv as [_ Hp].
    rewrite app_nil_l, path_of_cons. change (path_of []) with "".
    rewrite app_empty_r. by apply parent_match_at_last.
  - rewrite <- app_comm_cons in *.
    inversion Hv as [|? ? Hs Hv']; subst. apply valid_segment_spec in Hs as [_ Hp].
    rewrite !path_of_cons, parent_match_at_slash, parent_match_at_plain, (IH Hv') by done.
    done.
Qed.

Lemma search_parent_path segs nm :
  Forall (fun s => valid_segment s = true) (segs ++ [nm]) ->
  search_parent (path_of (segs ++ [nm])) = Some (path_of segs).
Proof.
  intros Hv. pose proof (parent_match_at_path segs nm Hv) as H.
  destruct (path_of (segs ++ [nm])); simpl in *; by rewrite H.
Qed.

Lemma dotstar_end_plain nm : plain nm = true -> dotstar_end nm = Some nm.
Proof.
  induction nm as [|c w IH]; [done|]. intros [Hc Hw]%plain_cons.
  destruct (plain_char_spec c Hc) as [H1 H2]. simpl. by rewrite H2, (IH Hw).
Qed.

Lemma search_name_plain w t : plain w = true -> search_name (w +:+ t) = search_name t.
Proof.
  induction w as [|c w IH]; [done|]. intros [Hc Hw]%plain_cons.
  destruct (plain_char_spec c Hc) as [H1 H2]. rewrite app_cons.
  simpl. rewrite H1. simpl. auto.
Qed.

Lemma search_name_path segs nm :
  Forall (fun s => valid_segment s = true) (segs ++ [nm]) ->
  search_name (path_of (segs ++ [nm])) = Some (String slash nm).
Proof.
  induction segs as [|s segs IH]; intros Hv.
  - apply Forall_inv in Hv. apply valid_segment_spec in Hv as [_ Hp].
    rewrite app_nil_l, path_of_cons. change (path_of []) with "".
    rewrite app_empty_r. simpl.
    rewrite <- (app_empty_r nm) at 1. rewrite dotstar_slash_plain by done. simpl.
    by rewrite dotstar_end_plain.
  - rewrite <- app_comm_cons in *.
    inversion Hv as [|? ? Hs Hv']; subst. apply valid_segment_spec in Hs as [_ Hp].
    rewrite path_of_cons.
    assert (Hd : dotstar_slash (s +:+ path_of (segs ++ [nm])) = true).
    { rewrite dotstar_slash_plain by done. by destruct segs. }
    cbn [search_name name_match_at]. change (Ascii.eqb slash slash) with true.
    rewrite Hd. cbn [negb andb]. rewrite search_name_plain by done. auto.
Qed.

Lemma remove_slashes_plain nm : plain nm = true -> remove_slashes nm = nm.
Proof.
  induction nm as [|c w IH]; [done|]. intros [Hc Hw]%plain_cons.
  destruct (plain_char_spec c Hc) as [H1 H2]. simpl. by rewrite H1, (IH Hw).
Qed.

Lemma endswith_slash_app a b : b <> "" -> endswith_slash (a +:+ b) = endswith_slash b.
Proof.
  intros Hb. induction a as [|c a IH]; [done|].
  rewrite app_cons. simpl. rewrite IH. destruct (a +:+ b) eqn:E; [|done].
  destruct a, b; done.
Qed.

Lemma endswith_slash_plain w : plain w = true -> endswith_slash w = false.
Proof.
  induction w as [|c w IH]; [done|]. intros [Hc Hw]%plain_cons.
  destruct (plain_char_spec c Hc) as [H1 H2]. simpl. rewrite (IH Hw), H1. by destruct w.
Qed.

Lemma endswith_slash_path segs nm :
  valid_segment nm = true -> endswith_slash (path_of (segs ++ [nm])) = false.
Proof.
  intros [Hne Hp]%valid_segment_spec.
  rewrite path_of_app, path_of_cons. change (path_of []) with "". rewrite app_empty_r.
  rewrite endswith_slash_app by done. simpl.
  rewrite endswith_slash_plain by done. by destruct nm.
Qed.

Lemma path_of_nonroot segs nm :
  valid_segment nm = true -> String.eqb (path_of (segs ++ [nm])) "/" = false.
Proof.
  intros [Hne Hp]%valid_segment_spec. apply String.eqb_neq.
  destruct segs as [|s segs].
  - rewrite app_nil_l, path_of_cons. change (path_of []) with "". rewrite app_empty_r.
    intros [=]. done.
  - rewrite <- app_comm_cons, path_of_cons, path_of_app, path_of_cons.
    intros [= H]. destruct s; [|done]. rewrite app_nil in H. by destruct segs.
Qed.

Lemma normalize_slash p :
  String.eqb (String slash p) "/" = false -> endswith_slash (String slash p) = false ->
  _normalize_path (String slash p) = String slash p.
Proof.
  intros Hr He. unfold _normalize_path.
  change (String.eqb (String slash p) "") with false. cbv iota.
  assert (startswith (String slash p) "/" = true) as -> by (by destruct p).
  by rewrite Hr, He.
Qed.

Lemma path_of_head segs nm : exists p, path_of (segs ++ [nm]) = String slash p.
Proof. destruct segs; eexists; [rewrite app_nil_l|rewrite <- app_comm_cons]; apply path_of_cons. Qed.

Lemma normalize_path_of segs nm :
  valid_segment nm = true ->
  _normalize_path (path_of (segs ++ [nm])) = path_of (segs ++ [nm]).
Proof.
  intros Hv.
  pose proof (path_of_nonroot segs nm Hv) as Hr.
  pose proof (endswith_slash_path segs nm Hv) as He.
  destruct (path_of_head segs nm) as [p E]. rewrite E in *.
  by apply normalize_slash.
Qed.

Lemma segs_snoc (segs : list string) :
  segs = [] \/ exists (segs' : list string) (l : string), segs = (segs' ++ [l])%list.
Proof. destruct segs as [|x l] using rev_ind; eauto. Qed.

Lemma parent_path_differs segs nm :
  Forall (fun s => valid_segment s = true) (segs ++ [nm]) ->
  _normalize_path (path_of segs) <> path_of (segs ++ [nm]).
Proof.
  intros Hv. apply Forall_app in Hv as [Hs Hn]. apply Forall_inv in Hn.
  destruct (valid_segment_spec nm Hn) as [Hne Hp].
  destruct (segs_snoc segs) as [->|(segs' & l & ->)].
  - rewrite app_nil_l, path_of_cons. change (path_of []) with "".
    rewrite app_empty_r. cbn. intros [=]. done.
  - apply Forall_app in Hs as [_ Hl]. apply Forall_inv in Hl.
    rewrite (normalize_path_of _ _ Hl).
    rewrite (path_of_app (segs' ++ [l]) [nm]).
    rewrite <- (app_empty_r (path_of (segs' ++ [l]))) at 1.
    intros H%(inj (String.app _)). done.
Qed.

Lemma resolve_hit p st d :
  traversal_cache st !! _normalize_path p = Some d ->
  _get_node_object_by_path p st = (Some d, st).
Proof. intros H. unfold _get_node_object_by_path. by rewrite H. Qed.

Lemma resolve_root p st :
  traversal_cache st !! _normalize_path p = None ->
  String.eqb (_normalize_path p) "/" = true ->
  _get_node_object_by_path p st = (Some (root st), st).
Proof. intros H1 H2. unfold _get_node_object_by_path. by rewrite H1, H2. Qed.

Lemma resolve_again p st d st1 :
  _get_node_object_by_path p st = (Some d, st1) ->
  traversal_cache st1 !! _normalize_path p = Some d
  \/ (traversal_cache st1 !! _normalize_path p = None
      /\ String.eqb (_normalize_path p) "/" = true /\ d = root st1).
Proof.
  unfold _get_node_object_by_path.
  destruct (traversal_cache st !! _normalize_path p) eqn:Hc.
  { intros [= <- <-]. by left. }
  destruct (String.eqb _ _) eqn:He.
  { intros [= <- <-]. by right. }
  destruct (walk _ _ _); [|done].
  intros [= <- <-]. left. simpl. by rewrite lookup_insert_eq.
Qed.

(** the same resolution in a state with the same root whose cache agrees on
    the path *)
Lemma resolve_stable p st d st1 st' :
  _get_node_object_by_path p st = (Some d, st1) ->
  traversal_cache st' !! _normalize_path p = traversal_cache st1 !! _normalize_path p ->
  root st' = root st1 ->
  _get_node_object_by_path p st' = (Some d, st').
Proof.
  intros H Hc Hr. destruct (resolve_again _ _ _ _ H) as [H1|(H1 & H2 & ->)].
  - apply resolve_hit. by rewrite Hc.
  - rewrite <- Hr. apply resolve_root; [by rewrite Hc|done].
Qed.

Lemma parent_and_name_path segs nm st :
  Forall (fun s => valid_segment s = true) (segs ++ [nm]) ->
  _get_parent_directory_and_name (path_of (segs ++ [nm])) st =
  let '(o, st1) := _get_node_object_by_path (path_of segs) st in
  match o with
  | None => (Ok (None, nm), st1)
  | Some p => match children_of (heap st1) p with
              | None => (Ok (None, nm), st1)
              | Some _ => (Ok (Some p, nm), st1)
              end
  end.
Proof.
  intros Hv. pose proof Hv as Hv'. apply Forall_app in Hv' as [_ Hn]. apply Forall_inv in Hn.
  destruct (valid_segment_spec nm Hn) as [Hne Hp].
  unfold _get_parent_directory_and_name.
  rewrite path_of_nonroot, normalize_path_of by done.
  rewrite search_parent_path, search_name_path by done. cbn [group].
  change (remove_slashes (String slash nm)) with (remove_slashes nm).
  by rewrite remove_slashes_plain.
Qed.

(** the store after [parent_dir.add_child(new)] for a node just made *)
Lemma created_node_lookup nm d b st :
  let st' := add_child d (next_id st) (snd (new_node nm (Some d) b st)) in
  d <> next_id st ->
  exists n, heap st' !! next_id st = Some n /\ name n = nm /\ body n = b.
Proof.
  intros st' Hne. subst st'. unfold add_child, new_node. cbn [snd heap].
  rewrite lookup_insert_eq. cbn [name].
  unfold update_timestamp_metadata, with_heap. cbn [heap clock].
  rewrite lookup_alter_ne, lookup_alter_eq, lookup_alter_ne, lookup_insert_eq by done.
  eexists. split; [reflexivity|]. done.
Qed.

Lemma created_node_parent nm d b st ch :
  let st' := add_child d (next_id st) (snd (new_node nm (Some d) b st)) in
  d <> next_id st ->
  children_of (heap st) d = Some ch ->
  children_of (heap st') d = Some (<[nm := next_id st]> ch).
Proof.
  intros st' Hne Hd. subst st'. unfold add_child, new_node. cbn [snd heap].
  rewrite lookup_insert_eq. cbn [name].
  unfold update_timestamp_metadata, with_heap. cbn [heap clock].
  unfold children_of in *.
  rewrite lookup_alter_eq, lookup_alter_ne, lookup_alter_eq, lookup_insert_ne by done.
  destruct (heap st !! d) as [n|]; [|done]. cbn.
  unfold on_children. destruct (body n); [done|]. cbn. by simplify_eq.
Qed.

Lemma created_frame nm d b st :
  let st' := add_child d (next_id st) (snd (new_node nm (Some d) b st)) in
  traversal_cache st' = traversal_cache st /\ root st' = root st.
Proof.
  unfold add_child, new_node. cbn [snd heap]. rewrite lookup_insert_eq. done.
Qed.

(** X27. Let [P] be a path written as its segments, each after one
    separator: segments that are non-empty and hold no separator and no line
    feed, the last one being [nm]. In a state whose
    store has the shape of every reachable one, if the path of the segments
    before [nm] resolves to a directory [d] that has no child [nm], then [create_file(P, content)] succeeds, [P]
    resolves afterwards to the new file node named [nm] with this content and
    its length as size, and a further [create_file] or [create_directory] on
    [P] returns failure and leaves the whole state as it is. The same holds
    for [create_directory(P)], which makes an empty directory. *)
Theorem create_then_resolve_then_refuse
    (segs : list string) (nm : string) (content content' : list byte)
    (st st1 : VirtualFileSystem) (d : nat) (ch : gmap string nat) :
  Forall (fun s => valid_segment s = true) (segs ++ [nm]) ->
  _get_node_object_by_path (path_of segs) st = (Some d, st1) ->
  children_of (heap st1) d = Some ch ->
  ch !! nm = None ->
  store_ok st ->
  let P := path_of (segs ++ [nm]) in
  (exists st2 new,
      create_file P content st = (Ok true, st2)
      /\ _get_node_object_by_path P st2 = (Some new, st2)
      /\ (exists n, heap st2 !! new = Some n /\ name n = nm
                    /\ body n = FileBody content (length content))
      /\ create_file P content' st2 = (Ok false, st2)
      /\ create_directory P st2 = (Ok false, st2))
  /\ (exists st2 new,
      create_directory P st = (Ok true, st2)
      /\ _get_node_object_by_path P st2 = (Some new, st2)
      /\ (exists n, heap st2 !! new = Some n /\ name n = nm /\ body n = DirBody ∅)
      /\ create_file P content' st2 = (Ok false, st2)
      /\ create_directory P st2 = (Ok false, st2)).
Proof.
  intros Hv Hres Hd Hfree Hok P.
  pose proof Hv as Hv'. apply Forall_app in Hv' as [_ Hn]. apply Forall_inv in Hn.
  pose proof (resolve_frame (path_of segs) st) as Hfr. rewrite Hres in Hfr.
  cbn [fst snd] in Hfr. destruct Hfr as (Hh & Hnx & Hck & Hrt & Hcs).
  assert (Hlt : d < next_id st).
  { apply store_ok_live_lt; [done|]. rewrite <- Hh, Hd. eauto. }
  assert (Hne : d <> next_id st1) by lia.
  assert (Hpn : _get_parent_directory_and_name P st = (Ok (Some d, nm), st1)).
  { unfold P. rewrite parent_and_name_path, Hres, Hd by done. done. }
  assert (Hgc : get_child (heap st1) d nm = None).
  { unfold get_child. by rewrite Hd. }
  assert (Hkey : forall b,
    let st3 := add_child d (next_id st1) (snd (new_node nm (Some d) b st1)) in
    let st2 := with_cache (<[_normalize_path P := next_id st1]> (traversal_cache st3)) st3 in
    _get_node_object_by_path P st2 = (Some (next_id st1), st2)
    /\ (exists n, heap st2 !! next_id st1 = Some n /\ name n = nm /\ body n = b)
    /\ create_file P content' st2 = (Ok false, st2)
    /\ create_directory P st2 = (Ok false, st2)).
  { intros b st3 st2.
    destruct (created_frame nm d b st1) as [Hc3 Hr3]. fold st3 in Hc3, Hr3.
    assert (Hpn2 : _get_parent_directory_and_name P st2 = (Ok (Some d, nm), st2)).
    { unfold P. rewrite parent_and_name_path by done.
      rewrite (resolve_stable _ _ _ _ st2 Hres).
      - change (heap st2) with (heap st3). unfold st3.
        by rewrite (created_node_parent nm d b st1 ch Hne Hd).
      - subst st2. cbn [traversal_cache with_cache]. rewrite Hc3. unfold P.
        rewrite normalize_path_of by done.
        rewrite lookup_insert_ne; [done|]. intros E. symmetry in E. revert E.
        by apply parent_path_differs.
      - done. }
    assert (Hgc2 : get_child (heap st2) d nm = Some (next_id st1)).
    { change (heap st2) with (heap st3). unfold get_child, st3.
      rewrite (created_node_parent nm d b st1 ch Hne Hd). by rewrite lookup_insert_eq. }
    split; [|split; [|split]].
    - apply resolve_hit. subst st2. cbn. by rewrite lookup_insert_eq.
    - change (heap st2) with (heap st3). by apply created_node_lookup.
    - unfold create_file. by rewrite Hpn2, Hgc2.
    - unfold create_directory. by rewrite Hpn2, Hgc2. }
  split.
  - specialize (Hkey (FileBody content (length content))). cbv zeta in Hkey.
    eexists _, (next_id st1). split; [|exact Hkey].
    unfold create_file. rewrite Hpn, Hgc. reflexivity.
  - specialize (Hkey (DirBody ∅)). cbv zeta in Hkey.
    eexists _, (next_id st1). split; [|exact Hkey].
    unfold create_directory. rewrite Hpn, Hgc. reflexivity.
Qed.

Lemma create_then_resolve_then_refuse_witness :
  Forall (fun s => valid_segment s = true) (["a"] ++ ["b"])
  /\ _get_node_object_by_path (path_of ["a"]) tree_a = (Some 1, tree_a)
  /\ children_of (heap tree_a) 1 = Some ∅
  /\ (∅ : gmap string nat) !! "b" = None
  /\ store_ok tree_a
  /\ exists st2 new,
       create_file "/a/b" ["h"%byte; "i"%byte] tree_a = (Ok true, st2)
       /\ _get_node_object_by_path "/a/b" st2 = (Some new, st2)
       /\ (exists n, heap st2 !! new = Some n /\ name n = "b"
                     /\ body n = FileBody ["h"%byte; "i"%byte] 2)
       /\ create_file "/a/b" [] st2 = (Ok false, st2)
       /\ create_directory "/a/b" st2 = (Ok false, st2).
Proof.
  assert (H1 : Forall (fun s => valid_segment s = true) (["a"] ++ ["b"]))
    by (repeat constructor).
  assert (H2 : _get_node_object_by_path (path_of ["a"]) tree_a = (Some 1, tree_a))
    by (vm_compute; reflexivity).
  assert (H3 : children_of (heap tree_a) 1 = Some ∅) by (vm_compute; reflexivity).
  assert (H4 : (∅ : gmap string nat) !! "b" = None) by reflexivity.
  assert (H5 : store_ok tree_a).
  { apply (reachable_store_ok (fun _ => Raise ReError)).
    apply (reachable_call _ (CreateDirectory "/a")), reachable_init. }
  do 5 (split; [assumption|]).
  exact (proj1 (create_then_resolve_then_refuse ["a"] "b" ["h"%byte; "i"%byte] []
                  tree_a tree_a 1 ∅ H1 H2 H3 H4 H5)).
Defined.

(** C7. A path is normalised before it is resolved, but the leaf name is
    taken from the path as given. On a new file system ["notes.txt"] stands
    for the free path [/notes.txt] in the root directory, yet [create_file]
    and [create_directory] raise AttributeError instead of creating it.
    [create_directory("/x/")] succeeds but files the new directory under the
    empty name; [/y/] is then free in the root directory as well, yet
    [create_directory] and [create_file] on it return failure, because the
    empty name is taken. *)
Theorem create_on_free_path_fails (content : list byte) :
  let st := snd (create_directory "/x/" fresh_vfs) in
  (_normalize_path "notes.txt" = "/notes.txt"
   /\ fst (_get_node_object_by_path "notes.txt" fresh_vfs) = None
   /\ fst (_get_node_object_by_path "/" fresh_vfs) = Some (root fresh_vfs)
   /\ children_of (heap fresh_vfs) (root fresh_vfs) = Some ∅
   /\ create_file "notes.txt" content fresh_vfs = (Raise AttributeError, fresh_vfs)
   /\ create_directory "notes.txt" fresh_vfs = (Raise AttributeError, fresh_vfs))
  /\ (fst (create_directory "/x/" fresh_vfs) = Ok true
      /\ children_of (heap st) (root st) = Some {[ "" := 1 ]}
      /\ _normalize_path "/y/" = "/y"
      /\ fst (_get_node_object_by_path "/y/" st) = None
      /\ fst (_get_node_object_by_path "/" st) = Some (root st)
      /\ fst (create_directory "/y/" st) = Ok false
      /\ fst (create_file "/y/" content st) = Ok false
      /\ fst (_get_node_object_by_path "/y/" (snd (create_directory "/y/" st))) = None).
Proof. vm_compute. repeat split; reflexivity. Qed.

End ValidPaths.

(** ** Runs with valid arguments *)

Section TidyStates.
Import Str Re.

Lemma path_of_tail_like qs : tail_like (path_of qs).
Proof. destruct qs; [by left|right]. eexists. apply path_of_cons. Qed.

Lemma plain_app_inj s t x y :
  plain s = true -> plain t = true -> tail_like x -> tail_like y ->
  s +:+ x = t +:+ y -> s = t /\ x = y.
Proof.
  revert t. induction s as [|c s IH]; intros [|c' t] Hs Ht Hx Hy; rewrite ?app_nil, ?app_cons.
  - done.
  - apply plain_cons in Ht as [Hc _]. destruct (plain_char_spec _ Hc) as [Hc1 _].
    destruct Hx as [->|[x' ->]]; [done|]. intros [= <- _]. by rewrite Ascii.eqb_refl in Hc1.
  - apply plain_cons in Hs as [Hc _]. destruct (plain_char_spec _ Hc) as [Hc1 _].
    destruct Hy as [->|[y' ->]]; [done|]. intros [= -> _]. by rewrite Ascii.eqb_refl in Hc1.
  - apply plain_cons in Hs as [_ Hs]. apply plain_cons in Ht as [_ Ht].
    intros [= -> H]. destruct (IH t Hs Ht Hx Hy H) as [-> ->]. done.
Qed.

Lemma path_of_inj a b :
  valid_segs a -> valid_segs b -> path_of a = path_of b -> a = b.
Proof.
  revert b. induction a as [|s a IH]; intros [|t b] Ha Hb; [done|done|done|].
  apply Forall_cons in Ha as [[_ Hs]%valid_segment_spec Ha].
  apply Forall_cons in Hb as [[_ Ht]%valid_segment_spec Hb].
  rewrite !path_of_cons. intros [= H].
  destruct (plain_app_inj _ _ _ _ Hs Ht (path_of_tail_like a) (path_of_tail_like b) H)
    as [-> H']. f_equal. by apply IH.
Qed.

Lemma rstrip_slash_id w : endswith_slash w = false -> rstrip_slash w = w.
Proof.
  induction w as [|c w IH]; [done|]. cbn [endswith_slash rstrip_slash].
  destruct w as [|c' w'].
  - intros ->. done.
  - intros H. rewrite (IH H). done.
Qed.

Lemma split_slash_plain s : plain s = true -> split_slash s = [s].
Proof.
  induction s as [|c s IH]; [done|]. intros [Hc Hs]%plain_cons.
  destruct (plain_char_spec _ Hc) as [H1 _]. cbn [split_slash]. by rewrite H1, (IH Hs).
Qed.

Lemma split_slash_app s r :
  plain s = true -> split_slash (s +:+ String slash r) = s :: split_slash r.
Proof.
  induction s as [|c s IH]; intros Hp.
  - rewrite app_nil. cbn [split_slash]. by rewrite Ascii.eqb_refl.
  - apply plain_cons in Hp as [Hc Hs]. destruct (plain_char_spec _ Hc) as [H1 _].
    rewrite app_cons. cbn [split_slash]. by rewrite H1, (IH Hs).
Qed.

(** the segments of a path, as [_get_node_object_by_path] splits them *)
Lemma split_path_of_tail s qs :
  valid_segs (s :: qs) -> split_slash (s +:+ path_of qs) = s :: qs.
Proof.
  revert s. induction qs as [|t qs IH]; intros s Hv;
    apply Forall_cons in Hv as [[_ Hs]%valid_segment_spec Hv].
  - change (path_of []) with "". rewrite app_empty_r. by apply split_slash_plain.
  - rewrite path_of_cons, split_slash_app by done. f_equal. by apply IH.
Qed.

Lemma path_of_snoc_view (qs : list string) :
  qs <> [] -> exists (ps : list string) (nm : string), qs = (ps ++ [nm])%list.
Proof. intros H. destruct (segs_snoc qs) as [->|?]; [done|eauto]. Qed.

Lemma split_strip_path_of qs :
  valid_segs qs -> qs <> [] -> split_slash (strip_slash (path_of qs)) = qs.
Proof.
  intros Hv Hne. unfold strip_slash.
  destruct (path_of_snoc_view qs Hne) as (ps & nm & E).
  assert (Hnm : valid_segment nm = true).
  { subst qs. apply Forall_app in Hv as [_ H]. by apply Forall_inv in H. }
  pose proof (endswith_slash_path ps nm Hnm) as Hend. rewrite <- E in Hend.
  destruct qs as [|s qs]; [done|]. clear E Hne.
  pose proof Hv as Hv'. apply Forall_cons in Hv' as [[Hs Hp]%valid_segment_spec _].
  rewrite path_of_cons in *.
  assert (Hl : lstrip_slash (String slash (s +:+ path_of qs)) = s +:+ path_of qs).
  { cbn [lstrip_slash]. rewrite Ascii.eqb_refl. destruct s as [|c s]; [done|].
    apply plain_cons in Hp as [Hc _]. destruct (plain_char_spec _ Hc) as [H1 _].
    rewrite app_cons. cbn [lstrip_slash]. by rewrite H1. }
  rewrite Hl. rewrite rstrip_slash_id.
  - by apply split_path_of_tail.
  - cbn [endswith_slash] in Hend. destruct (s +:+ path_of qs) eqn:E; [|done].
    destruct s; [done|]. by rewrite app_cons in E.
Qed.

Lemma normalize_valid qs :
  valid_segs qs -> qs <> [] -> _normalize_path (path_of qs) = path_of qs.
Proof.
  intros Hv Hne. destruct (path_of_snoc_view qs Hne) as (ps & nm & ->).
  apply normalize_path_of. apply Forall_app in Hv as [_ H]. by apply Forall_inv in H.
Qed.

Lemma path_of_not_root qs : valid_segs qs -> qs <> [] -> path_of qs <> "/".
Proof.
  intros Hv Hne. destruct (path_of_snoc_view qs Hne) as (ps & nm & ->).
  apply String.eqb_neq, path_of_nonroot. apply Forall_app in Hv as [_ H]. by apply Forall_inv in H.
Qed.

Lemma prefix_app a b c : String.prefix (a +:+ b) (a +:+ c) = String.prefix b c.
Proof.
  induction a as [|x a IH]; [done|]. rewrite !app_cons. cbn [String.prefix].
  destruct (ascii_dec x x); [done|done].
Qed.

Lemma changed_below ps r :
  changed (path_of ps) (path_of (ps ++ r)) = true.
Proof.
  unfold changed, startswith. destruct r as [|s r].
  - by rewrite app_nil_r, String.eqb_refl.
  - rewrite path_of_app, path_of_cons.
    rewrite <- (app_empty_r (path_of ps)) at 3.
    rewrite app_assoc_str.
    rewrite prefix_app. rewrite app_nil. cbn [String.prefix].
    destruct (ascii_dec "/" slash); [|done].
    rewrite orb_true_iff. right. by destruct (s +:+ path_of r).
Qed.

Lemma sub_go_skip repl s : plain s = true -> sub_go repl true s = "".
Proof.
  induction s as [|c s IH]; [done|]. intros [Hc Hs]%plain_cons.
  destruct (plain_char_spec _ Hc) as [_ H2]. cbn [sub_go]. by rewrite H2, IH.
Qed.

Lemma sub_go_plain repl s r :
  plain s = true -> sub_go repl false (s +:+ r) = s +:+ sub_go repl false r.
Proof.
  induction s as [|c s IH]; [done|]. intros [Hc Hs]%plain_cons.
  destruct (plain_char_spec _ Hc) as [H1 _]. rewrite !app_cons. cbn [sub_go].
  by rewrite H1, IH.
Qed.

Lemma sub_last_path segs nm repl :
  valid_segs (segs ++ [nm]) ->
  sub_last repl (path_of (segs ++ [nm])) = path_of segs +:+ repl.
Proof.
  unfold sub_last. induction segs as [|s segs IH]; intros Hv.
  - apply Forall_inv in Hv. apply valid_segment_spec in Hv as [_ Hp].
    rewrite app_nil_l, path_of_cons. change (path_of []) with "". rewrite app_empty_r, app_nil.
    cbn [sub_go]. rewrite Ascii.eqb_refl.
    rewrite <- (app_empty_r nm) at 1. rewrite dotstar_slash_plain by done. cbn.
    by rewrite sub_go_skip, app_empty_r.
  - rewrite <- app_comm_cons in *. apply Forall_cons in Hv as [[_ Hp]%valid_segment_spec Hv].
    rewrite !path_of_cons. cbn [sub_go]. rewrite Ascii.eqb_refl.
    assert (Hd : dotstar_slash (s +:+ path_of (segs ++ [nm])) = true).
    { rewrite dotstar_slash_plain by done. by destruct segs. }
    rewrite Hd. cbn [negb andb]. rewrite sub_go_plain by done. rewrite (IH Hv).
    by rewrite app_cons, app_assoc_str.
Qed.

Local Close Scope string_scope.

(** *** walking *)

Lemma walk_cons h k t x :
  walk h (k :: t) x = if String.eqb k "" then None else get_child h x k ≫= walk h t.
Proof.
  cbn [walk]. destruct (String.eqb k ""); [done|]. unfold get_child.
  destruct (children_of h x) as [ch|]; [|done]. cbn. by destruct (ch !! k).
Qed.

Lemma walk_app h a b x : walk h (a ++ b) x = walk h a x ≫= walk h b.
Proof.
  revert x. induction a as [|k a IH]; intros x; [done|].
  rewrite <- app_comm_cons, !walk_cons. destruct (String.eqb k ""); [done|].
  destruct (get_child h x k); cbn; [apply IH|done].
Qed.

Lemma walk_agree d h h' s y :
  same_kids_except d h h' ->
  (forall i, i < length s -> walk h (take i s) y <> Some d) ->
  walk h' s y = walk h s y.
Proof.
  intros Hsame. revert y. induction s as [|k t IH]; intros y Hoff; [done|].
  rewrite !walk_cons. destruct (String.eqb k "") eqn:Hk; [done|].
  assert (y <> d) as Hy.
  { intros ->. by apply (Hoff 0); [cbn; lia|]. }
  rewrite (Hsame y k Hy). destruct (get_child h y k) as [z|] eqn:Hz; [|done]. cbn.
  apply IH. intros i Hi Hw. apply (Hoff (S i)); [cbn; lia|].
  cbn [take]. by rewrite walk_cons, Hk, Hz.
Qed.

Section OneDirectory.

Variables (h h' : gmap nat Node) (r d : nat) (segs : list string).
Hypothesis Huniq : unique_paths h r.
Hypothesis Hd : walk h segs r = Some d.
Hypothesis Hsame : same_kids_except d h h'.

Lemma visits_parent_once i s :
  walk h (take i s) r = Some d -> take i s = segs.
Proof. intros H. by apply (Huniq _ _ d). Qed.

Lemma walk_off_path (s : list string) :
  (forall t, s <> (segs ++ t)%list) -> walk h' s r = walk h s r.
Proof.
  intros Hoff. apply (walk_agree d); [done|]. intros i Hi Hw.
  apply visits_parent_once in Hw. apply (Hoff (drop i s)).
  by rewrite <- Hw, take_drop.
Qed.

Lemma walk_to_parent : walk h' segs r = Some d.
Proof.
  rewrite <- Hd. apply (walk_agree d); [done|]. intros i Hi Hw.
  apply visits_parent_once in Hw. apply (f_equal length) in Hw.
  rewrite length_take in Hw. lia.
Qed.

Lemma walk_below_child k y t :
  String.eqb k "" = false -> get_child h d k = Some y ->
  walk h' t y = walk h t y.
Proof.
  intros Hk Hy. apply (walk_agree d); [done|]. intros i Hi Hw.
  assert (walk h (segs ++ k :: take i t) r = Some d) as Hloop.
  { rewrite walk_app, Hd. cbn [mbind option_bind]. by rewrite walk_cons, Hk, Hy. }
  apply (Huniq _ segs d) in Hloop; [|done].
  apply (f_equal length) in Hloop. rewrite length_app in Hloop. cbn in Hloop. lia.
Qed.

Lemma walk_through_parent k t :
  walk h' (segs ++ k :: t) r =
  if String.eqb k "" then None else get_child h' d k ≫= walk h' t.
Proof. by rewrite walk_app, walk_to_parent, <- walk_cons. Qed.

Lemma walk_through_parent_old k t :
  walk h (segs ++ k :: t) r =
  if String.eqb k "" then None else get_child h d k ≫= walk h t.
Proof. by rewrite walk_app, Hd, <- walk_cons. Qed.

End OneDirectory.

Lemma prefix_or_not (segs s : list string) :
  (exists t, s = (segs ++ t)%list) \/ (forall t, s <> (segs ++ t)%list).
Proof.
  destruct (decide (take (length segs) s = segs)) as [E|N].
  - left. exists (drop (length segs) s). by rewrite <- E at 1; rewrite take_drop.
  - right. intros t ->. apply N. by rewrite take_app_length.
Qed.

(** *** a child added to, removed from, or renamed in one directory *)

Section AddChild.

Variables (h h' : gmap nat Node) (r d c : nat) (segs : list string) (k : string).
Hypothesis Huniq : unique_paths h r.
Hypothesis Hd : walk h segs r = Some d.
Hypothesis Hsame : same_kids_except d h h'.
Hypothesis Hk : String.eqb k "" = false.
Hypothesis Hnew : forall k', get_child h' d k' = if decide (k' = k) then Some c else get_child h d k'.
Hypothesis Hfree : get_child h d k = None.
Hypothesis Hleaf : forall k', get_child h' c k' = None.
Hypothesis Hfresh : forall s n, walk h s r = Some n -> n <> c.

Lemma walk_add_old s n : walk h s r = Some n -> walk h' s r = Some n.
Proof.
  intros Hw. destruct (prefix_or_not segs s) as [[t ->]|Hoff].
  - destruct t as [|k0 t].
    + rewrite app_nil_r in *. rewrite Hd in Hw. injection Hw as <-.
      by apply (walk_to_parent h h' r d segs).
    + rewrite (walk_through_parent h h' r d segs) by done.
      rewrite (walk_through_parent_old h r d segs) in Hw by done.
      destruct (String.eqb k0 "") eqn:Hk0; [done|]. rewrite Hnew.
      destruct (decide (k0 = k)) as [->|Hne]; [by rewrite Hfree in Hw|].
      destruct (get_child h d k0) as [y|] eqn:Hy; [|done]. cbn in *.
      by rewrite (walk_below_child h h' r d segs Huniq Hd Hsame k0 y t Hk0 Hy).
  - by rewrite (walk_off_path h h' r d segs).
Qed.

Lemma walk_add_new s n :
  walk h' s r = Some n -> walk h s r = Some n \/ (s = (segs ++ [k])%list /\ n = c).
Proof.
  intros Hw. destruct (prefix_or_not segs s) as [[t ->]|Hoff].
  - destruct t as [|k0 t].
    + rewrite app_nil_r in *. left.
      rewrite (walk_to_parent h h' r d segs) in Hw by done. by rewrite Hd.
    + rewrite (walk_through_parent h h' r d segs) in Hw by done.
      rewrite (walk_through_parent_old h r d segs) by done.
      destruct (String.eqb k0 "") eqn:Hk0; [done|]. rewrite Hnew in Hw.
      destruct (decide (k0 = k)) as [->|Hne].
      * right. cbn in Hw. destruct t as [|k1 t]; [by injection Hw as <-|].
        rewrite walk_cons, Hleaf in Hw. by destruct (String.eqb k1 "").
      * left. destruct (get_child h d k0) as [y|] eqn:Hy; [|done]. cbn in *.
        by rewrite <- (walk_below_child h h' r d segs Huniq Hd Hsame k0 y t Hk0 Hy).
  - left. by rewrite <- (walk_off_path h h' r d segs).
Qed.

Lemma walk_add_to_child : walk h' (segs ++ [k]) r = Some c.
Proof.
  rewrite (walk_through_parent h h' r d segs) by done. rewrite Hk, Hnew.
  by destruct (decide (k = k)).
Qed.

Lemma unique_add : unique_paths h' r.
Proof.
  intros s1 s2 n H1 H2.
  destruct (walk_add_new _ _ H1) as [O1|[-> ->]], (walk_add_new _ _ H2) as [O2|[-> E]].
  - by apply (Huniq _ _ n).
  - subst n. by apply Hfresh in O1.
  - by apply Hfresh in O2.
  - done.
Qed.

End AddChild.

Section RemoveChild.

Variables (h h' : gmap nat Node) (r d : nat) (segs : list string) (k : string).
Hypothesis Huniq : unique_paths h r.
Hypothesis Hd : walk h segs r = Some d.
Hypothesis Hsame : same_kids_except d h h'.
Hypothesis Hdel : forall k', get_child h' d k' = if decide (k' = k) then None else get_child h d k'.

Lemma walk_del s : (forall t, s <> (segs ++ k :: t)%list) -> walk h' s r = walk h s r.
Proof.
  intros Hnot. destruct (prefix_or_not segs s) as [[t ->]|Hoff].
  - destruct t as [|k0 t].
    + rewrite app_nil_r in *. by rewrite Hd, (walk_to_parent h h' r d segs).
    + rewrite (walk_through_parent h h' r d segs) by done.
      rewrite (walk_through_parent_old h r d segs) by done.
      destruct (String.eqb k0 "") eqn:Hk0; [done|]. rewrite Hdel.
      destruct (decide (k0 = k)) as [->|Hne]; [by destruct (Hnot t)|].
      destruct (get_child h d k0) as [y|] eqn:Hy; [|done]. cbn.
      by rewrite (walk_below_child h h' r d segs Huniq Hd Hsame k0 y t Hk0 Hy).
  - by rewrite (walk_off_path h h' r d segs).
Qed.

Lemma walk_del_gone t : walk h' (segs ++ k :: t) r = None.
Proof.
  rewrite (walk_through_parent h h' r d segs) by done. rewrite Hdel.
  destruct (String.eqb k ""); [done|]. by destruct (decide (k = k)).
Qed.

Lemma walk_del_sub s n : walk h' s r = Some n -> walk h s r = Some n.
Proof.
  intros Hw. destruct (prefix_or_not (segs ++ [k]) s) as [[t ->]|Hnot].
  - rewrite <- app_assoc in Hw. cbn [app] in Hw. by rewrite walk_del_gone in Hw.
  - rewrite <- walk_del; [done|]. intros t E. apply (Hnot t). by rewrite E, <- app_assoc.
Qed.

Lemma unique_del : unique_paths h' r.
Proof. intros s1 s2 n H1%walk_del_sub H2%walk_del_sub. by apply (Huniq _ _ n). Qed.

End RemoveChild.

Lemma reroute_off segs k k' (s : list string) :
  (forall t, s <> (segs ++ t)%list) -> reroute segs k k' s = s.
Proof.
  intros Hoff. unfold reroute. case_decide as E; [|done].
  destruct (Hoff (drop (length segs) s)). by rewrite <- E at 1; rewrite take_drop.
Qed.

Lemma reroute_at segs k k' x t :
  reroute segs k k' (segs ++ x :: t) =
  if decide (x = k') then segs ++ k :: t
  else if decide (x = k) then segs ++ k' :: t
  else segs ++ x :: t.
Proof.
  unfold reroute. rewrite take_app_length, drop_app_length.
  by destruct (decide (segs = segs)).
Qed.

Lemma reroute_parent segs k k' : reroute segs k k' segs = segs.
Proof.
  unfold reroute. case_decide; [|done]. by rewrite drop_all.
Qed.

Lemma reroute_involutive segs k k' s :
  reroute segs k k' (reroute segs k k' s) = s.
Proof.
  destruct (prefix_or_not segs s) as [[t ->]|Hoff].
  - destruct t as [|x t]; [by rewrite app_nil_r, !reroute_parent|].
    rewrite reroute_at. repeat case_decide; subst; rewrite reroute_at;
      repeat case_decide; by subst.
  - by rewrite !(reroute_off _ _ _ s Hoff).
Qed.

Section RenameChild.

Variables (h h' : gmap nat Node) (r d x : nat) (segs : list string) (k k' : string).
Hypothesis Huniq : unique_paths h r.
Hypothesis Hd : walk h segs r = Some d.
Hypothesis Hsame : same_kids_except d h h'.
Hypothesis Hk : String.eqb k "" = false.
Hypothesis Hk' : String.eqb k' "" = false.
Hypothesis Hx : get_child h d k = Some x.
Hypothesis Hguard : k' = k \/ get_child h d k' = None.
Hypothesis Hren : forall k0,
    get_child h' d k0 =
    if decide (k0 = k') then Some x
    else if decide (k0 = k) then None
    else get_child h d k0.

Lemma walk_ren s : walk h' s r = walk h (reroute segs k k' s) r.
Proof.
  destruct (prefix_or_not segs s) as [[t ->]|Hoff].
  - destruct t as [|k0 t].
    + rewrite app_nil_r, reroute_parent, Hd. by apply (walk_to_parent h h' r d segs).
    + rewrite reroute_at, (walk_through_parent h h' r d segs) by done. rewrite Hren.
      destruct (decide (k0 = k')) as [->|Hne'].
      * rewrite (walk_through_parent_old h r d segs) by done. rewrite Hk, Hk', Hx. cbn.
        by rewrite (walk_below_child h h' r d segs Huniq Hd Hsame k x t Hk Hx).
      * destruct (decide (k0 = k)) as [->|Hne].
        -- rewrite (walk_through_parent_old h r d segs) by done.
           destruct Hguard as [->|Hg]; [done|]. rewrite Hg.
           by destruct (String.eqb k ""), (String.eqb k' "").
        -- rewrite (walk_through_parent_old h r d segs) by done.
           destruct (String.eqb k0 "") eqn:Hk0; [done|].
           destruct (get_child h d k0) as [y|] eqn:Hy; [|done]. cbn.
           by rewrite (walk_below_child h h' r d segs Huniq Hd Hsame k0 y t Hk0 Hy).
  - by rewrite reroute_off, (walk_off_path h h' r d segs).
Qed.

Lemma unique_ren : unique_paths h' r.
Proof.
  intros s1 s2 n. rewrite !walk_ren. intros H1 H2.
  pose proof (Huniq _ _ _ H1 H2) as E.
  by rewrite <- (reroute_involutive segs k k' s1), E, reroute_involutive.
Qed.

End RenameChild.

(** *** tidy states *)

Lemma walk_same h h' s y :
  (forall x k, get_child h' x k = get_child h x k) -> walk h' s y = walk h s y.
Proof.
  intros Hsame. revert y. induction s as [|k t IH]; intros y; [done|].
  rewrite !walk_cons, Hsame. destruct (String.eqb k ""); [done|].
  destruct (get_child h y k); cbn; [apply IH|done].
Qed.

Lemma cached_ok_same st st' q n :
  same_tree st st' -> cached_ok st q n -> cached_ok st' q n.
Proof.
  intros (Hr & Hk & _) [[-> ->]|(qs & H1 & H2 & H3 & H4)]; [left; by rewrite Hr|].
  right. exists qs. split_and!; try done. by rewrite Hr, (walk_same (heap st) (heap st')).
Qed.

Lemma tidy_same st st' :
  tidy st -> same_tree st st' -> store_ok st' ->
  (forall q n, traversal_cache st' !! q = Some n ->
               traversal_cache st !! q = Some n \/ cached_ok st q n) ->
  tidy st'.
Proof.
  intros [T1 T2 T3 T4] Hsame Hok Hcache. pose proof Hsame as (Hr & Hk & Hn).
  split; [done| | |].
  - intros s d k c. rewrite Hr, Hk, Hn, (walk_same (heap st) (heap st')) by done. apply T2.
  - intros q n Hq. apply (cached_ok_same st); [done|].
    destruct (Hcache q n Hq) as [H|H]; [by apply T3|done].
  - intros s1 s2 n. rewrite Hr, !(walk_same (heap st) (heap st')) by done. apply T4.
Qed.

Lemma get_child_alter h f i x k :
  (forall n, dir_children (f n) = dir_children n) ->
  get_child (alter f i h) x k = get_child h x k.
Proof. intros Hf. unfold get_child. by rewrite children_of_alter. Qed.

Lemma name_alter (h : gmap nat Node) f i x :
  (forall n, name (f n) = name n) ->
  name <$> alter f i h !! x = name <$> h !! x.
Proof.
  intros Hf. destruct (decide (x = i)) as [->|Hne].
  - rewrite lookup_alter_eq. destruct (h !! i); cbn; [by rewrite Hf|done].
  - by rewrite lookup_alter_ne.
Qed.

Lemma same_tree_refl st : same_tree st st.
Proof. done. Qed.

Lemma same_tree_update_timestamp x f st : same_tree st (update_timestamp_metadata x f st).
Proof.
  split_and!; [done| |]; cbn [update_timestamp_metadata heap].
  - intros y k. apply get_child_alter. intros n. apply dir_children_set_timestamp.
  - intros y. apply name_alter. intros n. by destruct f.
Qed.

Lemma same_tree_trans st1 st2 st3 :
  same_tree st1 st2 -> same_tree st2 st3 -> same_tree st1 st3.
Proof.
  intros (R1 & K1 & N1) (R2 & K2 & N2). split_and!; [congruence| |].
  - intros x k. by rewrite K2.
  - intros x. by rewrite N2.
Qed.

Lemma same_tree_write x content st : same_tree st (FileNode_write x content st).
Proof.
  unfold FileNode_write.
  eapply same_tree_trans; [|apply same_tree_update_timestamp].
  eapply same_tree_trans; [|apply same_tree_update_timestamp].
  eapply same_tree_trans; [|apply same_tree_update_timestamp].
  split_and!; [done| |]; cbn [with_heap heap].
  - intros y k. apply get_child_alter. intros n. unfold dir_children.
    destruct (body n) eqn:E; cbn; by rewrite ?E.
  - intros y. apply name_alter. intros n. by destruct (body n).
Qed.

Lemma walk_live st s n :
  store_ok st -> walk (heap st) s (root st) = Some n -> is_Some (heap st !! n).
Proof.
  intros [[_ Hc] Hr]. generalize (root st) Hr. clear Hr.
  induction s as [|k t IH]; intros y Hy; [by intros [= <-]|].
  cbn [walk]. destruct (String.eqb k ""); [done|].
  destruct (children_of (heap st) y) as [ch|] eqn:Hch; [|done].
  destruct (ch !! k) as [z|] eqn:Hz; [|done].
  apply IH. by destruct (Hc _ _ _ _ Hch Hz).
Qed.

Lemma tidy_init clk : tidy (VirtualFileSystem_init clk).
Proof.
  assert (Hg : forall x k, get_child (heap (VirtualFileSystem_init clk)) x k = None).
  { intros x k. unfold get_child, children_of. cbn.
    rewrite lookup_insert. case_decide; [|by rewrite lookup_empty]. cbn.
    by rewrite lookup_empty. }
  assert (Hw : forall s n, walk (heap (VirtualFileSystem_init clk)) s 0 = Some n -> s = [] /\ n = 0).
  { intros [|k t] n; [by intros [= <-]|]. rewrite walk_cons, Hg. by destruct (String.eqb k ""). }
  split.
  - apply store_ok_init.
  - intros s d k c _. by rewrite Hg.
  - intros q n. cbn. intros [<- <-]%lookup_singleton_Some. by left.
  - intros s1 s2 n H1 H2. cbn in H1, H2. apply Hw in H1 as [-> _]. by apply Hw in H2 as [-> _].
Qed.

Lemma normalize_path_of_any ps :
  valid_segs ps ->
  _normalize_path (path_of ps) = match ps with [] => "/" | _ => path_of ps end.
Proof. intros Hv. destruct ps; [done|]. by apply normalize_valid. Qed.

Lemma cached_ok_root st n : cached_ok st "/" n -> n = root st.
Proof.
  intros [[_ ->]|(qs & Hne & Hv & E & _)]; [done|].
  symmetry in E. by apply path_of_not_root in E.
Qed.

Lemma cached_ok_path st ps n :
  valid_segs ps -> ps <> [] -> cached_ok st (path_of ps) n ->
  walk (heap st) ps (root st) = Some n.
Proof.
  intros Hv Hne [[E _]|(qs & Hne' & Hv' & E & Hw)].
  - by apply path_of_not_root in E.
  - apply path_of_inj in E; [by subst|done..].
Qed.

(** resolution of a valid path in a tidy state: the node the walk finds *)
Lemma resolve_tidy st ps :
  tidy st -> valid_segs ps ->
  let r := _get_node_object_by_path (path_of ps) st in
  fst r = walk (heap st) ps (root st)
  /\ heap (snd r) = heap st /\ next_id (snd r) = next_id st /\ root (snd r) = root st
  /\ clock (snd r) = clock st
  /\ tidy (snd r)
  /\ (fst r = None -> snd r = st).
Proof.
  intros Ht Hv. pose proof Ht as [T1 T2 T3 T4].
  unfold _get_node_object_by_path. rewrite normalize_path_of_any by done.
  destruct ps as [|p ps].
  - destruct (traversal_cache st !! "/") as [n|] eqn:Hc; cbn.
    + apply T3, cached_ok_root in Hc as ->. by split_and!.
    + by split_and!.
  - set (q := path_of (p :: ps)).
    destruct (traversal_cache st !! q) as [n|] eqn:Hc; cbn [fst snd].
    + apply T3, cached_ok_path in Hc; [|done..]. by split_and!.
    + assert (String.eqb q "/" = false) as ->.
      { apply String.eqb_neq, path_of_not_root; done. }
      unfold q. rewrite split_strip_path_of by done.
      destruct (walk (heap st) (p :: ps) (root st)) as [n|] eqn:Hw; cbn [fst snd];
        [|by split_and!].
      split_and!; try done.
      apply (tidy_same st); [done|done|done|].
      intros q' n'. cbn [with_cache traversal_cache]. rewrite lookup_insert.
      case_decide as E; [|by left]. intros [= <-]. right. right.
      exists (p :: ps). by split_and!.
Qed.

Lemma parent_and_name_tidy st segs nm :
  tidy st -> valid_segs (segs ++ [nm]) ->
  let r := _get_parent_directory_and_name (path_of (segs ++ [nm])) st in
  heap (snd r) = heap st /\ next_id (snd r) = next_id st /\ root (snd r) = root st
  /\ clock (snd r) = clock st
  /\ tidy (snd r)
  /\ ((exists d ch, fst r = Ok (Some d, nm)
                    /\ walk (heap st) segs (root st) = Some d
                    /\ children_of (heap st) d = Some ch)
      \/ (fst r = Ok (None, nm)
          /\ forall d, walk (heap st) segs (root st) = Some d ->
                       children_of (heap st) d = None)).
Proof.
  intros Ht Hv. rewrite parent_and_name_path by done.
  apply Forall_app in Hv as [Hs _].
  pose proof (resolve_tidy st segs Ht Hs) as H. cbv zeta in H.
  destruct (_get_node_object_by_path (path_of segs) st) as [[d|] st1];
    cbn [fst snd] in *; destruct H as (Hw & Hh & Hn & Hr & Hk & Ht1 & _).
  - rewrite Hh. destruct (children_of (heap st) d) as [ch|] eqn:Hch; cbn [fst snd];
      split_and!; try done.
    + left. by exists d, ch.
    + right. split; [done|]. intros d'. rewrite <- Hw. by intros [= <-].
  - split_and!; try done. right. split; [done|]. intros d'. by rewrite <- Hw.
Qed.

(** *** a leaf attached to a directory *)

Lemma children_of_insert h c n x :
  children_of (<[c := n]> h) x = if decide (x = c) then dir_children n else children_of h x.
Proof.
  rewrite !children_of_dir_children, lookup_insert.
  case_decide as E; case_decide as E'; try done; by subst.
Qed.

Section Attach.

Variables (st : VirtualFileSystem) (d : nat) (nm : string) (b : NodeBody)
          (ch : gmap string nat).
Hypothesis Hok : store_ok st.
Hypothesis Hch : children_of (heap st) d = Some ch.
Hypothesis Hleaf : leaf_body b.

Lemma attach_fresh : heap st !! next_id st = None.
Proof.
  destruct Hok as [[Hb _] _]. destruct (heap st !! next_id st) eqn:E; [|done].
  apply Hb in E. lia.
Qed.

Lemma attach_parent_old : d <> next_id st.
Proof.
  intros ->. pose proof attach_fresh as H. unfold children_of in Hch. by rewrite H in Hch.
Qed.

Lemma attach_children x :
  children_of (heap (add_child d (next_id st) (snd (new_node nm (Some d) b st)))) x =
  if decide (x = d) then Some (<[nm := next_id st]> ch)
  else if decide (x = next_id st)
       then dir_children (mkNode nm (Some d) (clock st) (clock st) (clock st) b)
  else children_of (heap st) x.
Proof.
  pose proof attach_parent_old as Hne.
  unfold add_child, new_node. cbn [snd heap]. rewrite lookup_insert_eq. cbn [name].
  unfold update_timestamp_metadata, with_heap. cbn [heap clock].
  rewrite children_of_alter by (intros; apply dir_children_set_timestamp).
  rewrite children_of_alter by done.
  rewrite children_of_on_children, !children_of_insert.
  case_decide as E1; [subst x|done].
  rewrite decide_False by done. by rewrite Hch.
Qed.

Lemma attach_get_child_parent k :
  get_child (heap (add_child d (next_id st) (snd (new_node nm (Some d) b st)))) d k =
  if decide (k = nm) then Some (next_id st) else get_child (heap st) d k.
Proof.
  unfold get_child. rewrite attach_children, Hch, decide_True by done.
  rewrite lookup_insert. repeat case_decide; by subst.
Qed.

Lemma attach_get_child_leaf k :
  get_child (heap (add_child d (next_id st) (snd (new_node nm (Some d) b st)))) (next_id st) k = None.
Proof.
  pose proof attach_parent_old as Hne.
  unfold get_child. rewrite attach_children, decide_False, decide_True by done.
  unfold dir_children. cbn. destruct Hleaf as [->|(x & sz & ->)]; [|done].
  cbn. apply lookup_empty.
Qed.

Lemma attach_same_kids :
  same_kids_except d (heap st) (heap (add_child d (next_id st) (snd (new_node nm (Some d) b st)))).
Proof.
  intros x k Hx. destruct (decide (x = next_id st)) as [->|Hc].
  - rewrite attach_get_child_leaf. unfold get_child, children_of. by rewrite attach_fresh.
  - unfold get_child. by rewrite attach_children, !decide_False.
Qed.

Lemma attach_names y :
  name <$> heap (add_child d (next_id st) (snd (new_node nm (Some d) b st))) !! y =
  if decide (y = next_id st) then Some nm else name <$> heap st !! y.
Proof.
  unfold add_child, new_node. cbn [snd heap]. rewrite lookup_insert_eq. cbn [name].
  unfold update_timestamp_metadata, with_heap. cbn [heap clock].
  rewrite name_alter by done. rewrite name_alter by done.
  rewrite name_alter by (intros n; unfold on_children; by destruct (body n)).
  rewrite lookup_insert. repeat case_decide; try done; by subst.
Qed.

Lemma attach_frame :
  root (add_child d (next_id st) (snd (new_node nm (Some d) b st))) = root st
  /\ traversal_cache (add_child d (next_id st) (snd (new_node nm (Some d) b st))) = traversal_cache st.
Proof.
  unfold add_child, new_node. cbn [snd heap]. by rewrite lookup_insert_eq.
Qed.

End Attach.

Lemma valid_segment_nonempty nm : valid_segment nm = true -> String.eqb nm "" = false.
Proof. intros [H _]%valid_segment_spec. by apply String.eqb_neq. Qed.

Lemma valid_segs_last segs nm : valid_segs (segs ++ [nm]) -> valid_segment nm = true.
Proof. intros [_ H]%Forall_app. by apply Forall_inv in H. Qed.

Lemma tidy_attach st segs nm b d ch :
  tidy st -> valid_segs (segs ++ [nm]) ->
  walk (heap st) segs (root st) = Some d ->
  children_of (heap st) d = Some ch -> ch !! nm = None -> leaf_body b ->
  let st3 := add_child d (next_id st) (snd (new_node nm (Some d) b st)) in
  tidy (with_cache (<[path_of (segs ++ [nm]) := next_id st]> (traversal_cache st3)) st3).
Proof.
  intros [T1 T2 T3 T4] Hv Hd Hch Hfree Hleaf st3.
  pose proof (valid_segment_nonempty nm (valid_segs_last _ _ Hv)) as Hk.
  destruct (attach_frame st d nm b) as [Hr Hc]. fold st3 in Hr, Hc.
  pose proof (attach_same_kids st d nm b ch T1 Hch Hleaf) as Hsame. fold st3 in Hsame.
  pose proof (attach_get_child_parent st d nm b ch T1 Hch) as Hnew. fold st3 in Hnew.
  pose proof (attach_get_child_leaf st d nm b ch T1 Hch Hleaf) as Hlf. fold st3 in Hlf.
  pose proof (attach_names st d nm b) as Hnames. fold st3 in Hnames.
  pose proof (attach_fresh st T1) as Hfr.
  assert (Hfree' : get_child (heap st) d nm = None).
  { unfold get_child. by rewrite Hch. }
  assert (Hfresh : forall s n, walk (heap st) s (root st) = Some n -> n <> next_id st).
  { intros s n Hw ->. apply (walk_live st s _ T1) in Hw. rewrite Hfr in Hw. by destruct Hw. }
  pose proof (walk_add_old _ _ _ _ _ _ _ T4 Hd Hsame Hnew Hfree') as Hold.
  pose proof (walk_add_new _ _ _ _ _ _ _ T4 Hd Hsame Hnew Hlf) as Hnw.
  split; cbn [with_cache heap root traversal_cache next_id]; rewrite ?Hr.
  - apply store_ok_with_cache, store_ok_attach; [done| |done].
    apply store_ok_live_lt; [done|]. rewrite Hch. eauto.
  - intros s x k y Hw Hy.
    destruct (Hnw _ _ Hw) as [Hw'|[_ ->]]; [|by rewrite Hlf in Hy].
    assert (get_child (heap st) x k = Some y \/ (x = d /\ k = nm /\ y = next_id st)) as [Hy'|(-> & -> & ->)].
    { destruct (decide (x = d)) as [->|Hx].
      - rewrite Hnew in Hy. case_decide; [right; by simplify_eq|by left].
      - left. by rewrite <- (Hsame x k Hx). }
    + pose proof (T2 _ _ _ _ Hw' Hy') as Hn. rewrite Hnames.
      case_decide as E; [|done]. subst y. by rewrite Hfr in Hn.
    + rewrite Hnames. by rewrite decide_True.
  - intros q n. rewrite Hc, lookup_insert. unfold cached_ok.
    cbn [with_cache heap root]. rewrite Hr. case_decide as E.
    + intros [= <-]. right. exists (segs ++ [nm]). split_and!; try done.
      * by destruct segs.
      * by apply (walk_add_to_child (heap st) (heap st3) (root st) d (next_id st) segs nm).
    + intros Hq. destruct (T3 _ _ Hq) as [[-> ->]|(qs & H1 & H2 & H3 & H4)]; [by left|].
      right. exists qs. split_and!; try done. by apply Hold.
  - by apply (unique_add (heap st) (heap st3) (root st) d (next_id st) segs nm).
Qed.

(** *** the effect of [remove_child] and of [add_child] on a live node *)

Lemma remove_child_effect st d k ch x :
  children_of (heap st) d = Some ch -> ch !! k = Some x ->
  let st' := remove_child d k st in
  (forall k0, get_child (heap st') d k0 =
              if decide (k0 = k) then None else get_child (heap st) d k0)
  /\ same_kids_except d (heap st) (heap st')
  /\ (forall y, name <$> heap st' !! y = name <$> heap st !! y)
  /\ root st' = root st /\ traversal_cache st' = traversal_cache st.
Proof.
  intros Hch Hk. unfold remove_child. rewrite Hch, Hk.
  unfold update_timestamp_metadata, with_heap. cbn [heap clock root traversal_cache].
  split_and!; try done.
  - intros k0. unfold get_child.
    rewrite children_of_alter by (intros; apply dir_children_set_timestamp).
    rewrite children_of_on_children, decide_True, Hch by done. cbn.
    rewrite lookup_delete. repeat case_decide; by subst.
  - intros y k0 Hy. unfold get_child.
    rewrite children_of_alter by (intros; apply dir_children_set_timestamp).
    by rewrite children_of_on_children, decide_False.
  - intros y. rewrite name_alter by done.
    apply name_alter. intros n. unfold on_children. by destruct (body n).
Qed.

Lemma add_child_effect st d c n ch :
  heap st !! c = Some n -> children_of (heap st) d = Some ch ->
  let st' := add_child d c st in
  (forall k0, get_child (heap st') d k0 =
              if decide (k0 = name n) then Some c else get_child (heap st) d k0)
  /\ same_kids_except d (heap st) (heap st')
  /\ (forall y, name <$> heap st' !! y = name <$> heap st !! y)
  /\ root st' = root st /\ traversal_cache st' = traversal_cache st.
Proof.
  intros Hc Hch. unfold add_child. rewrite Hc.
  unfold update_timestamp_metadata, with_heap. cbn [heap clock root traversal_cache].
  split_and!; try done.
  - intros k0. unfold get_child.
    rewrite children_of_alter by (intros; apply dir_children_set_timestamp).
    rewrite children_of_alter by done.
    rewrite children_of_on_children, decide_True, Hch by done. cbn.
    rewrite lookup_insert. repeat case_decide; by subst.
  - intros y k0 Hy. unfold get_child.
    rewrite children_of_alter by (intros; apply dir_children_set_timestamp).
    rewrite children_of_alter by done.
    by rewrite children_of_on_children, decide_False.
  - intros y. rewrite name_alter by done. rewrite name_alter by done.
    apply name_alter. intros m. unfold on_children. by destruct (body m).
Qed.

Lemma parent_and_name_tidy' st segs nm :
  tidy st -> valid_segs (segs ++ [nm]) ->
  exists o st1,
    _get_parent_directory_and_name (path_of (segs ++ [nm])) st = (Ok (o, nm), st1)
    /\ heap st1 = heap st /\ next_id st1 = next_id st /\ root st1 = root st
    /\ clock st1 = clock st /\ tidy st1
    /\ match o with
       | Some d => walk (heap st) segs (root st) = Some d
                   /\ is_Some (children_of (heap st) d)
       | None => forall d, walk (heap st) segs (root st) = Some d ->
                           children_of (heap st) d = None
       end.
Proof.
  intros Ht Hv. pose proof (parent_and_name_tidy st segs nm Ht Hv) as H. cbv zeta in H.
  destruct (_get_parent_directory_and_name (path_of (segs ++ [nm])) st) as [r st1].
  cbn [fst snd] in H. destruct H as (Hh & Hn & Hr & Hk & Ht1 & [(d & ch & -> & Hw & Hch)|[-> Hno]]).
  - exists (Some d), st1. split_and!; try done; rewrite ?Hch; eauto.
  - exists None, st1. by split_and!.
Qed.

(** *** the calls keep a tidy state tidy *)

Lemma tidy_create st segs nm b :
  tidy st -> valid_segs (segs ++ [nm]) -> leaf_body b ->
  forall o st1,
    _get_parent_directory_and_name (path_of (segs ++ [nm])) st = (Ok (o, nm), st1) ->
    heap st1 = heap st -> root st1 = root st -> tidy st1 ->
    match o with
    | Some d => walk (heap st) segs (root st) = Some d /\ is_Some (children_of (heap st) d)
    | None => True
    end ->
    match o with
    | None => True
    | Some d =>
        get_child (heap st1) d nm = None ->
        let st3 := add_child d (next_id st1) (snd (new_node nm (Some d) b st1)) in
        tidy (with_cache (<[_normalize_path (path_of (segs ++ [nm])) := next_id st1]>
                            (traversal_cache st3)) st3)
    end.
Proof.
  intros Ht Hv Hb o st1 _ Hh Hr Ht1 Ho. destruct o as [d|]; [|done].
  destruct Ho as [Hw [ch Hch]]. intros Hg.
  rewrite normalize_path_of by (by eapply valid_segs_last).
  apply (tidy_attach st1 segs nm b d ch); try done.
  - by rewrite Hh, Hr.
  - by rewrite Hh.
  - unfold get_child in Hg. by rewrite Hh, Hch in Hg.
Qed.

Lemma tidy_create_file st segs nm content :
  tidy st -> valid_segs (segs ++ [nm]) ->
  tidy (snd (create_file (path_of (segs ++ [nm])) content st)).
Proof.
  intros Ht Hv.
  destruct (parent_and_name_tidy' st segs nm Ht Hv)
    as (o & st1 & Hpn & Hh & Hn & Hr & Hk & Ht1 & Ho).
  pose proof (tidy_create st segs nm (FileBody content (length content)) Ht Hv
                ltac:(right; eauto) o st1 Hpn Hh Hr Ht1) as H.
  unfold create_file. rewrite Hpn. destruct o as [d|]; [|done].
  destruct (get_child (heap st1) d nm) eqn:Hg; [done|].
  apply H; [|done]. by destruct Ho.
Qed.

Lemma tidy_create_directory st segs nm :
  tidy st -> valid_segs (segs ++ [nm]) ->
  tidy (snd (create_directory (path_of (segs ++ [nm])) st)).
Proof.
  intros Ht Hv.
  destruct (parent_and_name_tidy' st segs nm Ht Hv)
    as (o & st1 & Hpn & Hh & Hn & Hr & Hk & Ht1 & Ho).
  pose proof (tidy_create st segs nm (DirBody ∅) Ht Hv
                ltac:(by left) o st1 Hpn Hh Hr Ht1) as H.
  unfold create_directory. rewrite Hpn. destruct o as [d|]; [|done].
  destruct (get_child (heap st1) d nm) eqn:Hg; [done|].
  apply H; [|done]. by destruct Ho.
Qed.

Lemma tidy_update_timestamp x f st : tidy st -> tidy (update_timestamp_metadata x f st).
Proof.
  intros Ht. apply (tidy_same st); [done|apply same_tree_update_timestamp| |by left].
  apply store_ok_update_timestamp, Ht.
Qed.

Lemma tidy_read_file st ps :
  tidy st -> valid_segs ps -> tidy (snd (read_file (path_of ps) st)).
Proof.
  intros Ht Hv. unfold read_file.
  pose proof (resolve_tidy st ps Ht Hv) as H. cbv zeta in H.
  destruct (_get_node_object_by_path (path_of ps) st) as [[x|] st1]; cbn [fst snd] in *;
    destruct H as (_ & _ & _ & _ & _ & Ht1 & _); [|done].
  destruct (content_of (heap st1) x); [|done]. by apply tidy_update_timestamp.
Qed.

Lemma tidy_write_file st segs nm content :
  tidy st -> valid_segs (segs ++ [nm]) ->
  tidy (snd (write_file (path_of (segs ++ [nm])) content st)).
Proof.
  intros Ht Hv. unfold write_file.
  pose proof (resolve_tidy st (segs ++ [nm]) Ht Hv) as H. cbv zeta in H.
  destruct (_get_node_object_by_path (path_of (segs ++ [nm])) st) as [[x|] st1];
    cbn [fst snd] in *; destruct H as (Hw & Hh & Hn & Hr & Hk & Ht1 & Hsame).
  - destruct (content_of (heap st1) x); [|done]. cbn [snd].
    apply (tidy_same st1); [done|apply same_tree_write| |by left].
    apply store_ok_write, Ht1.
  - specialize (Hsame eq_refl) as ->.
    destruct (parent_and_name_tidy' st segs nm Ht Hv)
      as (o & st1 & Hpn & Hh1 & Hn1 & Hr1 & Hk1 & Ht1' & Ho).
    rewrite Hpn. destruct o as [d|]; [|done]. destruct Ho as [Hwd Hch].
    pose proof (tidy_create st segs nm (FileBody content (length content)) Ht Hv
                  ltac:(right; eauto) (Some d) st1 Hpn Hh1 Hr1 Ht1' (conj Hwd Hch)) as H.
    apply H. rewrite Hh1. symmetry in Hw. rewrite walk_app, Hwd in Hw. cbn [mbind option_bind] in Hw.
    rewrite walk_cons, (valid_segment_nonempty nm) in Hw by (by eapply valid_segs_last).
    by destruct (get_child (heap st) d nm).
Qed.

Lemma walk_last h segs nm r x :
  String.eqb nm "" = false ->
  walk h (segs ++ [nm]) r = Some x ->
  exists d, walk h segs r = Some d /\ get_child h d nm = Some x.
Proof.
  intros Hk. rewrite walk_app. destruct (walk h segs r) as [d|]; [|done].
  cbn [mbind option_bind]. rewrite walk_cons, Hk. intros H. exists d. split; [done|].
  destruct (get_child h d nm) as [y|]; [|done]. cbn in H. by injection H as ->.
Qed.

Lemma get_child_Some h d k x :
  get_child h d k = Some x -> exists ch, children_of h d = Some ch /\ ch !! k = Some x.
Proof. unfold get_child. destruct (children_of h d) as [ch|]; [eauto|done]. Qed.

Lemma changed_self p : changed p p = true.
Proof. unfold changed. by rewrite String.eqb_refl. Qed.

(** [delete] on a valid path in a tidy state *)
Lemma delete_tidy_spec st segs nm :
  tidy st -> valid_segs (segs ++ [nm]) ->
  let r := delete (path_of (segs ++ [nm])) st in
  tidy (snd r)
  /\ (fst r = Ok true ->
      exists d x,
        walk (heap st) segs (root st) = Some d
        /\ get_child (heap st) d nm = Some x
        /\ get_child (heap (snd r)) d nm = None
        /\ root (snd r) = root st
        /\ (forall t, walk (heap (snd r)) (segs ++ nm :: t) (root st) = None)
        /\ (forall q, changed (path_of (segs ++ [nm])) q = true ->
                      traversal_cache (snd r) !! q = None)
        /\ (exists t, modified <$> heap (snd r) !! d = Some t
                      /\ clock st <= t < clock (snd r))).
Proof.
  intros Ht Hv. pose proof (valid_segs_last _ _ Hv) as Hnm.
  pose proof (valid_segment_nonempty nm Hnm) as Hk.
  destruct (parent_and_name_tidy' st segs nm Ht Hv)
    as (o & st1 & Hpn & Hh1 & Hn1 & Hr1 & Hk1 & Ht1 & Ho).
  unfold delete. rewrite Hpn. destruct o as [d|]; [|done]. destruct Ho as [Hwd _].
  pose proof (resolve_tidy st1 (segs ++ [nm]) Ht1 Hv) as H. cbv zeta in H.
  destruct (_get_node_object_by_path (path_of (segs ++ [nm])) st1) as [[x|] st2];
    cbn [fst snd] in *; destruct H as (Hw & Hh2 & Hn2 & Hr2 & Hk2 & Ht2 & _); [|done].
  destruct (x =? root st2)%nat; [done|]. cbn [fst snd].
  symmetry in Hw. rewrite <- Hh2, <- Hr2 in Hw.
  destruct (walk_last _ _ _ _ _ Hk Hw) as (d' & Hwd' & Hx).
  assert (d' = d) as ->.
  { rewrite Hh2, Hr2, Hh1, Hr1, Hwd in Hwd'. by injection Hwd'. }
  destruct (get_child_Some _ _ _ _ Hx) as (ch & Hch & Hchk).
  destruct (remove_child_effect st2 d nm ch x Hch Hchk) as (Hdel & Hsame & Hnames & Hr3 & Hc3).
  assert (Hclock3 : clock st2 <= clock (remove_child d nm st2)).
  { unfold remove_child. rewrite Hch, Hchk. cbn. lia. }
  assert (Hlive3 : is_Some (heap (remove_child d nm st2) !! d)).
  { unfold remove_child. rewrite Hch, Hchk. cbn [update_timestamp_metadata with_heap heap].
    apply is_Some_alter, is_Some_alter. unfold children_of in Hch.
    destruct (heap st2 !! d); [eauto|done]. }
  set (st3 := remove_child d nm st2) in *.
  pose proof Ht2 as [T1 T2 T3 T4].
  pose proof (walk_del _ _ _ _ _ _ T4 Hwd' Hsame Hdel) as Hkeep.
  pose proof (walk_del_sub _ _ _ _ _ _ T4 Hwd' Hsame Hdel) as Hsub.
  pose proof (walk_del_gone _ _ _ _ _ _ T4 Hwd' Hsame Hdel) as Hgone.
  rewrite normalize_path_of by done.
  set (st5 := _remove_changed_node_from_cache _ _).
  assert (Ht5 : tidy st5).
  { split; unfold st5, _remove_changed_node_from_cache;
      cbn [with_cache heap root traversal_cache next_id]; rewrite ?Hr3.
    - apply store_ok_remove_cache, store_ok_with_cache. by apply store_ok_remove_child.
    - intros s y k z Hwy Hz. rewrite Hnames. apply Hsub in Hwy.
      apply (T2 s y k z Hwy). destruct (decide (y = d)) as [->|Hy].
      + rewrite Hdel in Hz. by case_decide.
      + by rewrite <- (Hsame y k Hy).
    - intros q n [Hq Hnot]%map_lookup_filter_Some. cbn [fst] in Hnot.
      rewrite normalize_path_of in Hnot by done.
      rewrite Hc3, lookup_insert in Hq. case_decide as E.
      { subst q. by rewrite changed_self in Hnot. }
      unfold cached_ok. cbn [with_cache heap root]. rewrite Hr3.
      destruct (T3 _ _ Hq) as [[-> ->]|(qs & H1 & H2 & H3 & H4)]; [by left|].
      right. exists qs. split_and!; try done. rewrite Hkeep; [done|].
      intros t ->. subst q.
      replace (segs ++ nm :: t) with ((segs ++ [nm]) ++ t) in Hnot by (by rewrite <- app_assoc).
      by rewrite changed_below in Hnot.
    - by apply (unique_del (heap st2) (heap st3) (root st2) d segs nm). }
  split; [by apply tidy_update_timestamp|]. intros _.
  destruct (same_tree_update_timestamp d Modified st5) as (Hr6 & Hk6 & _).
  exists d, x. split_and!.
  - by rewrite <- Hh1, <- Hr1, <- Hh2, <- Hr2.
  - by rewrite <- Hh1, <- Hh2.
  - rewrite Hk6. unfold st5, _remove_changed_node_from_cache. cbn [with_cache heap].
    rewrite Hdel. by rewrite decide_True.
  - by rewrite <- Hr1, <- Hr2.
  - intros t. rewrite (walk_same (heap st5)) by done.
    unfold st5, _remove_changed_node_from_cache. cbn [with_cache heap].
    rewrite <- Hr1, <- Hr2. apply Hgone.
  - intros q Hq. cbn [update_timestamp_metadata traversal_cache].
    unfold st5, _remove_changed_node_from_cache. cbn [with_cache traversal_cache].
    apply map_lookup_filter_None. right. intros n _. cbn [fst].
    rewrite normalize_path_of by done. by rewrite Hq.
  - exists (clock st3). cbn [update_timestamp_metadata heap clock].
    unfold st5, _remove_changed_node_from_cache. cbn [with_cache heap clock].
    rewrite lookup_alter_eq. destruct Hlive3 as [n3 ->]. cbn. split; [done|]. lia.
Qed.

Lemma tidy_delete st segs nm :
  tidy st -> valid_segs (segs ++ [nm]) ->
  tidy (snd (delete (path_of (segs ++ [nm])) st)).
Proof. intros Ht Hv. apply (delete_tidy_spec st segs nm Ht Hv). Qed.

Lemma has_backslash_slash s : has_backslash ("/" +:+ s) = has_backslash s.
Proof. reflexivity. Qed.

Lemma path_of_snoc segs nm : path_of (segs ++ [nm]) = path_of segs +:+ ("/" +:+ nm).
Proof.
  rewrite path_of_app, path_of_cons. change (path_of []) with "". by rewrite app_empty_r.
Qed.

Lemma valid_segs_swap segs nm new_name :
  valid_segs (segs ++ [nm]) -> valid_segment new_name = true ->
  valid_segs (segs ++ [new_name]).
Proof.
  intros [Hs _]%Forall_app Hn. apply Forall_app. split; [done|]. by constructor.
Qed.

Lemma body_alter (h : gmap nat Node) f i y :
  (forall n, body (f n) = body n) ->
  body <$> alter f i h !! y = body <$> h !! y.
Proof.
  intros Hf. destruct (decide (y = i)) as [->|Hne].
  - rewrite lookup_alter_eq. destruct (h !! i); cbn; [by rewrite Hf|done].
  - by rewrite lookup_alter_ne.
Qed.

Lemma remove_child_other st d k y : y <> d -> heap (remove_child d k st) !! y = heap st !! y.
Proof.
  intros Hy. unfold remove_child. destruct (children_of (heap st) d); [|done].
  destruct (_ !! k); [|done]. cbn [update_timestamp_metadata with_heap heap].
  by rewrite !lookup_alter_ne.
Qed.

Lemma add_child_body st d c y :
  y <> d -> body <$> heap (add_child d c st) !! y = body <$> heap st !! y.
Proof.
  intros Hy. unfold add_child. destruct (heap st !! c); [|done].
  cbn [update_timestamp_metadata with_heap heap].
  rewrite lookup_alter_ne by done. rewrite body_alter by done. by rewrite lookup_alter_ne.
Qed.

(** [rename] on a valid path in a tidy state, to a valid free name *)
Lemma rename_tidy_spec esc st segs nm new_name :
  tidy st -> valid_segs (segs ++ [nm]) ->
  valid_segment new_name = true -> has_backslash new_name = false ->
  target_free st segs nm new_name ->
  let r := rename esc (path_of (segs ++ [nm])) new_name st in
  tidy (snd r)
  /\ (fst r = Ok true ->
      exists d x,
        walk (heap st) segs (root st) = Some d
        /\ get_child (heap st) d nm = Some x
        /\ root (snd r) = root st
        /\ (forall k0, get_child (heap (snd r)) d k0 =
                       if decide (k0 = new_name) then Some x
                       else if decide (k0 = nm) then None
                       else get_child (heap st) d k0)
        /\ same_kids_except d (heap st) (heap (snd r))
        /\ (forall s, walk (heap (snd r)) s (root st) =
                      walk (heap st) (reroute segs nm new_name s) (root st))
        /\ (forall y, y <> d -> body <$> heap (snd r) !! y = body <$> heap st !! y)
        /\ (name <$> heap (snd r) !! x) = Some new_name
        /\ traversal_cache (snd r) !! path_of (segs ++ [new_name]) = Some x).
Proof.
  intros Ht Hv Hnew Hbs Hfree. pose proof (valid_segs_last _ _ Hv) as Hnm.
  pose proof (valid_segment_nonempty nm Hnm) as Hk.
  pose proof (valid_segment_nonempty new_name Hnew) as Hk'.
  destruct (parent_and_name_tidy' st segs nm Ht Hv)
    as (o & st1 & Hpn & Hh1 & Hn1 & Hr1 & Hk1 & Ht1 & Ho).
  unfold rename. rewrite Hpn. destruct o as [d|]; [|done]. destruct Ho as [Hwd _].
  rewrite <- Hh1, <- Hr1 in Hwd.
  destruct (get_child (heap st1) d nm) as [x|] eqn:Hx; [|done].
  pose proof Ht1 as [T1 T2 T3 T4].
  pose proof (T2 _ _ _ _ Hwd Hx) as Hname.
  destruct (heap st1 !! x) as [n0|] eqn:Hn0; [|done]. injection Hname as Hname.
  rewrite Hname.
  destruct (get_child_Some _ _ _ _ Hx) as (ch & Hch & Hchk).
  destruct (remove_child_effect st1 d nm ch x Hch Hchk) as (Hdel & Hsame2 & Hnames2 & Hr2 & Hc2).
  set (st2 := remove_child d nm st1) in *.
  set (st3 := with_heap (alter (set_name new_name) x (heap st2)) st2).
  assert (exists n2, heap st2 !! x = Some n2) as [n2 Hn2].
  { specialize (Hnames2 x). rewrite Hn0 in Hnames2. destruct (heap st2 !! x); [eauto|done]. }
  assert (Hx3 : heap st3 !! x = Some (set_name new_name n2)).
  { unfold st3, with_heap. cbn [heap]. by rewrite lookup_alter_eq, Hn2. }
  assert (Hg3 : forall y k0, get_child (heap st3) y k0 = get_child (heap st2) y k0).
  { intros y k0. unfold st3, with_heap. cbn [heap]. by apply get_child_alter. }
  assert (exists ch3, children_of (heap st3) d = Some ch3) as [ch3 Hch3].
  { unfold st3, with_heap. cbn [heap]. rewrite children_of_alter by done.
    unfold st2, remove_child. rewrite Hch, Hchk.
    unfold update_timestamp_metadata, with_heap. cbn [heap].
    rewrite children_of_alter by (intros; apply dir_children_set_timestamp).
    rewrite children_of_on_children, decide_True, Hch by done. eauto. }
  destruct (add_child_effect st3 d x _ ch3 Hx3 Hch3) as (Hadd & Hsame4 & Hnames4 & Hr4 & Hc4).
  cbn [name set_name] in Hadd.
  set (st4 := add_child d x st3) in *.
  assert (Hren : forall k0, get_child (heap st4) d k0 =
                            if decide (k0 = new_name) then Some x
                            else if decide (k0 = nm) then None
                            else get_child (heap st1) d k0).
  { intros k0. rewrite Hadd. case_decide; [done|]. by rewrite Hg3, Hdel. }
  assert (Hsame : same_kids_except d (heap st1) (heap st4)).
  { intros y k0 Hy. by rewrite (Hsame4 y k0 Hy), Hg3, (Hsame2 y k0 Hy). }
  assert (Hnames : forall y, name <$> heap st4 !! y =
                             if decide (y = x) then Some new_name else name <$> heap st1 !! y).
  { intros y. rewrite Hnames4. unfold st3, with_heap. cbn [heap].
    destruct (decide (y = x)) as [->|Hy].
    - by rewrite lookup_alter_eq, Hn2.
    - by rewrite lookup_alter_ne, Hnames2. }
  assert (Hroot : root st4 = root st1) by (by rewrite Hr4).
  assert (Hcache : traversal_cache st4 = traversal_cache st1) by (by rewrite Hc4).
  assert (Hguard : new_name = nm \/ get_child (heap st1) d new_name = None).
  { destruct Hfree as [->|Hf]; [by left|right]. rewrite Hh1. apply Hf.
    by rewrite <- Hh1, <- Hr1. }
  pose proof (walk_ren _ _ _ _ _ _ _ _ T4 Hwd Hsame Hk Hk' Hx Hguard Hren) as Hwalk.
  unfold expand_template. rewrite has_backslash_slash, Hbs.
  rewrite sub_last_path by done. rewrite <- path_of_snoc.
  rewrite !normalize_path_of by done. cbn [snd].
  assert (Hbody : forall y, y <> d -> body <$> heap st4 !! y = body <$> heap st1 !! y).
  { intros y Hy. unfold st4. rewrite add_child_body by done.
    unfold st3, with_heap. cbn [heap]. rewrite body_alter by done.
    unfold st2. by rewrite remove_child_other. }
  assert (Hok4 : store_ok st4).
  { apply store_ok_add_child; [by apply (get_child_lt st1 d nm)|].
    by apply store_ok_set_name, store_ok_remove_child. }
  clearbody st4. clear Hadd Hsame4 Hnames4 Hr4 Hc4 Hch3 Hg3 Hx3.
  cbn [fst snd].
  split; [|intros _; exists d, x;
           unfold _remove_changed_node_from_cache;
           cbn [with_cache heap root traversal_cache next_id];
           split_and!; rewrite <- ?Hh1, <- ?Hr1; try done;
           [by rewrite Hnames, decide_True|by rewrite lookup_insert_eq]].
  split; unfold _remove_changed_node_from_cache;
    cbn [with_cache heap root traversal_cache next_id]; rewrite ?Hroot.
  - by apply store_ok_with_cache, store_ok_remove_cache.
  - intros s y k0 z Hwy Hz. rewrite Hwalk in Hwy. rewrite Hnames.
    destruct (decide (y = d)) as [->|Hy].
    + rewrite Hren in Hz. case_decide as E1; [simplify_eq; by rewrite decide_True|].
      case_decide as E2; [done|].
      pose proof (T2 _ _ _ _ Hwd Hz) as Hz'.
      case_decide as E3; [|done]. subst z. rewrite Hn0 in Hz'. cbn in Hz'. congruence.
    + rewrite (Hsame y k0 Hy) in Hz.
      pose proof (T2 _ _ _ _ Hwy Hz) as Hz'.
      case_decide as E3; [|done]. subst z. rewrite Hn0 in Hz'. cbn in Hz'.
      assert (k0 = nm) as -> by congruence.
      assert (walk (heap st1) (reroute segs nm new_name s ++ [nm]) (root st1) = Some x) as Hloop.
      { rewrite walk_app, Hwy. cbn [mbind option_bind]. by rewrite walk_cons, Hk, Hz. }
      assert (walk (heap st1) (segs ++ [nm]) (root st1) = Some x) as Hdirect.
      { rewrite walk_app, Hwd. cbn [mbind option_bind]. by rewrite walk_cons, Hk, Hx. }
      pose proof (T4 _ _ _ Hloop Hdirect) as E%app_inv_tail.
      rewrite E, Hwd in Hwy. by injection Hwy.
  - intros q n. rewrite lookup_insert. unfold cached_ok. cbn [with_cache heap root].
    rewrite Hroot. case_decide as E.
    + intros [= <-]. right. exists (segs ++ [new_name]). split_and!.
      * by destruct segs.
      * by apply (valid_segs_swap segs nm).
      * done.
      * rewrite Hwalk, reroute_at, decide_True by done.
        rewrite walk_app, Hwd. cbn [mbind option_bind]. by rewrite walk_cons, Hk, Hx.
    + intros [Hq Hnot]%map_lookup_filter_Some. cbn [fst] in Hnot. rewrite Hcache in Hq.
      rewrite normalize_path_of in Hnot by done.
      destruct (T3 _ _ Hq) as [[-> ->]|(qs & H1 & H2 & H3 & H4)]; [by left|].
      right. exists qs. split_and!; try done. rewrite Hwalk.
      destruct (prefix_or_not segs qs) as [[t ->]|Hoff]; [|by rewrite reroute_off].
      destruct t as [|k0 t]; [rewrite app_nil_r in *; by rewrite reroute_parent|].
      assert (k0 <> nm) as Hk0.
      { intros ->. subst q.
        replace (segs ++ nm :: t) with ((segs ++ [nm]) ++ t) in Hnot
          by (by rewrite <- app_assoc).
        by rewrite changed_below in Hnot. }
      rewrite reroute_at. case_decide as E1; [|by rewrite decide_False].
      subst k0. destruct Hguard as [->|Hg]; [done|].
      rewrite walk_app, Hwd in H4. cbn [mbind option_bind] in H4.
      by rewrite walk_cons, Hk', Hg in H4.
  - by apply (unique_ren (heap st1) (heap st4) (root st1) d x segs nm new_name).
Qed.

Lemma tidy_rename esc st segs nm new_name :
  tidy st -> valid_segs (segs ++ [nm]) ->
  valid_segment new_name = true -> has_backslash new_name = false ->
  target_free st segs nm new_name ->
  tidy (snd (rename esc (path_of (segs ++ [nm])) new_name st)).
Proof. intros. by apply rename_tidy_spec. Qed.

(** *** runs with valid arguments *)


Theorem tidy_cache_coherent st : tidy st -> cache_coherent st.
Proof.
  intros [_ _ T3 _] q n Hq. unfold walk_from_root.
  destruct (T3 _ _ Hq) as [[-> ->]|(qs & H1 & H2 & -> & H4)]; [done|].
  assert (String.eqb (path_of qs) "/" = false) as ->.
  { by apply String.eqb_neq, path_of_not_root. }
  by rewrite split_strip_path_of.
Qed.

(** X13. In a run that starts from a new file system and makes calls with
    valid arguments only, the cache is coherent in every state. *)
Corollary tidy_run_cache_coherent esc st : tidy_run esc st -> cache_coherent st.
Proof.
  intros H. apply tidy_cache_coherent.
  induction H as [clk|c st _ IH Hc]; [apply tidy_init|].
  destruct Hc; cbn [exec].
  - by apply tidy_create_file.
  - by apply tidy_create_directory.
  - by apply tidy_write_file.
  - by apply tidy_read_file.
  - by apply tidy_delete.
  - by apply tidy_rename.
Qed.

(** X14. A successful [delete] of a valid path in a tidy state: the node is no
    child of its parent any more, no cache entry is left at or below the
    path, the parent's modified time is a reading of the clock made during
    the call, and neither the path nor a path below it resolves *)
Theorem delete_valid_path st st' segs nm :
  tidy st -> valid_segs (segs ++ [nm]) ->
  delete (path_of (segs ++ [nm])) st = (Ok true, st') ->
  exists d x,
    walk (heap st) segs (root st) = Some d
    /\ get_child (heap st) d nm = Some x
    /\ get_child (heap st') d nm = None
    /\ (forall q, changed (path_of (segs ++ [nm])) q = true ->
                  traversal_cache st' !! q = None)
    /\ (exists t, modified <$> heap st' !! d = Some t /\ clock st <= t < clock st')
    /\ forall below, valid_segs below ->
         _get_node_object_by_path (path_of ((segs ++ [nm]) ++ below)) st' = (None, st').
Proof.
  intros Ht Hv Hdel. destruct (delete_tidy_spec st segs nm Ht Hv) as [Ht' Hspec].
  rewrite Hdel in Ht', Hspec. cbn [fst snd] in *.
  destruct (Hspec eq_refl) as (d & x & Hd & Hx & Hgone & Hr & Hwalk & Hcache & Hmod).
  exists d, x. split_and!; try done.
  intros below Hb.
  assert (Hvb : valid_segs ((segs ++ [nm]) ++ below)) by (by apply Forall_app).
  pose proof (resolve_tidy st' _ Ht' Hvb) as H. cbv zeta in H.
  destruct (_get_node_object_by_path _ st') as [o st'']. cbn [fst snd] in H.
  destruct H as (Ho & _ & _ & _ & _ & _ & Hsame).
  rewrite <- app_assoc, Hr in Ho. cbn [app] in Ho. rewrite Hwalk in Ho. subst o.
  by rewrite (Hsame eq_refl).
Qed.

(** X15. A successful [rename] of a valid path in a tidy state to another valid
    name, free in the directory: the old path does not resolve, the new path
    resolves to the node that was at the old one, which keeps its content or
    children, and the other children of the directory are as before *)
Theorem rename_valid_path esc st st' segs nm new_name :
  tidy st -> valid_segs (segs ++ [nm]) ->
  valid_segment new_name = true -> has_backslash new_name = false ->
  new_name <> nm ->
  (forall d, walk (heap st) segs (root st) = Some d ->
             get_child (heap st) d new_name = None) ->
  rename esc (path_of (segs ++ [nm])) new_name st = (Ok true, st') ->
  exists d x,
    walk (heap st) segs (root st) = Some d
    /\ get_child (heap st) d nm = Some x
    /\ _get_node_object_by_path (path_of (segs ++ [nm])) st' = (None, st')
    /\ _get_node_object_by_path (path_of (segs ++ [new_name])) st' = (Some x, st')
    /\ (name <$> heap st' !! x) = Some new_name
    /\ (body <$> heap st' !! x) = (body <$> heap st !! x)
    /\ (forall k, k <> nm -> k <> new_name ->
                  get_child (heap st') d k = get_child (heap st) d k)
    /\ (forall y, y <> d -> body <$> heap st' !! y = body <$> heap st !! y).
Proof.
  intros Ht Hv Hnew Hbs Hne Hfree Hren.
  destruct (rename_tidy_spec esc st segs nm new_name Ht Hv Hnew Hbs (or_intror Hfree))
    as [Ht' Hspec].
  rewrite Hren in Ht', Hspec. cbn [fst snd] in *.
  destruct (Hspec eq_refl)
    as (d & x & Hd & Hx & Hr & Hkids & Hsame & Hwalk & Hbody & Hname & Hcache).
  pose proof (valid_segment_nonempty nm (valid_segs_last _ _ Hv)) as Hk.
  pose proof (valid_segment_nonempty new_name Hnew) as Hk'.
  assert (Hdx : d <> x).
  { intros ->. pose proof (get_child_lt st x nm x (tidy_store _ Ht) Hx). lia. }
  exists d, x. split_and!; try done.
  - pose proof (resolve_tidy st' _ Ht' Hv) as H. cbv zeta in H.
    destruct (_get_node_object_by_path _ st') as [o st'']. cbn [fst snd] in H.
    destruct H as (Ho & _ & _ & _ & _ & _ & Hsame').
    rewrite Hr, Hwalk, reroute_at in Ho.
    rewrite decide_False, decide_True in Ho by done.
    rewrite walk_app, Hd in Ho. cbn [mbind option_bind] in Ho.
    rewrite walk_cons, Hk', (Hfree d Hd) in Ho. subst o. by rewrite (Hsame' eq_refl).
  - apply resolve_hit. rewrite normalize_path_of by done. exact Hcache.
  - by apply Hbody.
  - intros k H1 H2. rewrite Hkids. by rewrite !decide_False.
Qed.

(** *** malformed paths *)



End TidyStates.

(** ** UTF-8 *)

Local Ltac Zify.zify_post_hook ::= Z.to_euclidean_division_equations.

Section Utf8Facts.
Import Utf8.

Ltac bools :=
  repeat match goal with
  | H : (_ && _)%bool = true |- _ => apply andb_prop in H as [? ?]
  | H : (_ <=? _)%N = true |- _ => apply N.leb_le in H
  | H : (_ <? _)%N = true |- _ => apply N.ltb_lt in H
  | H : (_ <? _)%N = false |- _ => apply N.ltb_ge in H
  | H : (_ =? _)%N = true |- _ => apply N.eqb_eq in H
  | H : (_ =? _)%N = false |- _ => apply N.eqb_neq in H
  end.

Lemma second_ok_range b0 b1 :
  second_ok b0 b1 = true ->
  (128 <= b1 <= 191)%N
  /\ (b0 = 224 -> 160 <= b1)%N /\ (b0 = 237 -> b1 <= 159)%N
  /\ (b0 = 240 -> 144 <= b1)%N /\ (b0 = 244 -> b1 <= 143)%N.
Proof.
  unfold second_ok, in_range, cont.
  destruct (b0 =? 224)%N eqn:E1; [|destruct (b0 =? 237)%N eqn:E2;
    [|destruct (b0 =? 240)%N eqn:E3; [|destruct (b0 =? 244)%N eqn:E4]]];
  intros H; bools; lia.
Qed.

Lemma encode_cp_1 b0 : (b0 < 128)%N -> encode_cp b0 = Some [b0].
Proof. intros H. unfold encode_cp. apply N.ltb_lt in H. by rewrite H. Qed.

Lemma encode_cp_2 b0 b1 :
  in_range 194 223 b0 = true -> cont b1 = true ->
  encode_cp ((b0 - 192) * 64 + (b1 - 128)) = Some [b0; b1].
Proof.
  unfold in_range, cont. intros H0 H1. bools.
  unfold encode_cp.
  destruct (N.ltb_spec ((b0 - 192) * 64 + (b1 - 128)) 128); [lia|].
  destruct (N.ltb_spec ((b0 - 192) * 64 + (b1 - 128)) 2048); [|lia].
  f_equal. f_equal; [|f_equal].
  - assert (((b0 - 192) * 64 + (b1 - 128)) / 64 = b0 - 192)%N; [|lia].
    rewrite N.div_add_l by lia. rewrite N.div_small by lia. lia.
  - assert (((b0 - 192) * 64 + (b1 - 128)) mod 64 = b1 - 128)%N; [|lia].
    rewrite N.add_comm, N.Div0.mod_add. apply N.mod_small. lia.
Qed.


Lemma encode_cp_3 b0 b1 b2 :
  in_range 224 239 b0 = true -> second_ok b0 b1 = true -> cont b2 = true ->
  encode_cp ((b0 - 224) * 4096 + (b1 - 128) * 64 + (b2 - 128)) = Some [b0; b1; b2].
Proof.
  unfold in_range, cont. intros H0 H1%second_ok_range H2. bools.
  destruct H1 as (? & ? & ? & _).
  unfold encode_cp, in_range.
  set (cp := ((b0 - 224) * 4096 + (b1 - 128) * 64 + (b2 - 128))%N).
  assert (Hcp : (cp = (b0 - 224) * 4096 + (b1 - 128) * 64 + (b2 - 128))%N) by done.
  clearbody cp.
  destruct (N.ltb_spec cp 128); [lia|].
  destruct (N.ltb_spec cp 2048); [lia|].
  destruct (N.ltb_spec cp 65536); [|lia].
  destruct (N.leb_spec 55296 cp); destruct (N.leb_spec cp 57343); simpl; try lia;
  (f_equal; f_equal; [|f_equal; [|f_equal]]; lia).
Qed.

Lemma encode_cp_4 b0 b1 b2 b3 :
  in_range 240 244 b0 = true -> second_ok b0 b1 = true -> cont b2 = true -> cont b3 = true ->
  encode_cp ((b0 - 240) * 262144 + (b1 - 128) * 4096 + (b2 - 128) * 64 + (b3 - 128))
  = Some [b0; b1; b2; b3].
Proof.
  unfold in_range, cont. intros H0 H1%second_ok_range H2 H3. bools.
  destruct H1 as (? & _ & _ & ? & ?).
  unfold encode_cp, in_range.
  set (cp := ((b0 - 240) * 262144 + (b1 - 128) * 4096 + (b2 - 128) * 64 + (b3 - 128))%N).
  assert (Hcp : (cp = (b0 - 240) * 262144 + (b1 - 128) * 4096 + (b2 - 128) * 64 + (b3 - 128))%N) by done.
  clearbody cp.
  destruct (N.ltb_spec cp 128); [lia|].
  destruct (N.ltb_spec cp 2048); [lia|].
  destruct (N.ltb_spec cp 65536); [lia|].
  destruct (N.ltb_spec cp 1114112); [|lia].
  f_equal; f_equal; [|f_equal; [|f_equal; [|f_equal]]]; lia.
Qed.

Lemma decode_go_encode_go l :
  forall s, decode_go l = Some s -> encode_go s = Some l.
Proof.
  induction l as [l IH] using (induction_ltof1 _ (@length N)). unfold ltof in IH.
  intros s. destruct l as [|b0 r]; [intros [= <-]; done|].
  cbn [decode_go].
  destruct (b0 <? 128)%N eqn:E1.
  { destruct (decode_go r) as [s'|] eqn:Hr; [|done]. intros [= <-].
    cbn [encode_go]. rewrite encode_cp_1 by (by apply N.ltb_lt).
    rewrite (IH r) with (s := s') by (simpl; lia || done). done. }
  destruct (in_range 194 223 b0) eqn:E2.
  { destruct r as [|b1 r1]; [done|]. destruct (cont b1) eqn:C1; [|done].
    destruct (decode_go r1) as [s'|] eqn:Hr; [|done]. intros [= <-].
    cbn [encode_go]. rewrite encode_cp_2 by done.
    rewrite (IH r1) with (s := s') by (simpl; lia || done). done. }
  destruct (in_range 224 239 b0) eqn:E3.
  { destruct r as [|b1 [|b2 r2]]; [done..|].
    destruct (second_ok b0 b1 && cont b2) eqn:C; [|done].
    apply andb_prop in C as [C1 C2].
    destruct (decode_go r2) as [s'|] eqn:Hr; [|done]. intros [= <-].
    cbn [encode_go]. rewrite encode_cp_3 by done.
    rewrite (IH r2) with (s := s') by (simpl; lia || done). done. }
  destruct (in_range 240 244 b0) eqn:E4; [|done].
  destruct r as [|b1 [|b2 [|b3 r3]]]; [done..|].
  destruct (second_ok b0 b1 && cont b2 && cont b3) eqn:C; [|done].
  apply andb_prop in C as [C C3]. apply andb_prop in C as [C1 C2].
  destruct (decode_go r3) as [s'|] eqn:Hr; [|done]. intros [= <-].
  cbn [encode_go]. rewrite encode_cp_4 by done.
  rewrite (IH r3) with (s := s') by (simpl; lia || done). done.
Qed.

Lemma byte_of_to_N b : byte_of (Byte.to_N b) = b.
Proof. unfold byte_of. by rewrite Byte.of_to_N. Qed.

Lemma decode_encode bs s : decode bs = Some s -> encode s = Some bs.
Proof.
  unfold decode, encode. intros H%decode_go_encode_go. rewrite H. cbn.
  f_equal. rewrite map_map. rewrite <- (map_id bs) at 2.
  apply map_ext. intros b. apply byte_of_to_N.
Qed.

End Utf8Facts.

(** ** Serialisation succeeds on valid content only *)











(** * Further properties of the operations *)

(** ** Normalisation *)

Section Normalise.
Import Str Re.

Lemma startswith_slash s : startswith (String slash s) "/" = true.
Proof. by destruct s. Qed.

Lemma normalize_head p : exists q, _normalize_path p = String slash q.
Proof.
  unfold _normalize_path. destruct (String.eqb p "") eqn:E.
  - exists "". reflexivity.
  - destruct (startswith p "/") eqn:Hs.
    + destruct p as [|a p]; [done|]. unfold startswith in Hs. cbn [String.prefix] in Hs.
      destruct (ascii_dec "/" a) as [<-|]; [|done].
      destruct p as [|b p]; [by eexists|].
      destruct (negb _ && _); [|by eexists]. cbn [drop_last]. by eexists.
    + change ("/" +:+ p) with (String slash p).
      destruct p as [|b p]; [done|].
      destruct (negb _ && _); [|by eexists]. cbn [drop_last]. by eexists.
Qed.

Lemma drop_last_differs c s : drop_last (String c s) <> String c s.
Proof.
  revert c. induction s as [|a s IH]; intros c; [done|].
  cbn [drop_last]. intros [= H]. by apply (IH a).
Qed.

Lemma normalize_of_slash q :
  _normalize_path (String slash q) =
  if negb (String.eqb (String slash q) "/") && endswith_slash (String slash q)
  then drop_last (String slash q) else String slash q.
Proof.
  unfold _normalize_path. change (String.eqb (String slash q) "") with false. cbv iota.
  by rewrite startswith_slash.
Qed.

(** X1. [_normalize_path] gives a path that begins with the separator, and
    takes off one trailing separator only: normalising the result again
    changes nothing exactly when the result is ["/"] or does not end with a
    separator. *)
Theorem normalize_path_once p :
  (exists q, _normalize_path p = String slash q)
  /\ (_normalize_path (_normalize_path p) = _normalize_path p
      <-> _normalize_path p = "/" \/ endswith_slash (_normalize_path p) = false)
  /\ _normalize_path (_normalize_path "a//") <> _normalize_path "a//".
Proof.
  split; [apply normalize_head|]. split; [|done].
  destruct (normalize_head p) as [q ->]. rewrite normalize_of_slash.
  destruct (String.eqb (String slash q) "/") eqn:E.
  - apply String.eqb_eq in E. cbn. tauto.
  - apply String.eqb_neq in E. cbn [negb andb].
    destruct (endswith_slash (String slash q)).
    + split; [intros H; by apply drop_last_differs in H|]. by intros [?|?].
    + tauto.
Qed.

End Normalise.

(** ** Resolution and the cache *)

Lemma resolve_none p st st1 :
  _get_node_object_by_path p st = (None, st1) -> st1 = st.
Proof.
  unfold _get_node_object_by_path.
  destruct (traversal_cache st !! _normalize_path p); [done|].
  destruct (String.eqb _ _); [done|]. destruct (walk _ _ _); [done|]. by intros [= <-].
Qed.

(** what a resolution of [q] returns is not changed by an earlier resolution *)
Lemma resolve_after_resolve q p st :
  fst (_get_node_object_by_path q (snd (_get_node_object_by_path p st)))
  = fst (_get_node_object_by_path q st).
Proof.
  unfold _get_node_object_by_path at 2.
  destruct (traversal_cache st !! _normalize_path p) eqn:Hp; [done|].
  destruct (String.eqb (_normalize_path p) "/") eqn:Er; [done|].
  destruct (walk (heap st) _ (root st)) as [c|] eqn:Hw; [|done].
  cbn [snd]. unfold _get_node_object_by_path, with_cache. cbn [traversal_cache heap root].
  destruct (decide (_normalize_path q = _normalize_path p)) as [E|Hne].
  - rewrite E, lookup_insert_eq, Hp, Er, Hw. done.
  - rewrite lookup_insert_ne by done.
    destruct (traversal_cache st !! _normalize_path q); [done|].
    destruct (String.eqb (_normalize_path q) "/"); [done|].
    by destruct (walk (heap st) (Str.split_slash (Str.strip_slash (_normalize_path q)))
                      (root st)).
Qed.

(** X2. Resolving a path a second time returns the same node and leaves the
    file system object, cache included, as the first resolution left it. *)
Theorem resolve_twice p st :
  let r := _get_node_object_by_path p st in
  _get_node_object_by_path p (snd r) = r.
Proof.
  cbv zeta. destruct (_get_node_object_by_path p st) as [[d|] st1] eqn:E; cbn [snd].
  - destruct (resolve_again p st d st1 E) as [H|(H1 & H2 & ->)].
    + by apply resolve_hit.
    + by apply resolve_root.
  - apply resolve_none in E as E'. subst st1. exact E.
Qed.

(** X3. In a state whose cache is coherent the cache is transparent: a
    resolution returns the node that the walk from the root finds, and leaves
    the cache coherent. *)
Theorem resolve_on_coherent_cache p st :
  cache_coherent st ->
  let r := _get_node_object_by_path p st in
  fst r = walk_from_root st (_normalize_path p) /\ cache_coherent (snd r).
Proof.
  intros Hc. cbv zeta. unfold _get_node_object_by_path, walk_from_root.
  destruct (traversal_cache st !! _normalize_path p) as [n|] eqn:Hp.
  - split; [|done]. cbn [fst]. symmetry. apply (Hc _ _ Hp).
  - destruct (String.eqb (_normalize_path p) "/") eqn:Er; [by cbn|].
    destruct (walk (heap st) _ (root st)) as [c|] eqn:Hw; [|by cbn].
    split; [done|]. cbn [snd]. intros q n. unfold with_cache. cbn [traversal_cache].
    unfold walk_from_root. cbn [heap root].
    destruct (decide (q = _normalize_path p)) as [->|Hne].
    + rewrite lookup_insert_eq, Er. by intros [= <-].
    + rewrite lookup_insert_ne by done. apply Hc.
Qed.

Lemma resolve_on_coherent_cache_witness :
  cache_coherent (VirtualFileSystem_init 0)
  /\ fst (_get_node_object_by_path "/a" tree_a) = walk_from_root tree_a "/a"
  /\ cache_coherent (snd (_get_node_object_by_path "/a" tree_a)).
Proof.
  assert (H0 : cache_coherent (VirtualFileSystem_init 0)).
  { intros q n. unfold VirtualFileSystem_init. cbn.
    intros [<- <-]%lookup_singleton_Some. reflexivity. }
  assert (H1 : cache_coherent tree_a).
  { intros q n. change (traversal_cache tree_a) with ({["/" := 0; "/a" := 1]} : gmap string nat).
    intros [[<- <-]|[_ [<- <-]%lookup_singleton_Some]]%lookup_insert_Some;
      vm_compute; reflexivity. }
  split; [exact H0|]. exact (resolve_on_coherent_cache "/a" tree_a H1).
Defined.

(** ** Which paths make an operation raise *)

Section Raising.
Import Str Re.

Lemma dotstar_slash_occurs s : dotstar_slash s = true -> occurs slash s = true.
Proof.
  induction s as [|c s IH]; [done|]. cbn [dotstar_slash occurs].
  destruct (Ascii.eqb c slash); [done|]. destruct (Ascii.eqb c newline); [done|]. exact IH.
Qed.

Lemma search_name_no_slash s : occurs slash s = false -> search_name s = None.
Proof.
  induction s as [|c s IH]; [done|]. cbn [occurs]. intros [H1 H2]%orb_false_elim.
  cbn [search_name name_match_at]. rewrite H1. cbn [andb]. by apply IH.
Qed.

Lemma dotstar_end_no_newline s : occurs newline s = false -> dotstar_end s = Some s.
Proof.
  induction s as [|c s IH]; [done|]. cbn [occurs]. intros [H1 H2]%orb_false_elim.
  cbn [dotstar_end]. rewrite H1, (IH H2). done.
Qed.

Lemma search_name_slash s :
  occurs slash s = true -> occurs newline s = false -> is_Some (search_name s).
Proof.
  induction s as [|c s IH]; [done|]. cbn [occurs].
  intros Hs [H1 H2]%orb_false_elim.
  cbn [search_name name_match_at].
  destruct (Ascii.eqb c slash && negb (dotstar_slash s)) eqn:E.
  - rewrite (dotstar_end_no_newline s H2). by eexists.
  - apply IH; [|done]. apply andb_false_iff in E as [E|E].
    + by rewrite E in Hs.
    + apply negb_false_iff in E. by apply dotstar_slash_occurs.
Qed.

Lemma occurs_dotstar_slash s : occurs slash s = false -> dotstar_slash s = false.
Proof.
  intros H. destruct (dotstar_slash s) eqn:E; [|done].
  apply dotstar_slash_occurs in E. congruence.
Qed.

Lemma search_parent_slash s : occurs slash s = true -> is_Some (search_parent s).
Proof.
  induction s as [|c s IH]; [done|]. cbn [occurs]. intros Hs.
  cbn [search_parent]. destruct (parent_match_at (String c s)) eqn:E; [by eexists|].
  destruct (occurs slash s) eqn:Ho; [by apply IH|].
  rewrite orb_false_r in Hs. exfalso. cbn [parent_match_at] in E.
  apply Ascii.eqb_eq in Hs. subst c. change (Ascii.eqb slash newline) with false in E.
  cbv iota in E. destruct (parent_match_at s); [done|].
  unfold at_last_slash in E. rewrite (occurs_dotstar_slash s Ho) in E. done.
Qed.

Lemma normalize_has_slash p : occurs slash (_normalize_path p) = true.
Proof. destruct (normalize_head p) as [q ->]. done. Qed.

Lemma occurs_root : forall p, occurs slash p = false -> String.eqb p "/" = false.
Proof. intros p H. apply String.eqb_neq. by intros ->. Qed.

(** the parent and the name of a path that has no separator: AttributeError *)
Lemma parent_and_name_no_slash p st :
  occurs slash p = false ->
  _get_parent_directory_and_name p st = (Raise AttributeError, st).
Proof.
  intros H. unfold _get_parent_directory_and_name.
  rewrite (occurs_root p H), (search_name_no_slash p H).
  by destruct (search_parent (_normalize_path p)).
Qed.

(** the parent and the name of a path with a separator and no line feed *)
Lemma parent_and_name_slash p st :
  occurs slash p = true -> occurs newline p = false ->
  exists o nm, fst (_get_parent_directory_and_name p st) = Ok (o, nm).
Proof.
  intros H1 H2. unfold _get_parent_directory_and_name.
  destruct (String.eqb p "/"); [by eexists _, _|].
  destruct (search_parent_slash _ (normalize_has_slash p)) as [pp ->].
  destruct (search_name_slash p H1 H2) as [m ->]. cbn [group].
  destruct (_get_node_object_by_path pp st) as [[d|] st1]; [|by eexists _, _].
  destruct (children_of (heap st1) d); by eexists _, _.
Qed.

End Raising.

Section RaisingOperations.
Import Str Re.

Variable escaped_template : string -> outcome string.

(** X4. A path without a separator makes [create_directory], [create_file],
    [delete] and [rename] raise AttributeError and leaves the file system
    object as it was; [write_file] does the same unless the path resolves. *)
Theorem no_separator_raises path content new_name st :
  occurs slash path = false ->
  create_directory path st = (Raise AttributeError, st)
  /\ create_file path content st = (Raise AttributeError, st)
  /\ delete path st = (Raise AttributeError, st)
  /\ rename escaped_template path new_name st = (Raise AttributeError, st)
  /\ (fst (_get_node_object_by_path path st) = None ->
      write_file path content st = (Raise AttributeError, st)).
Proof.
  intros H. pose proof (parent_and_name_no_slash path st H) as E.
  unfold create_directory, create_file, delete, rename, write_file. rewrite E.
  split_and!; try done.
  destruct (_get_node_object_by_path path st) as [[d|] st1] eqn:Hr; [done|].
  intros _. apply resolve_none in Hr. subst st1.
  by rewrite (parent_and_name_no_slash path st H).
Qed.

Lemma has_backslash_template new_name :
  has_backslash new_name = false -> expand_template escaped_template ("/" +:+ new_name)
                                    = Ok ("/" +:+ new_name).
Proof.
  intros H. unfold expand_template. change ("/" +:+ new_name) with (String slash new_name).
  cbn [has_backslash]. by rewrite H.
Qed.

(** X5. On a path that has a separator and no line feed the operations
    return a result: none of them raises ([rename] when the new name has no
    backslash). *)
Theorem separator_never_raises path content new_name st :
  occurs slash path = true -> occurs newline path = false ->
  is_ok (fst (create_directory path st))
  /\ is_ok (fst (create_file path content st))
  /\ is_ok (fst (write_file path content st))
  /\ is_ok (fst (delete path st))
  /\ (has_backslash new_name = false ->
      is_ok (fst (rename escaped_template path new_name st))).
Proof.
  intros H1 H2.
  assert (Hp : forall s, exists o nm s', _get_parent_directory_and_name path s = (Ok (o, nm), s')).
  { intros s. destruct (parent_and_name_slash path s H1 H2) as (o & nm & E).
    destruct (_get_parent_directory_and_name path s) as [r s']. cbn in E. subst r.
    by eexists _, _, _. }
  split_and!.
  - unfold create_directory. destruct (Hp st) as (o & nm & s' & ->).
    destruct o as [d|]; [|done]. by destruct (get_child (heap s') d nm).
  - unfold create_file. destruct (Hp st) as (o & nm & s' & ->).
    destruct o as [d|]; [|done]. by destruct (get_child (heap s') d nm).
  - unfold write_file. destruct (_get_node_object_by_path path st) as [[f|] st1].
    + by destruct (content_of (heap st1) f).
    + destruct (Hp st1) as (o & nm & s' & ->). by destruct o.
  - unfold delete. destruct (Hp st) as (o & nm & s' & ->).
    destruct o as [d|]; [|done].
    destruct (_get_node_object_by_path path s') as [[x|] st2]; [|done].
    by destruct (Nat.eqb x (root st2)).
  - intros Hb. unfold rename. destruct (Hp st) as (o & nm & s' & ->).
    destruct o as [d|]; [|done].
    destruct (get_child (heap s') d nm); [|done].
    by rewrite (has_backslash_template new_name Hb).
Qed.

End RaisingOperations.

Lemma no_separator_raises_witness :
  occurs Str.slash "notes.txt" = false
  /\ create_directory "notes.txt" fresh_vfs = (Raise AttributeError, fresh_vfs)
  /\ create_file "notes.txt" [] fresh_vfs = (Raise AttributeError, fresh_vfs)
  /\ delete "notes.txt" fresh_vfs = (Raise AttributeError, fresh_vfs)
  /\ rename (fun _ => Raise ReError) "notes.txt" "n" fresh_vfs = (Raise AttributeError, fresh_vfs)
  /\ (fst (_get_node_object_by_path "notes.txt" fresh_vfs) = None ->
      write_file "notes.txt" [] fresh_vfs = (Raise AttributeError, fresh_vfs)).
Proof.
  split; [reflexivity|].
  exact (no_separator_raises _ "notes.txt" [] "n" fresh_vfs eq_refl).
Defined.

Lemma separator_never_raises_witness :
  occurs Str.slash "/a//b/" = true /\ occurs Str.newline "/a//b/" = false
  /\ is_ok (fst (create_directory "/a//b/" tree_a))
  /\ is_ok (fst (create_file "/a//b/" [] tree_a))
  /\ is_ok (fst (write_file "/a//b/" [] tree_a))
  /\ is_ok (fst (delete "/a//b/" tree_a))
  /\ (Str.has_backslash "c" = false ->
      is_ok (fst (rename (fun _ => Raise ReError) "/a//b/" "c" tree_a))).
Proof.
  split; [reflexivity|]. split; [reflexivity|].
  exact (separator_never_raises _ "/a//b/" [] "c" tree_a eq_refl eq_refl).
Defined.

(** ** Operations that fail *)

Lemma same_but_cache_refl st : same_but_cache st st.
Proof. by repeat split. Qed.

Lemma same_but_cache_trans st1 st2 st3 :
  same_but_cache st1 st2 -> same_but_cache st2 st3 -> same_but_cache st1 st3.
Proof.
  intros (A1 & A2 & A3 & A4 & A5) (B1 & B2 & B3 & B4 & B5).
  repeat split; try congruence. by etrans.
Qed.

Lemma same_but_cache_resolve p st :
  same_but_cache st (snd (_get_node_object_by_path p st)).
Proof. pose proof (resolve_frame p st) as H. cbv zeta in H. exact H. Qed.

Lemma same_but_cache_parent p st :
  same_but_cache st (snd (_get_parent_directory_and_name p st)).
Proof.
  pose proof (parent_and_name_frame p st) as H. cbv zeta in H.
  destruct H as (H1 & H2 & H3 & H4 & H5 & _). by repeat split.
Qed.

Section FailedOperations.

Variable escaped_template : string -> outcome string.

Lemma create_directory_failed path st :
  fst (create_directory path st) <> Ok true ->
  same_but_cache st (snd (create_directory path st)).
Proof.
  pose proof (same_but_cache_parent path st) as Hp. unfold create_directory.
  destruct (_get_parent_directory_and_name path st) as [[[[d|] nm]|e] st1]; try done.
  cbn [snd] in Hp. by destruct (get_child (heap st1) d nm).
Qed.

Lemma create_file_failed path content st :
  fst (create_file path content st) <> Ok true ->
  same_but_cache st (snd (create_file path content st)).
Proof.
  pose proof (same_but_cache_parent path st) as Hp. unfold create_file.
  destruct (_get_parent_directory_and_name path st) as [[[[d|] nm]|e] st1]; try done.
  cbn [snd] in Hp. by destruct (get_child (heap st1) d nm).
Qed.

Lemma write_file_failed path content st :
  fst (write_file path content st) <> Ok true ->
  same_but_cache st (snd (write_file path content st)).
Proof.
  unfold write_file. pose proof (same_but_cache_resolve path st) as Hr.
  destruct (_get_node_object_by_path path st) as [[f|] st1]; cbn [snd] in Hr.
  - by destruct (content_of (heap st1) f).
  - pose proof (same_but_cache_parent path st1) as Hq.
    destruct (_get_parent_directory_and_name path st1) as [[[[d|] nm]|e] st2];
      cbn [snd] in *; try done; intros _; by eapply same_but_cache_trans.
Qed.

Lemma delete_failed path st :
  fst (delete path st) <> Ok true -> same_but_cache st (snd (delete path st)).
Proof.
  pose proof (same_but_cache_parent path st) as Hp. unfold delete.
  destruct (_get_parent_directory_and_name path st) as [[[[d|] nm]|e] st1]; try done.
  cbn [snd] in Hp. pose proof (same_but_cache_resolve path st1) as Hr.
  destruct (_get_node_object_by_path path st1) as [[x|] st2]; cbn [snd] in Hr.
  - destruct (Nat.eqb x (root st2)); [|done]. intros _. by eapply same_but_cache_trans.
  - intros _. by eapply same_but_cache_trans.
Qed.

Lemma rename_false path new_name st :
  fst (rename escaped_template path new_name st) = Ok false ->
  same_but_cache st (snd (rename escaped_template path new_name st)).
Proof.
  pose proof (same_but_cache_parent path st) as Hp. unfold rename.
  destruct (_get_parent_directory_and_name path st) as [[[[d|] nm]|e] st1]; try done.
  cbn [snd] in Hp. destruct (get_child (heap st1) d nm); [|done].
  by destruct (expand_template escaped_template ("/" +:+ new_name)).
Qed.

Lemma rename_failed path new_name st :
  Str.has_backslash new_name = false ->
  fst (rename escaped_template path new_name st) <> Ok true ->
  same_but_cache st (snd (rename escaped_template path new_name st)).
Proof.
  pose proof (same_but_cache_parent path st) as Hp. intros Hb. unfold rename.
  destruct (_get_parent_directory_and_name path st) as [[[[d|] nm]|e] st1]; try done.
  cbn [snd] in Hp. destruct (get_child (heap st1) d nm); [|done].
  by rewrite (has_backslash_template escaped_template new_name Hb).
Qed.

(** X6. An operation that does not return [True] has changed no object: the
    store, the clock and the root are as before and the cache has at most
    gained entries. For [rename] this holds when it returns [False], and
    when it raises on a new name without backslash. *)
Theorem failed_operation_changes_nothing path content new_name st :
  (fst (create_directory path st) <> Ok true ->
   same_but_cache st (snd (create_directory path st)))
  /\ (fst (create_file path content st) <> Ok true ->
      same_but_cache st (snd (create_file path content st)))
  /\ (fst (write_file path content st) <> Ok true ->
      same_but_cache st (snd (write_file path content st)))
  /\ (fst (delete path st) <> Ok true -> same_but_cache st (snd (delete path st)))
  /\ (fst (rename escaped_template path new_name st) = Ok false ->
      same_but_cache st (snd (rename escaped_template path new_name st)))
  /\ (Str.has_backslash new_name = false ->
      fst (rename escaped_template path new_name st) <> Ok true ->
      same_but_cache st (snd (rename escaped_template path new_name st))).
Proof.
  split_and!.
  - apply create_directory_failed.
  - apply create_file_failed.
  - apply write_file_failed.
  - apply delete_failed.
  - apply rename_false.
  - apply rename_failed.
Qed.

End FailedOperations.

(** ** The root directory *)

(** what a resolution returns after the parent of a path was looked up *)
Lemma resolve_after_parent q p st :
  fst (_get_node_object_by_path q (snd (_get_parent_directory_and_name p st)))
  = fst (_get_node_object_by_path q st).
Proof.
  unfold _get_parent_directory_and_name.
  destruct (String.eqb p "/"); [done|].
  destruct (group (Re.search_parent (_normalize_path p))) as [pp|e]; [|done].
  destruct (group (Re.search_name p)) as [m|e]; [|done].
  pose proof (resolve_after_resolve q pp st) as H.
  destruct (_get_node_object_by_path pp st) as [[d|] st1]; cbn [snd] in *; [|done].
  by destruct (children_of (heap st1) d).
Qed.

(** X7. The root directory is not deleted: [delete] of a path that resolves
    to the root does not return [True] and changes no object. *)
Theorem delete_spares_root path st :
  fst (_get_node_object_by_path path st) = Some (root st) ->
  fst (delete path st) <> Ok true /\ same_but_cache st (snd (delete path st)).
Proof.
  intros Hr.
  assert (fst (delete path st) <> Ok true) as Hne; [|split; [done|]].
  - unfold delete.
    pose proof (resolve_after_parent path path st) as Ha.
    pose proof (same_but_cache_parent path st) as (_ & _ & _ & Hroot & _).
    destruct (_get_parent_directory_and_name path st) as [[[[d|] nm]|e] st1]; try done.
    cbn [snd] in *. rewrite Hr in Ha.
    pose proof (same_but_cache_resolve path st1) as (_ & _ & _ & Hroot2 & _).
    destruct (_get_node_object_by_path path st1) as [[x|] st2]; [|done].
    cbn [fst snd] in *. injection Ha as ->.
    rewrite Hroot2, Hroot, Nat.eqb_refl. done.
  - by apply delete_failed.
Qed.

Lemma delete_spares_root_witness :
  fst (_get_node_object_by_path "//" tree_a) = Some (root tree_a)
  /\ fst (delete "//" tree_a) <> Ok true
  /\ same_but_cache tree_a (snd (delete "//" tree_a)).
Proof.
  split; [reflexivity|]. exact (delete_spares_root "//" tree_a eq_refl).
Defined.

(** ** Writing, then reading *)

Lemma file_data_alter (h : gmap nat Node) f i y :
  (forall n, file_data (f n) = file_data n) ->
  file_data <$> alter f i h !! y = file_data <$> h !! y.
Proof.
  intros Hf. destruct (decide (y = i)) as [->|Hne].
  - rewrite lookup_alter_eq. destruct (h !! i); cbn; [by rewrite Hf|done].
  - by rewrite lookup_alter_ne.
Qed.

Lemma file_data_update_timestamp self f st y :
  file_data <$> heap (update_timestamp_metadata self f st) !! y = file_data <$> heap st !! y.
Proof.
  unfold update_timestamp_metadata. cbn [heap]. apply file_data_alter.
  intros n. by destruct f.
Qed.

Lemma file_data_add_child d c st y :
  file_data <$> heap (add_child d c st) !! y = file_data <$> heap st !! y.
Proof.
  unfold add_child. destruct (heap st !! c) as [n|]; [|done].
  rewrite file_data_update_timestamp. unfold with_heap. cbn [heap].
  rewrite file_data_alter by done.
  apply file_data_alter. intros x. unfold on_children, file_data.
  destruct (body x) eqn:E; cbn; by rewrite ?E.
Qed.

Lemma content_of_file_data h y c sz :
  file_data <$> h !! y = Some (Some (c, sz)) -> content_of h y = Some c.
Proof.
  unfold content_of, file_data. destruct (h !! y) as [n|]; [|done]. cbn.
  destruct (body n); by intros [= <- <-].
Qed.

Lemma read_what_is_there p st f c sz :
  _get_node_object_by_path p st = (Some f, st) ->
  file_data <$> heap st !! f = Some (Some (c, sz)) ->
  fst (read_file p st) = Some c.
Proof.
  intros Hr Hf. unfold read_file. rewrite Hr.
  rewrite (content_of_file_data _ _ _ _ Hf). unfold FileNode_read. cbn [fst].
  apply (content_of_file_data _ _ _ sz). by rewrite file_data_update_timestamp.
Qed.

Lemma attach_file_data nm d content st :
  file_data <$> heap (add_child d (next_id st) (snd (FileNode nm (Some d) content st)))
                !! next_id st
  = Some (Some (content, length content)).
Proof.
  rewrite file_data_add_child. unfold FileNode, new_node. cbn [snd heap].
  by rewrite lookup_insert_eq.
Qed.

(** X8. When [write_file] or [create_file] returns [True], a [read_file] of
    the same path returns the content that was given, and the file object the
    path resolves to has that content and its length as size. *)
Theorem written_content_is_read path content st :
  (forall st', write_file path content st = (Ok true, st') ->
     fst (read_file path st') = Some content
     /\ exists f, _get_node_object_by_path path st' = (Some f, st')
                  /\ file_data <$> heap st' !! f = Some (Some (content, length content)))
  /\ (forall st', create_file path content st = (Ok true, st') ->
     fst (read_file path st') = Some content
     /\ exists f, _get_node_object_by_path path st' = (Some f, st')
                  /\ file_data <$> heap st' !! f = Some (Some (content, length content))).
Proof.
  assert (Hgen : forall st' f,
             _get_node_object_by_path path st' = (Some f, st') ->
             file_data <$> heap st' !! f = Some (Some (content, length content)) ->
             fst (read_file path st') = Some content
             /\ exists f, _get_node_object_by_path path st' = (Some f, st')
                  /\ file_data <$> heap st' !! f = Some (Some (content, length content))).
  { intros st' f H1 H2. split; [by eapply read_what_is_there|by exists f]. }
  split; intros st'.
  - unfold write_file.
    destruct (_get_node_object_by_path path st) as [[f|] st1] eqn:Hr.
    + destruct (content_of (heap st1) f) as [c0|] eqn:Hc; [|done]. intros [= <-].
      apply (Hgen _ f).
      * apply (resolve_stable path st f st1); [done..|].
        done.
      * unfold FileNode_write. rewrite !file_data_update_timestamp.
        unfold with_heap. cbn [heap]. rewrite lookup_alter_eq.
        unfold content_of in Hc. destruct (heap st1 !! f) as [n|]; [|done]. cbn.
        unfold file_data. by destruct (body n).
    + destruct (_get_parent_directory_and_name path st1) as [[[[d|] nm]|e] st2]; try done.
      intros [= <-]. apply (Hgen _ (next_id st2)).
      * apply resolve_hit. unfold with_cache. cbn [traversal_cache].
        by rewrite lookup_insert_eq.
      * unfold with_cache. cbn [heap]. apply attach_file_data.
  - unfold create_file.
    destruct (_get_parent_directory_and_name path st) as [[[[d|] nm]|e] st1]; try done.
    destruct (get_child (heap st1) d nm); [done|].
    intros [= <-]. apply (Hgen _ (next_id st1)).
    + apply resolve_hit. unfold with_cache. cbn [traversal_cache].
      by rewrite lookup_insert_eq.
    + unfold with_cache. cbn [heap]. apply attach_file_data.
Qed.

(** ** What [from_dict] raises *)

Lemma encodable_dir cr ac mo l :
  encodable (DirData cr ac mo (Some l)) = forallb (fun kv => encodable (snd kv)) l.
Proof.
  cbn [encodable]. induction l as [|[k d] l IH]; [done|]. cbn [forallb snd]. by rewrite IH.
Qed.

Lemma construct_items_outcome dir l :
  Forall (fun kv => construct_outcome (snd kv)) l ->
  forall st,
    match fst (construct_items _construct_node dir l st) with
    | Ok _ => forallb (fun kv => encodable (snd kv)) l = true
    | Raise e => e = UnicodeEncodeError /\ forallb (fun kv => encodable (snd kv)) l = false
    end.
Proof.
  induction 1 as [|[k d] l Hd _ IH]; intros st; [done|].
  cbn [construct_items forallb snd]. specialize (Hd k (Some dir) st). cbn [snd] in Hd.
  destruct (_construct_node k d (Some dir) st) as [[c|e] st1]; cbn [fst] in Hd.
  - rewrite Hd. cbn [andb]. apply IH.
  - destruct Hd as [-> ->]. done.
Qed.

Lemma construct_outcome_all data : construct_outcome data.
Proof.
  induction data as [cr ac mo sz ct|cr ac mo|cr ac mo l IH] using NodeData_ind';
    intros nm par st.
  - cbn [_construct_node FileNode new_node encodable].
    destruct ct as [[s|b]|]; [|done..]. by destruct (Utf8.encode s).
  - done.
  - rewrite encodable_dir. cbn [_construct_node DirectoryNode new_node].
    apply construct_items_outcome, IH.
Qed.

(** X9. [from_dict] raises IndexError on the empty dictionary; on another
    one it looks at the first item only, returns a file system when every
    [str] content in it can be encoded as UTF-8, and raises
    UnicodeEncodeError otherwise. It raises nothing else. *)
Theorem from_dict_outcome clk data :
  match from_dict clk data with
  | Ok st =>
      exists root_name root_data rest,
        data = (root_name, root_data) :: rest /\ encodable root_data = true
  | Raise e =>
      (data = [] /\ e = IndexError)
      \/ exists root_name root_data rest,
           data = (root_name, root_data) :: rest /\ encodable root_data = false
           /\ e = UnicodeEncodeError
  end.
Proof.
  destruct data as [|[root_name root_data] rest]; [by left|].
  pose proof (construct_outcome_all root_data root_name None (VirtualFileSystem_init clk)) as H.
  destruct (from_dict clk ((root_name, root_data) :: rest)) as [st|e] eqn:E.
  - exists root_name, root_data, rest. split; [done|].
    unfold from_dict in E.
    destruct (_construct_node root_name root_data None (VirtualFileSystem_init clk))
      as [[r|e] st1]; [exact H|done].
  - right. exists root_name, root_data, rest. split; [done|].
    apply from_dict_raises in E. rewrite E in H. by destruct H.
Qed.

(** ** The tree has no cycle *)

Lemma descendant_le h n d x : heap_ok h n -> descendant h d x -> d <= x.
Proof.
  intros [_ Hc]. induction 1 as [d|d ch k c x Hch Hk _ IH]; [done|].
  destruct (Hc d ch k c Hch Hk) as [Hlt _]. lia.
Qed.

(** X10. In every reachable state a child of a directory is a live object
    and the directory is not at or below its child: the tree has no cycle,
    whatever the paths and names of the calls were. *)
Theorem reachable_tree_has_no_cycle (escaped_template : string -> outcome string) st d ch k c :
  reachable escaped_template st ->
  children_of (heap st) d = Some ch -> ch !! k = Some c ->
  is_Some (heap st !! c) /\ c <> d /\ ~ descendant (heap st) c d.
Proof.
  intros Hr Hch Hk. destruct (reachable_store_ok _ _ Hr) as [Hh _].
  destruct (proj2 Hh d ch k c Hch Hk) as [Hlt Hl].
  split; [done|]. split; [lia|]. intros Hd%(descendant_le _ _ _ _ Hh). lia.
Qed.

Lemma reachable_tree_has_no_cycle_witness :
  reachable (fun _ => Raise ReError) tree_a
  /\ children_of (heap tree_a) 0 = Some {[ "a" := 1 ]}
  /\ ({[ "a" := 1 ]} : gmap string nat) !! "a" = Some 1
  /\ is_Some (heap tree_a !! 1) /\ 1 <> 0 /\ ~ descendant (heap tree_a) 1 0.
Proof.
  assert (H1 : reachable (fun _ => Raise ReError) tree_a).
  { apply (reachable_call _ (CreateDirectory "/a")), reachable_init. }
  assert (H2 : children_of (heap tree_a) 0 = Some {[ "a" := 1 ]}) by (vm_compute; reflexivity).
  assert (H3 : ({[ "a" := 1 ]} : gmap string nat) !! "a" = Some 1) by reflexivity.
  split; [exact H1|]. split; [exact H2|]. split; [exact H3|].
  exact (reachable_tree_has_no_cycle _ tree_a 0 _ "a" 1 H1 H2 H3).
Defined.

(** ** Timestamps in runs without a reload *)

Lemma times_ok_mono clk clk' n : clk <= clk' -> times_ok clk n -> times_ok clk' n.
Proof. intros Hle (H1 & H2 & H3 & H4). repeat split; try lia. exact H4. Qed.

Lemma started_reachable esc st : started esc st -> reachable esc st.
Proof. induction 1; [apply reachable_init|by apply reachable_call]. Qed.

Lemma content_of_eq (h h' : gmap nat Node) d :
  file_data <$> h' !! d = file_data <$> h !! d -> content_of h' d = content_of h d.
Proof.
  unfold content_of, file_data.
  destruct (h' !! d) as [n'|], (h !! d) as [n|]; cbn; try done.
  destruct (body n'), (body n); by intros [=]; subst.
Qed.

Lemma timestamps_ok_ext st st' :
  heap st' = heap st -> clock st' = clock st -> timestamps_ok st -> timestamps_ok st'.
Proof. intros Hh Hc H id n. rewrite Hh, Hc. apply H. Qed.

Lemma timestamps_ok_new_node nm par b st :
  timestamps_ok st -> timestamps_ok (snd (new_node nm par b st)).
Proof.
  intros H id n. unfold new_node. cbn [snd heap clock].
  destruct (decide (id = next_id st)) as [->|Hne].
  - rewrite lookup_insert_eq. intros [= <-]. unfold times_ok. cbn.
    split_and!; try lia. destruct b; lia.
  - rewrite lookup_insert_ne by done. intros Hn.
    apply (times_ok_mono (clock st)); [lia|by eapply H].
Qed.

Lemma timestamps_ok_alter f i st :
  (forall n, times_ok (clock st) n -> times_ok (clock st) (f n)) ->
  timestamps_ok st -> timestamps_ok (with_heap (alter f i (heap st)) st).
Proof.
  intros Hf H id n. unfold with_heap. cbn [heap clock].
  destruct (decide (id = i)) as [->|Hne].
  - rewrite lookup_alter_eq. destruct (heap st !! i) as [x|] eqn:E; [|done].
    intros [= <-]. by eapply Hf, H.
  - rewrite lookup_alter_ne by done. apply H.
Qed.

Lemma timestamps_ok_modified d st :
  content_of (heap st) d = None ->
  timestamps_ok st -> timestamps_ok (update_timestamp_metadata d Modified st).
Proof.
  intros Hd H id n. unfold update_timestamp_metadata. cbn [heap clock].
  destruct (decide (id = d)) as [->|Hne].
  - rewrite lookup_alter_eq. destruct (heap st !! d) as [x|] eqn:E; [|done].
    intros [= <-]. destruct (H _ _ E) as (H1 & H2 & H3 & H4).
    unfold times_ok. cbn. unfold content_of in Hd. rewrite E in Hd.
    destruct (body x); [done|]. lia.
  - rewrite lookup_alter_ne by done. intros Hn.
    apply (times_ok_mono (clock st)); [lia|by eapply H].
Qed.

Lemma timestamps_ok_accessed f st :
  children_of (heap st) f = None ->
  timestamps_ok st -> timestamps_ok (update_timestamp_metadata f Accessed st).
Proof.
  intros Hd H id n. unfold update_timestamp_metadata. cbn [heap clock].
  destruct (decide (id = f)) as [->|Hne].
  - rewrite lookup_alter_eq. destruct (heap st !! f) as [x|] eqn:E; [|done].
    intros [= <-]. destruct (H _ _ E) as (H1 & H2 & H3 & H4).
    unfold times_ok. cbn. unfold children_of in Hd. rewrite E in Hd.
    destruct (body x); [|done]. lia.
  - rewrite lookup_alter_ne by done. intros Hn.
    apply (times_ok_mono (clock st)); [lia|by eapply H].
Qed.

Lemma timestamps_ok_write f content st :
  is_Some (content_of (heap st) f) ->
  timestamps_ok st -> timestamps_ok (FileNode_write f content st).
Proof.
  intros [c Hc] H id n. unfold FileNode_write, update_timestamp_metadata, with_heap.
  cbn [heap clock].
  destruct (decide (id = f)) as [->|Hne].
  - rewrite !lookup_alter_eq. unfold content_of in Hc.
    destruct (heap st !! f) as [x|] eqn:E; [|done]. cbn.
    intros [= <-]. destruct (body x) eqn:Eb; [|done].
    unfold times_ok. cbn. lia.
  - rewrite !lookup_alter_ne by done. intros Hn.
    apply (times_ok_mono (clock st)); [lia|by eapply H].
Qed.

Lemma times_ok_on_children clk g n : times_ok clk n -> times_ok clk (on_children g n).
Proof.
  unfold on_children, times_ok. destruct (body n) eqn:E; cbn; by rewrite ?E.
Qed.

Lemma timestamps_ok_add_child d c st :
  content_of (heap st) d = None ->
  timestamps_ok st -> timestamps_ok (add_child d c st).
Proof.
  intros Hd H. unfold add_child. destruct (heap st !! c) as [x|]; [|done].
  apply timestamps_ok_modified.
  - unfold with_heap. cbn [heap]. rewrite <- Hd. apply content_of_eq.
    rewrite file_data_alter by done. apply file_data_alter.
    intros n. unfold on_children, file_data. destruct (body n) eqn:E; cbn; by rewrite ?E.
  - apply (timestamps_ok_alter _ _ (with_heap _ st)); [done|].
    apply timestamps_ok_alter; [|done]. intros y. apply times_ok_on_children.
Qed.

Lemma timestamps_ok_remove_child d nm st :
  timestamps_ok st -> timestamps_ok (remove_child d nm st).
Proof.
  intros H. unfold remove_child. destruct (children_of (heap st) d) as [ch|] eqn:Hch; [|done].
  destruct (ch !! nm); [|done]. apply timestamps_ok_modified.
  - unfold with_heap. cbn [heap]. unfold content_of, children_of in *.
    rewrite lookup_alter_eq. destruct (heap st !! d) as [x|]; [|done]. cbn.
    unfold on_children. destruct (body x) eqn:E; [done|]. cbn. done.
  - apply timestamps_ok_alter; [|done]. intros y. apply times_ok_on_children.
Qed.

Lemma dir_not_file h d : is_Some (children_of h d) -> content_of h d = None.
Proof.
  unfold children_of, content_of. intros [ch H]. destruct (h !! d) as [n|]; [|done].
  by destruct (body n).
Qed.

Lemma file_not_dir h f : is_Some (content_of h f) -> children_of h f = None.
Proof.
  unfold children_of, content_of. intros [ch H]. destruct (h !! f) as [n|]; [|done].
  by destruct (body n).
Qed.

Lemma timestamps_ok_attach nm d b st :
  store_ok st -> is_Some (children_of (heap st) d) ->
  timestamps_ok st ->
  timestamps_ok (add_child d (next_id st) (snd (new_node nm (Some d) b st))).
Proof.
  intros Hok Hd H. pose proof (store_ok_live_lt st d Hok Hd) as Hlt.
  apply timestamps_ok_add_child; [|by apply timestamps_ok_new_node].
  unfold new_node. cbn [snd heap]. rewrite <- (dir_not_file _ _ Hd).
  unfold content_of. rewrite lookup_insert_ne by lia. done.
Qed.

Lemma parent_is_directory path st d nm st1 :
  _get_parent_directory_and_name path st = (Ok (Some d, nm), st1) ->
  heap st1 = heap st /\ clock st1 = clock st /\ next_id st1 = next_id st
  /\ root st1 = root st /\ is_Some (children_of (heap st1) d).
Proof.
  intros E. pose proof (parent_and_name_frame path st) as H. cbv zeta in H.
  rewrite E in H. cbn [fst snd] in H. destruct H as (H1 & H2 & H3 & H4 & _ & H6).
  split_and!; try done. rewrite H1. by eapply H6.
Qed.

Section TimestampsOfOperations.

Variable escaped_template : string -> outcome string.

Lemma timestamps_ok_create_file path content st :
  store_ok st -> timestamps_ok st -> timestamps_ok (snd (create_file path content st)).
Proof.
  intros Hok H. unfold create_file.
  pose proof (same_but_cache_parent path st) as (Hh & Hn & Hc & Hr & _).
  destruct (_get_parent_directory_and_name path st) as [[[[d|] nm]|e] st1] eqn:E;
    cbn [snd] in *; try by apply (timestamps_ok_ext st).
  destruct (get_child (heap st1) d nm); [by apply (timestamps_ok_ext st)|].
  destruct (parent_is_directory _ _ _ _ _ E) as (_ & _ & _ & _ & Hd).
  apply (timestamps_ok_ext (add_child d (next_id st1) (snd (FileNode nm (Some d) content st1))));
    [done..|].
  apply timestamps_ok_attach; [by apply (store_ok_ext st)|done|by apply (timestamps_ok_ext st)].
Qed.

Lemma timestamps_ok_create_directory path st :
  store_ok st -> timestamps_ok st -> timestamps_ok (snd (create_directory path st)).
Proof.
  intros Hok H. unfold create_directory.
  pose proof (same_but_cache_parent path st) as (Hh & Hn & Hc & Hr & _).
  destruct (_get_parent_directory_and_name path st) as [[[[d|] nm]|e] st1] eqn:E;
    cbn [snd] in *; try by apply (timestamps_ok_ext st).
  destruct (get_child (heap st1) d nm); [by apply (timestamps_ok_ext st)|].
  destruct (parent_is_directory _ _ _ _ _ E) as (_ & _ & _ & _ & Hd).
  apply (timestamps_ok_ext (add_child d (next_id st1) (snd (DirectoryNode nm (Some d) st1))));
    [done..|].
  apply timestamps_ok_attach; [by apply (store_ok_ext st)|done|by apply (timestamps_ok_ext st)].
Qed.

Lemma timestamps_ok_read_file path st :
  timestamps_ok st -> timestamps_ok (snd (read_file path st)).
Proof.
  intros H. unfold read_file.
  pose proof (same_but_cache_resolve path st) as (Hh & Hn & Hc & Hr & _).
  destruct (_get_node_object_by_path path st) as [[f|] st1]; cbn [snd] in *;
    [|by apply (timestamps_ok_ext st)].
  destruct (content_of (heap st1) f) eqn:Hf; [|by apply (timestamps_ok_ext st)].
  unfold FileNode_read. cbn [snd].
  apply timestamps_ok_accessed; [apply file_not_dir; by rewrite Hf|].
  by apply (timestamps_ok_ext st).
Qed.

Lemma timestamps_ok_write_file path content st :
  store_ok st -> timestamps_ok st -> timestamps_ok (snd (write_file path content st)).
Proof.
  intros Hok H. unfold write_file.
  pose proof (same_but_cache_resolve path st) as (Hh & Hn & Hc & Hr & _).
  destruct (_get_node_object_by_path path st) as [[f|] st1]; cbn [snd] in *.
  - destruct (content_of (heap st1) f) eqn:Hf; [|by apply (timestamps_ok_ext st)].
    cbn [snd]. apply timestamps_ok_write; [by rewrite Hf|by apply (timestamps_ok_ext st)].
  - assert (Hok1 : store_ok st1) by (by apply (store_ok_ext st)).
    assert (H1 : timestamps_ok st1) by (by apply (timestamps_ok_ext st)).
    pose proof (same_but_cache_parent path st1) as (Hh2 & Hn2 & Hc2 & Hr2 & _).
    destruct (_get_parent_directory_and_name path st1) as [[[[d|] nm]|e] st2] eqn:E;
      cbn [snd] in *; try by apply (timestamps_ok_ext st1).
    destruct (parent_is_directory _ _ _ _ _ E) as (_ & _ & _ & _ & Hd).
    apply (timestamps_ok_ext (add_child d (next_id st2) (snd (FileNode nm (Some d) content st2))));
      [done..|].
    apply timestamps_ok_attach;
      [by apply (store_ok_ext st1)|done|by apply (timestamps_ok_ext st1)].
Qed.

Lemma content_of_remove_child d nm st y :
  content_of (heap (remove_child d nm st)) y = content_of (heap st) y.
Proof.
  unfold remove_child. destruct (children_of (heap st) d) as [ch|]; [|done].
  destruct (ch !! nm); [|done]. apply content_of_eq.
  rewrite file_data_update_timestamp. unfold with_heap. cbn [heap].
  apply file_data_alter. intros x. unfold on_children, file_data.
  destruct (body x) eqn:E; cbn; by rewrite ?E.
Qed.

Lemma timestamps_ok_delete path st :
  timestamps_ok st -> timestamps_ok (snd (delete path st)).
Proof.
  intros H. unfold delete.
  pose proof (same_but_cache_parent path st) as (Hh & Hn & Hc & Hr & _).
  destruct (_get_parent_directory_and_name path st) as [[[[d|] nm]|e] st1] eqn:E;
    cbn [snd] in *; try by apply (timestamps_ok_ext st).
  destruct (parent_is_directory _ _ _ _ _ E) as (_ & _ & _ & _ & Hd).
  pose proof (same_but_cache_resolve path st1) as (Hh2 & Hn2 & Hc2 & Hr2 & _).
  assert (H1 : timestamps_ok st1) by (by apply (timestamps_ok_ext st)).
  destruct (_get_node_object_by_path path st1) as [[x|] st2]; cbn [snd] in *;
    [|by apply (timestamps_ok_ext st1)].
  destruct (Nat.eqb x (root st2)); [by apply (timestamps_ok_ext st1)|].
  cbn [snd]. apply timestamps_ok_modified.
  - unfold _remove_changed_node_from_cache, with_cache. cbn [heap].
    rewrite content_of_remove_child, Hh2. by apply dir_not_file.
  - apply (timestamps_ok_ext (remove_child d nm st2)); [done..|].
    apply timestamps_ok_remove_child. by apply (timestamps_ok_ext st1).
Qed.

Lemma timestamps_ok_rename path new_name st :
  timestamps_ok st -> timestamps_ok (snd (rename escaped_template path new_name st)).
Proof.
  intros H. unfold rename.
  pose proof (same_but_cache_parent path st) as (Hh & Hn & Hc & Hr & _).
  destruct (_get_parent_directory_and_name path st) as [[[[d|] nm]|e] st1] eqn:E;
    cbn [snd] in *; try by apply (timestamps_ok_ext st).
  destruct (parent_is_directory _ _ _ _ _ E) as (_ & _ & _ & _ & Hd).
  assert (H1 : timestamps_ok st1) by (by apply (timestamps_ok_ext st)).
  destruct (get_child (heap st1) d nm) as [x|]; [|done].
  set (old := match heap st1 !! x with Some n => name n | None => nm end).
  assert (H4 : timestamps_ok
                 (add_child d x (with_heap (alter (set_name new_name) x
                                              (heap (remove_child d old st1)))
                                           (remove_child d old st1)))).
  { apply timestamps_ok_add_child.
    - unfold with_heap. cbn [heap]. rewrite <- (dir_not_file _ _ Hd).
      rewrite <- (content_of_remove_child d old st1 d). apply content_of_eq.
      by apply file_data_alter.
    - apply timestamps_ok_alter; [done|]. by apply timestamps_ok_remove_child. }
  destruct (expand_template escaped_template ("/" +:+ new_name)); cbn [snd];
    by eapply timestamps_ok_ext; [..|exact H4].
Qed.

End TimestampsOfOperations.

(** X11. In a run that starts from a new file system and loads nothing, no
    timestamp of a node is ahead of the clock; a directory keeps the accessed
    time of its creation, which is not after its modified time; a file was
    created no later than modified and modified no later than accessed. *)
Theorem started_timestamps_ordered (escaped_template : string -> outcome string) st id n :
  started escaped_template st ->
  heap st !! id = Some n ->
  created n < clock st /\ modified n < clock st /\ accessed n < clock st
  /\ match body n with
     | DirBody _ => accessed n = created n /\ created n <= modified n
     | FileBody _ _ => created n <= modified n /\ modified n <= accessed n
     end.
Proof.
  intros Hs. revert id n. change (timestamps_ok st).
  induction Hs as [clk|c st Hs IH].
  - intros id n. unfold VirtualFileSystem_init. cbn.
    rewrite lookup_insert. case_decide; [|by rewrite lookup_empty].
    intros [= <-]. unfold times_ok. cbn. lia.
  - pose proof (reachable_store_ok _ _ (started_reachable _ _ Hs)) as Hok.
    destruct c; cbn [exec].
    + by apply timestamps_ok_create_file.
    + by apply timestamps_ok_create_directory.
    + by apply timestamps_ok_write_file.
    + by apply timestamps_ok_read_file.
    + by apply timestamps_ok_delete.
    + by apply timestamps_ok_rename.
Qed.

Lemma started_timestamps_ordered_witness :
  started (fun _ => Raise ReError) tree_f
  /\ exists n, heap tree_f !! 1 = Some n
     /\ created n < clock tree_f /\ modified n < clock tree_f /\ accessed n < clock tree_f
     /\ match body n with
        | DirBody _ => accessed n = created n /\ created n <= modified n
        | FileBody _ _ => created n <= modified n /\ modified n <= accessed n
        end.
Proof.
  assert (H1 : started (fun _ => Raise ReError) tree_f).
  { apply (started_call _ (CreateFile "/f" ["h"%byte; "i"%byte])), started_init. }
  split; [exact H1|].
  assert (H2 : heap tree_f !! 1
               = Some (mkNode "f" (Some 0) 1 1 1 (FileBody ["h"%byte; "i"%byte] 2)))
    by (vm_compute; reflexivity).
  eexists. split; [exact H2|].
  exact (started_timestamps_ordered _ tree_f 1 _ H1 H2).
Defined.

(** ** Writing to a path that does not resolve *)

(** X12. In a tidy state, [write_file] on a valid path that does not resolve
    does what [create_file] does: same result, same file system object. *)
Theorem write_file_creates_like_create_file st segs nm content :
  tidy st -> valid_segs (segs ++ [nm])%list ->
  fst (_get_node_object_by_path (path_of (segs ++ [nm])%list) st) = None ->
  write_file (path_of (segs ++ [nm])%list) content st
  = create_file (path_of (segs ++ [nm])%list) content st.
Proof.
  intros Ht Hv Hn. unfold write_file, create_file.
  pose proof (resolve_tidy st _ Ht Hv) as Hr. cbv zeta in Hr.
  destruct (_get_node_object_by_path (path_of (segs ++ [nm])%list) st) as [o st1] eqn:E.
  cbn [fst snd] in *. subst o. destruct Hr as (Hw & _ & _ & _ & _ & _ & Hs).
  rewrite (Hs eq_refl).
  destruct (parent_and_name_tidy' st segs nm Ht Hv) as (o & st2 & -> & Hh & _ & Hroot & _ & _ & Ho).
  destruct o as [d|]; [|done]. destruct Ho as [Hd _].
  assert (get_child (heap st2) d nm = None) as ->; [|done].
  rewrite Hh. symmetry in Hw. rewrite walk_app, Hd in Hw. cbn [mbind option_bind] in Hw.
  rewrite walk_cons in Hw.
  apply Forall_app in Hv as [_ Hnm]. apply Forall_inv in Hnm.
  rewrite (valid_segment_nonempty nm Hnm) in Hw.
  destruct (get_child (heap st) d nm); [done|done].
Qed.

Lemma write_file_creates_like_create_file_witness :
  tidy tree_a /\ valid_segs (["a"] ++ ["b"])%list
  /\ fst (_get_node_object_by_path "/a/b" tree_a) = None
  /\ write_file "/a/b" ["h"%byte] tree_a = create_file "/a/b" ["h"%byte] tree_a.
Proof.
  assert (H1 : tidy tree_a).
  { apply (tidy_create_directory fresh_vfs [] "a"); [apply tidy_init|by repeat constructor]. }
  assert (H2 : valid_segs (["a"] ++ ["b"])%list) by (by repeat constructor).
  assert (H3 : fst (_get_node_object_by_path "/a/b" tree_a) = None) by (vm_compute; reflexivity).
  split; [exact H1|]. split; [exact H2|]. split; [exact H3|].
  exact (write_file_creates_like_create_file tree_a ["a"] "b" ["h"%byte] H1 H2 H3).
Defined.

(** ** Runs with valid arguments, on a tree *)

Lemma tidy_run_cache_coherent_witness :
  tidy_run (fun _ => Raise ReError) tree_a_file /\ cache_coherent tree_a_file.
Proof.
  assert (H : tidy_run (fun _ => Raise ReError) tree_a_file).
  { apply (tidy_run_call _ (CreateFile "/a/b" ["h"%byte; "i"%byte])).
    - apply (tidy_run_call _ (CreateDirectory "/a")); [apply tidy_run_init|].
      apply (valid_create_directory _ [] "a"). by repeat constructor.
    - apply (valid_create_file _ ["a"] "b"). by repeat constructor. }
  split; [exact H|]. exact (tidy_run_cache_coherent _ _ H).
Defined.

Lemma delete_valid_path_witness :
  tidy tree_a_file /\ valid_segs ([] ++ ["a"])%list
  /\ fst (delete "/a" tree_a_file) = Ok true
  /\ exists d x,
       walk (heap tree_a_file) [] (root tree_a_file) = Some d
       /\ get_child (heap tree_a_file) d "a" = Some x
       /\ get_child (heap (snd (delete "/a" tree_a_file))) d "a" = None
       /\ (forall q, changed "/a" q = true ->
                     traversal_cache (snd (delete "/a" tree_a_file)) !! q = None)
       /\ (exists t, modified <$> heap (snd (delete "/a" tree_a_file)) !! d = Some t
                     /\ clock tree_a_file <= t < clock (snd (delete "/a" tree_a_file)))
       /\ forall below, valid_segs below ->
            _get_node_object_by_path (path_of (([] ++ ["a"]) ++ below)%list)
                                     (snd (delete "/a" tree_a_file))
            = (None, snd (delete "/a" tree_a_file)).
Proof.
  assert (H1 : tidy tree_a_file).
  { apply (tidy_create_file tree_a ["a"] "b"); [|by repeat constructor].
    apply (tidy_create_directory fresh_vfs [] "a"); [apply tidy_init|by repeat constructor]. }
  assert (H2 : valid_segs ([] ++ ["a"])%list) by (by repeat constructor).
  assert (H3 : delete "/a" tree_a_file = (Ok true, snd (delete "/a" tree_a_file)))
    by (vm_compute; reflexivity).
  split; [exact H1|]. split; [exact H2|]. split; [by rewrite H3|].
  exact (delete_valid_path tree_a_file _ [] "a" H1 H2 H3).
Defined.

Lemma rename_valid_path_witness :
  tidy tree_a_file /\ valid_segs (["a"] ++ ["b"])%list
  /\ fst (rename (fun _ => Raise ReError) "/a/b" "c" tree_a_file) = Ok true
  /\ exists d x,
       walk (heap tree_a_file) ["a"] (root tree_a_file) = Some d
       /\ get_child (heap tree_a_file) d "b" = Some x
       /\ fst (_get_node_object_by_path "/a/b"
                 (snd (rename (fun _ => Raise ReError) "/a/b" "c" tree_a_file))) = None
       /\ fst (_get_node_object_by_path "/a/c"
                 (snd (rename (fun _ => Raise ReError) "/a/b" "c" tree_a_file))) = Some x.
Proof.
  assert (H1 : tidy tree_a_file).
  { apply (tidy_create_file tree_a ["a"] "b"); [|by repeat constructor].
    apply (tidy_create_directory fresh_vfs [] "a"); [apply tidy_init|by repeat constructor]. }
  assert (H2 : valid_segs (["a"] ++ ["b"])%list) by (by repeat constructor).
  assert (H3 : rename (fun _ => Raise ReError) "/a/b" "c" tree_a_file
               = (Ok true, snd (rename (fun _ => Raise ReError) "/a/b" "c" tree_a_file)))
    by (vm_compute; reflexivity).
  assert (H4 : forall d, walk (heap tree_a_file) ["a"] (root tree_a_file) = Some d ->
                         get_child (heap tree_a_file) d "c" = None).
  { intros d. vm_compute. by intros [= <-]. }
  split; [exact H1|]. split; [exact H2|]. split; [by rewrite H3|].
  destruct (rename_valid_path _ tree_a_file _ ["a"] "b" "c" H1 H2 eq_refl eq_refl
              ltac:(done) H4 H3) as (d & x & Hd & Hx & Hold & Hnew & _).
  exists d, x. split_and!; [done|done|exact (f_equal fst Hold)|exact (f_equal fst Hnew)].
Defined.


(** ** What the operations return on valid paths *)

Section Outcomes.
Import Str Re.

Variable escaped_template : string -> outcome string.

Lemma walk_snoc h segs nm r :
  String.eqb nm "" = false ->
  walk h (segs ++ [nm])%list r = walk h segs r ≫= fun d => get_child h d nm.
Proof.
  intros Hnm. rewrite walk_app. destruct (walk h segs r) as [d|]; [|done].
  cbn [mbind option_bind]. rewrite walk_cons, Hnm. by destruct (get_child h d nm).
Qed.

Lemma tidy_child_not_root st segs nm x :
  tidy st -> walk (heap st) (segs ++ [nm])%list (root st) = Some x -> x <> root st.
Proof.
  intros Ht Hw ->. pose proof (tidy_paths _ Ht (segs ++ [nm])%list [] (root st) Hw eq_refl) as E.
  by destruct segs.
Qed.

(** the parent and the leaf name of a valid path, by the walk *)
Lemma parent_by_walk st segs nm :
  tidy st -> valid_segs (segs ++ [nm])%list ->
  exists o st1,
    _get_parent_directory_and_name (path_of (segs ++ [nm])%list) st = (Ok (o, nm), st1)
    /\ heap st1 = heap st /\ root st1 = root st /\ tidy st1
    /\ match o with
       | Some d => walk (heap st) segs (root st) = Some d
                   /\ is_Some (children_of (heap st) d)
       | None => leads_to_directory st segs = false
       end.
Proof.
  intros Ht Hv.
  destruct (parent_and_name_tidy' st segs nm Ht Hv)
    as (o & st1 & E & Hh & _ & Hr & _ & Ht1 & Ho).
  exists o, st1. split_and!; try done. destruct o as [d|]; [done|].
  unfold leads_to_directory. destruct (walk (heap st) segs (root st)) as [d|]; [|done].
  by rewrite (Ho d eq_refl).
Qed.

Lemma content_of_update_timestamp self f st y :
  content_of (heap (update_timestamp_metadata self f st)) y = content_of (heap st) y.
Proof. apply content_of_eq, file_data_update_timestamp. Qed.

Lemma rename_returns st segs nm new_name :
  tidy st -> valid_segs (segs ++ [nm])%list -> has_backslash new_name = false ->
  fst (rename escaped_template (path_of (segs ++ [nm])%list) new_name st)
  = Ok (is_some (walk (heap st) (segs ++ [nm])%list (root st))).
Proof.
  intros Ht Hv Hb.
  assert (Hnm : String.eqb nm "" = false).
  { apply valid_segment_nonempty. apply Forall_app in Hv as [_ H]. by apply Forall_inv in H. }
  destruct (parent_by_walk st segs nm Ht Hv) as (o & st1 & Ep & Hh & Hr & Ht1 & Ho).
  unfold rename. rewrite Ep, (walk_snoc _ _ _ _ Hnm). destruct o as [d|].
  - destruct Ho as [-> _]. cbn [mbind option_bind]. rewrite Hh.
    destruct (get_child (heap st) d nm); [|done].
    by rewrite (has_backslash_template escaped_template new_name Hb).
  - unfold leads_to_directory in Ho.
    destruct (walk (heap st) segs (root st)) as [d|]; [|done]. cbn.
    unfold get_child. by destruct (children_of (heap st) d).
Qed.

(** X17. In a tidy state, on a valid path, what each operation returns is
    decided by the walk from the root: the two creations return [True]
    exactly when the parent is a directory without a child of that name,
    [delete] and [rename] (to a name without backslash) exactly when the path
    leads to a node, [write_file] when the path leads to a file or leads
    nowhere below a directory, and [read_file] returns the content of the
    file the path leads to, and nothing otherwise. None of them raises. *)
Theorem outcomes_on_valid_paths st segs nm content new_name :
  tidy st -> valid_segs (segs ++ [nm])%list ->
  let P := path_of (segs ++ [nm])%list in
  let target := walk (heap st) (segs ++ [nm])%list (root st) in
  fst (create_directory P st) = Ok (can_create st segs nm)
  /\ fst (create_file P content st) = Ok (can_create st segs nm)
  /\ fst (delete P st) = Ok (is_some target)
  /\ (has_backslash new_name = false ->
      fst (rename escaped_template P new_name st) = Ok (is_some target))
  /\ fst (read_file P st) = target ≫= content_of (heap st)
  /\ fst (write_file P content st)
     = Ok (match target with
           | Some f => is_some (content_of (heap st) f)
           | None => leads_to_directory st segs
           end).
Proof.
  intros Ht Hv P target. subst P.
  assert (Hnm : String.eqb nm "" = false).
  { apply valid_segment_nonempty. apply Forall_app in Hv as [_ H]. by apply Forall_inv in H. }
  assert (Htarget : target = walk (heap st) segs (root st) ≫= fun d => get_child (heap st) d nm)
    by (by apply walk_snoc).
  destruct (parent_by_walk st segs nm Ht Hv) as (o & st1 & Ep & Hh & Hr & Ht1 & Ho).
  assert (Hcreate : can_create st segs nm
                    = match o with
                      | Some d => negb (is_some (get_child (heap st1) d nm))
                      | None => false
                      end).
  { unfold can_create. destruct o as [d|].
    - destruct Ho as [-> [ch Hch]]. rewrite Hh. unfold get_child. rewrite Hch.
      by destruct (ch !! nm).
    - unfold leads_to_directory in Ho. destruct (walk (heap st) segs (root st)) as [d|]; [|done].
      by destruct (children_of (heap st) d). }
  split_and!.
  - unfold create_directory. rewrite Ep, Hcreate. destruct o as [d|]; [|done].
    by destruct (get_child (heap st1) d nm).
  - unfold create_file. rewrite Ep, Hcreate. destruct o as [d|]; [|done].
    by destruct (get_child (heap st1) d nm).
  - unfold delete. rewrite Ep.
    pose proof (resolve_tidy st1 _ Ht1 Hv) as Hres. cbv zeta in Hres. 
    rewrite Hh, Hr in Hres. fold target in Hres.
    destruct o as [d|].
    + destruct (_get_node_object_by_path (path_of (segs ++ [nm])%list) st1) as [o2 st2]. cbn [fst snd] in Hres.
      destruct Hres as (-> & _ & _ & Hr2 & _). destruct target as [x|] eqn:Et; [|done].
      assert (x <> root st) as Hx by (by apply (tidy_child_not_root st segs nm)).
      rewrite Hr2, ?Hr. apply Nat.eqb_neq in Hx. by rewrite Hx.
    + rewrite Htarget. unfold leads_to_directory in Ho.
      destruct (walk (heap st) segs (root st)) as [d|]; [|done]. cbn.
      unfold get_child. by destruct (children_of (heap st) d).
  - intros Hb. by apply rename_returns.
  - unfold read_file.
    pose proof (resolve_tidy st _ Ht Hv) as Hres. cbv zeta in Hres. fold target in Hres.
    destruct (_get_node_object_by_path (path_of (segs ++ [nm])%list) st) as [o2 st2]. cbn [fst snd] in Hres.
    destruct Hres as (-> & Hh2 & _). destruct target as [f|]; [|done].
    cbn [mbind option_bind]. rewrite Hh2.
    destruct (content_of (heap st) f) as [c|] eqn:Hc; [|done].
    unfold FileNode_read. cbn [fst]. by rewrite content_of_update_timestamp, Hh2.
  - unfold write_file.
    pose proof (resolve_tidy st _ Ht Hv) as Hres. cbv zeta in Hres. fold target in Hres.
    destruct (_get_node_object_by_path (path_of (segs ++ [nm])%list) st) as [o2 st2]. cbn [fst snd] in Hres.
    destruct Hres as (-> & Hh2 & _ & _ & _ & _ & Hs). destruct target as [f|].
    + rewrite Hh2. by destruct (content_of (heap st) f).
    + rewrite (Hs eq_refl). rewrite Ep. destruct o as [d|]; [|by rewrite Ho].
      destruct Ho as [Hd [ch Hch]]. unfold leads_to_directory. by rewrite Hd, Hch.
Qed.

Lemma reroute_sym segs k k' (s : list string) : reroute segs k k' s = reroute segs k' k s.
Proof.
  unfold reroute. case_decide; [|done]. destruct (drop (length segs) s) as [|x t]; [done|].
  repeat case_decide; by subst.
Qed.

(** X18. In a tidy state, after a successful [rename] of a valid path to
    another valid name that is free in the directory, neither the old nor the
    new name holding a backslash, renaming the new path back to the old name
    succeeds, and then every path leads to the node it led to before the two
    calls. *)
Theorem rename_back_restores_paths st st' segs nm new_name :
  tidy st -> valid_segs (segs ++ [nm])%list ->
  valid_segment new_name = true ->
  has_backslash new_name = false -> has_backslash nm = false ->
  new_name <> nm ->
  (forall d, walk (heap st) segs (root st) = Some d ->
             get_child (heap st) d new_name = None) ->
  rename escaped_template (path_of (segs ++ [nm])%list) new_name st = (Ok true, st') ->
  let r := rename escaped_template (path_of (segs ++ [new_name])%list) nm st' in
  fst r = Ok true
  /\ root (snd r) = root st
  /\ forall s, walk (heap (snd r)) s (root st) = walk (heap st) s (root st).
Proof.
  intros Ht Hv Hnew Hb Hb' Hne Hfree Hren r.
  destruct (rename_tidy_spec escaped_template st segs nm new_name Ht Hv Hnew Hb
              (or_intror Hfree)) as [Ht' Hspec].
  rewrite Hren in Ht', Hspec. cbn [fst snd] in *.
  destruct (Hspec eq_refl) as (d & x & Hd & Hx & Hr & Hkids & _ & Hwalk & _).
  assert (Hnm : valid_segment nm = true).
  { apply Forall_app in Hv as [_ H]. by apply Forall_inv in H. }
  assert (Hv' : valid_segs (segs ++ [new_name])%list).
  { apply Forall_app in Hv as [Hs _]. apply Forall_app. split; [done|by repeat constructor]. }
  assert (Hd' : walk (heap st') segs (root st') = Some d).
  { by rewrite Hr, Hwalk, reroute_parent. }
  assert (Hfree' : target_free st' segs new_name nm).
  { right. intros d0. rewrite Hd'. intros [= <-]. rewrite Hkids.
    rewrite decide_False by done. by rewrite decide_True. }
  destruct (rename_tidy_spec escaped_template st' segs new_name nm Ht' Hv' Hnm Hb' Hfree')
    as [_ Hspec']. fold r in Hspec'.
  assert (Hok : fst r = Ok true).
  { unfold r. rewrite (rename_returns st' segs new_name nm Ht' Hv' Hb').
    rewrite Hr, Hwalk, reroute_at, decide_True by done.
    rewrite (walk_snoc _ _ _ _ (valid_segment_nonempty nm Hnm)), Hd. cbn. by rewrite Hx. }
  destruct (Hspec' Hok) as (_ & _ & _ & _ & Hr' & _ & _ & Hwalk' & _).
  split; [done|]. split; [by rewrite Hr', Hr|].
  intros s. rewrite <- Hr at 1. rewrite Hwalk', Hr, Hwalk.
  by rewrite (reroute_sym segs nm new_name), reroute_involutive.
Qed.

End Outcomes.

Lemma outcomes_on_valid_paths_witness :
  tidy tree_a_file /\ valid_segs (["a"] ++ ["b"])%list
  /\ fst (create_directory "/a/b" tree_a_file) = Ok false
  /\ fst (create_file "/a/b" [] tree_a_file) = Ok false
  /\ fst (delete "/a/b" tree_a_file) = Ok true
  /\ (Str.has_backslash "c" = false ->
      fst (rename (fun _ => Raise ReError) "/a/b" "c" tree_a_file) = Ok true)
  /\ fst (read_file "/a/b" tree_a_file) = Some ["h"%byte; "i"%byte]
  /\ fst (write_file "/a/b" [] tree_a_file) = Ok true.
Proof.
  assert (H1 : tidy tree_a_file).
  { apply (tidy_create_file tree_a ["a"] "b"); [|by repeat constructor].
    apply (tidy_create_directory fresh_vfs [] "a"); [apply tidy_init|by repeat constructor]. }
  assert (H2 : valid_segs (["a"] ++ ["b"])%list) by (by repeat constructor).
  split; [exact H1|]. split; [exact H2|].
  exact (outcomes_on_valid_paths (fun _ => Raise ReError) tree_a_file ["a"] "b" [] "c" H1 H2).
Defined.

Lemma rename_back_restores_paths_witness :
  tidy tree_a_file /\ valid_segs (["a"] ++ ["b"])%list
  /\ fst (rename (fun _ => Raise ReError) "/a/b" "c" tree_a_file) = Ok true
  /\ fst (rename (fun _ => Raise ReError) "/a/c" "b"
            (snd (rename (fun _ => Raise ReError) "/a/b" "c" tree_a_file))) = Ok true
  /\ forall s,
       walk (heap (snd (rename (fun _ => Raise ReError) "/a/c" "b"
                          (snd (rename (fun _ => Raise ReError) "/a/b" "c" tree_a_file)))))
            s (root tree_a_file)
       = walk (heap tree_a_file) s (root tree_a_file).
Proof.
  assert (H1 : tidy tree_a_file).
  { apply (tidy_create_file tree_a ["a"] "b"); [|by repeat constructor].
    apply (tidy_create_directory fresh_vfs [] "a"); [apply tidy_init|by repeat constructor]. }
  assert (H2 : valid_segs (["a"] ++ ["b"])%list) by (by repeat constructor).
  assert (H3 : rename (fun _ => Raise ReError) "/a/b" "c" tree_a_file
               = (Ok true, snd (rename (fun _ => Raise ReError) "/a/b" "c" tree_a_file)))
    by (vm_compute; reflexivity).
  assert (H4 : forall d, walk (heap tree_a_file) ["a"] (root tree_a_file) = Some d ->
                         get_child (heap tree_a_file) d "c" = None).
  { intros d. vm_compute. by intros [= <-]. }
  split; [exact H1|]. split; [exact H2|]. split; [by rewrite H3|].
  destruct (rename_back_restores_paths (fun _ => Raise ReError) tree_a_file _ ["a"] "b" "c"
              H1 H2 eq_refl eq_refl eq_refl ltac:(done) H4 H3) as (Hok & _ & Hw).
  split; [exact Hok|exact Hw].
Defined.

(** ** Encoding, then decoding *)

Local Ltac Zify.zify_post_hook ::= Z.to_euclidean_division_equations.

Section Utf8Back.
Import Utf8.

Ltac bools' :=
  repeat match goal with
  | H : (_ && _)%bool = true |- _ => apply andb_prop in H as [? ?]
  | H : (_ <=? _)%N = true |- _ => apply N.leb_le in H
  | H : (_ <=? _)%N = false |- _ => apply N.leb_gt in H
  | H : (_ <? _)%N = true |- _ => apply N.ltb_lt in H
  | H : (_ <? _)%N = false |- _ => apply N.ltb_ge in H
  | H : (_ =? _)%N = true |- _ => apply N.eqb_eq in H
  | H : (_ =? _)%N = false |- _ => apply N.eqb_neq in H
  end.

Lemma in_range_true lo hi n : (lo <= n)%N -> (n <= hi)%N -> in_range lo hi n = true.
Proof.
  intros H1 H2. unfold in_range. apply N.leb_le in H1, H2. by rewrite H1, H2.
Qed.

Lemma in_range_false lo hi n : (n < lo \/ hi < n)%N -> in_range lo hi n = false.
Proof.
  intros H. unfold in_range. destruct (N.leb_spec lo n), (N.leb_spec n hi); try done; lia.
Qed.

Lemma cont_true n : (128 <= n)%N -> (n <= 191)%N -> cont n = true.
Proof. apply in_range_true. Qed.

Lemma second_ok_true b0 b1 :
  (128 <= b1 <= 191)%N ->
  (b0 = 224 -> 160 <= b1)%N -> (b0 = 237 -> b1 <= 159)%N ->
  (b0 = 240 -> 144 <= b1)%N -> (b0 = 244 -> b1 <= 143)%N ->
  second_ok b0 b1 = true.
Proof.
  intros H H1 H2 H3 H4. unfold second_ok.
  destruct (N.eqb_spec b0 224); [apply in_range_true; lia|].
  destruct (N.eqb_spec b0 237); [apply in_range_true; lia|].
  destruct (N.eqb_spec b0 240); [apply in_range_true; lia|].
  destruct (N.eqb_spec b0 244); [apply in_range_true; lia|].
  apply cont_true; lia.
Qed.

(** the bytes of one code point decode to that code point *)
Lemma decode_go_encode_cp cp a rest :
  encode_cp cp = Some a ->
  decode_go (a ++ rest) = option_map (cons cp) (decode_go rest)
  /\ Forall (fun b => (b < 256)%N) a.
Proof.
  unfold encode_cp.
  destruct (N.ltb_spec cp 128) as [H1|H1].
  { intros [= <-]. split; [|repeat constructor; lia]. cbn [app decode_go].
    apply N.ltb_lt in H1. by rewrite H1. }
  destruct (N.ltb_spec cp 2048) as [H2|H2].
  { intros [= <-]. split; [|repeat constructor; lia]. cbn [app decode_go].
    assert ((192 + cp / 64 <? 128)%N = false) as -> by (apply N.ltb_ge; lia).
    rewrite in_range_true by lia. rewrite cont_true by lia.
    do 2 f_equal. lia. }
  destruct (N.ltb_spec cp 65536) as [H3|H3].
  { destruct (in_range 55296 57343 cp) eqn:Hs; [done|]. intros [= <-].
    assert (cp < 55296 \/ 57343 < cp)%N as Hcp.
    { unfold in_range in Hs. destruct (N.leb_spec 55296 cp), (N.leb_spec cp 57343); try done; lia. }
    split; [|repeat constructor; lia]. cbn [app decode_go].
    assert ((224 + cp / 4096 <? 128)%N = false) as -> by (apply N.ltb_ge; lia).
    rewrite (in_range_false 194 223) by lia. rewrite (in_range_true 224 239) by lia.
    rewrite second_ok_true by lia. rewrite cont_true by lia. cbn [andb].
    do 2 f_equal. lia. }
  destruct (N.ltb_spec cp 1114112) as [H4|H4]; [|done].
  intros [= <-]. split; [|repeat constructor; lia]. cbn [app decode_go].
  assert ((240 + cp / 262144 <? 128)%N = false) as -> by (apply N.ltb_ge; lia).
  rewrite (in_range_false 194 223) by lia. rewrite (in_range_false 224 239) by lia.
  rewrite (in_range_true 240 244) by lia.
  rewrite second_ok_true by lia. rewrite !cont_true by lia. cbn [andb].
  do 2 f_equal. lia.
Qed.

Lemma encode_go_decode_go s :
  forall l, encode_go s = Some l ->
            decode_go l = Some s /\ Forall (fun b => (b < 256)%N) l.
Proof.
  induction s as [|cp s IH]; intros l; [by intros [= <-]|].
  cbn [encode_go]. destruct (encode_cp cp) as [a|] eqn:Ea; [|done].
  destruct (encode_go s) as [b|]; [|done]. intros [= <-].
  destruct (IH b eq_refl) as [Hd Hb].
  destruct (decode_go_encode_cp cp a b Ea) as [-> Ha]. rewrite Hd.
  split; [done|]. by apply Forall_app.
Qed.

Lemma to_N_byte_of n : (n < 256)%N -> Byte.to_N (byte_of n) = n.
Proof.
  intros H. unfold byte_of. destruct (Byte.of_N n) as [b|] eqn:E.
  - by apply Byte.to_of_N.
  - apply Byte.of_N_None_iff in E. lia.
Qed.

Lemma encode_decode s bs : encode s = Some bs -> decode bs = Some s.
Proof.
  unfold encode, decode. destruct (encode_go s) as [l|] eqn:E; [|done].
  intros [= <-]. destruct (encode_go_decode_go s l E) as [Hd Hl].
  rewrite map_map. rewrite <- Hd. f_equal.
  rewrite <- (map_id l) at 2. apply map_ext_Forall.
  eapply Forall_impl; [exact Hl|]. intros n Hn. by apply to_N_byte_of.
Qed.

End Utf8Back.

(** ** A file entry of a dictionary, loaded and written again *)

(** X19. [_construct_node] on a file entry with a size and a [str] content
    raises UnicodeEncodeError when the content cannot be encoded; otherwise
    it returns a new file node with the name and the parent given, the
    encoded content and the size of the entry, and [to_metadata] of that node
    gives the entry back: same timestamps, size and [str]. *)
Theorem file_entry_round_trip nm par st cr ac mo sz s :
  let r := _construct_node nm (FileData cr ac mo (Some sz) (Some (PyStr s))) par st in
  match Utf8.encode s with
  | None => fst r = Raise UnicodeEncodeError
  | Some bs =>
      fst r = Ok (next_id st)
      /\ exists n, heap (snd r) !! next_id st = Some n
                   /\ name n = nm /\ parent n = par /\ body n = FileBody bs sz
                   /\ to_metadata n = Ok (FileData cr ac mo (Some sz) (Some (PyStr s)))
  end.
Proof.
  cbv zeta. cbn [_construct_node FileNode new_node].
  destruct (Utf8.encode s) as [bs|] eqn:E; [|done].
  split; [done|]. unfold with_heap. cbn [fst snd heap].
  rewrite !lookup_alter_eq, lookup_insert_eq. cbn.
  eexists. split; [done|]. cbn. split_and!; try done.
  unfold to_metadata. cbn. by rewrite (encode_decode s bs E).
Qed.

(** ** A tree, written and loaded again *)

Lemma mirrors_stable h h1 h2 n1 :
  heap_ok h1 n1 ->
  forall gap id id',
    n1 - id' <= gap ->
    mirrors h h1 id id' ->
    (forall x, id' <= x < n1 -> shown <$> h2 !! x = shown <$> h1 !! x) ->
    mirrors h h2 id id'.
Proof.
  intros Hok. induction gap as [|gap IH]; intros id id' Hgap Hm Hsame.
  - inversion Hm as [? ? n n' c sz Hn Hn' _ _ _ _ _|? ? n n' ch ch' Hn Hn' _ _ _ _ _ _ _]; subst;
      apply (proj1 Hok) in Hn'; lia.
  - assert (Hid : id' < n1).
    { inversion Hm as [? ? n n' c sz Hn Hn'|? ? n n' ch ch' Hn Hn']; subst;
        by apply (proj1 Hok) in Hn'. }
    pose proof (Hsame id' ltac:(lia)) as Hs.
    inversion Hm as [? ? n n' c sz Hn Hn' Hb Hb' Hc Ha Hmo
                    |? ? n n' ch ch' Hn Hn' Hb Hb' Hc Ha Hmo Hnone Hsome]; subst.
    + rewrite Hn' in Hs. destruct (h2 !! id') as [n2|] eqn:Hn2; [|done].
      cbn in Hs. injection Hs as E1 E2 E3 E4 E5.
      eapply mirrors_file; eauto; congruence.
    + rewrite Hn' in Hs. destruct (h2 !! id') as [n2|] eqn:Hn2; [|done].
      cbn in Hs. injection Hs as E1 E2 E3 E4 E5.
      eapply (mirrors_dir _ _ _ _ _ _ ch ch'); eauto; try congruence.
      * intros Hch. rewrite E3. by apply Hmo.
      * intros k c Hk. destruct (Hsome k c Hk) as (c' & Hk' & Hname & Hmc).
        assert (Hlt : id' < c' /\ is_Some (h1 !! c')).
        { apply (proj2 Hok id' ch' k c'); [|done]. unfold children_of. by rewrite Hn', Hb'. }
        destruct Hlt as [Hlt [x Hx]]. pose proof (proj1 Hok _ _ Hx) as Hc'.
        exists c'. split; [done|]. split.
        -- pose proof (Hsame c' ltac:(lia)) as Hsc. rewrite <- Hname.
           destruct (h2 !! c'), (h1 !! c'); cbn in *; try done. by injection Hsc as ->.
        -- apply IH; [lia|done|]. intros y Hy. apply Hsame. lia.
Qed.

Lemma mapM_Forall2 {A B : Type} (f : A -> outcome B) (l : list A) ys :
  mapM f l = Ok ys -> Forall2 (fun x y => f x = Ok y) l ys.
Proof.
  revert ys. induction l as [|x l IH]; intros ys; cbn [mapM].
  - intros [= <-]. constructor.
  - destruct (f x) as [y|e] eqn:E; [|done]. destruct (mapM f l) as [ys'|e]; [|done].
    intros [= <-]. constructor; [done|by apply IH].
Qed.

Lemma child_to_dict_inv f h k c k' d :
  child_to_dict (DirectoryNode_to_dict f h) h (k, c) = Ok (k', d) ->
  k' = k /\ node_to_dict f h c = Ok d.
Proof.
  unfold child_to_dict, node_to_dict.
  destruct (match children_of h c with
            | Some _ => DirectoryNode_to_dict f h c
            | None => match h !! c with Some x => to_metadata x | None => Raise AttributeError end
            end) as [d'|e]; [|done].
  by intros [= <- <-].
Qed.

Lemma construct_file_mirrors h id n c sz s nm par st :
  h !! id = Some n -> body n = FileBody c sz -> Utf8.decode c = Some s ->
  store_ok st ->
  exists st',
    _construct_node nm (FileData (created n) (accessed n) (modified n)
                                 (Some sz) (Some (PyStr s))) par st
    = (Ok (next_id st), st')
    /\ built h id nm st st'.
Proof.
  intros Hn Hb Hd Hok.
  pose proof (constructs_ok_file (created n) (accessed n) (modified n)
                (Some sz) (Some (PyStr s)) nm par st) as Hc.
  revert Hc. cbn [_construct_node FileNode new_node]. rewrite (decode_encode c s Hd).
  intros Hc. eexists. split; [reflexivity|].
  destruct (Hc _ _ Hok eq_refl) as (Hok' & _ & Hlt & _ & Hr & _).
  unfold built, with_heap in *. cbn [heap next_id root] in *.
  split_and!; try done.
  - intros i Hi. rewrite !lookup_alter_ne, lookup_insert_ne by lia. done.
  - by rewrite !lookup_alter_eq, lookup_insert_eq.
  - eapply (mirrors_file _ _ _ _ n _ c sz); [done| |done|..].
    + by rewrite !lookup_alter_eq, lookup_insert_eq.
    + done.
    + done.
    + done.
    + done.
Qed.

(** the store after [add_child], node by node *)
Lemma add_child_nodes D c st xD chD xc :
  heap st !! D = Some xD -> body xD = DirBody chD -> heap st !! c = Some xc -> D <> c ->
  heap (add_child D c st) !! D
  = Some (set_timestamp Modified (clock st) (set_body (DirBody (<[name xc := c]> chD)) xD))
  /\ heap (add_child D c st) !! c = Some (set_parent (Some D) xc)
  /\ (forall i, i <> D -> i <> c -> heap (add_child D c st) !! i = heap st !! i)
  /\ next_id (add_child D c st) = next_id st
  /\ root (add_child D c st) = root st.
Proof.
  intros HD Hb Hc Hne. unfold add_child. rewrite Hc.
  unfold update_timestamp_metadata, with_heap. cbn [heap clock next_id root].
  split_and!; try done.
  - rewrite lookup_alter_eq, lookup_alter_ne, lookup_alter_eq, HD by done. cbn.
    unfold on_children. by rewrite Hb.
  - rewrite lookup_alter_ne, lookup_alter_eq, lookup_alter_ne, Hc by done. done.
  - intros i H1 H2. by rewrite !lookup_alter_ne.
Qed.

Section ConstructItemsMirrors.

Variables (h : gmap nat Node) (f : nat) (D : nat).

Hypothesis IHf :
  forall c d, node_to_dict f h c = Ok d ->
    forall nm par st, store_ok st ->
      exists st', _construct_node nm d par st = (Ok (next_id st), st')
                  /\ built h c nm st st'.

Lemma construct_items_mirrors l items :
  Forall2 (fun kc kd => fst kd = fst kc /\ node_to_dict f h (snd kc) = Ok (snd kd)) l items ->
  NoDup (fst <$> l) ->
  forall st xD chD,
    store_ok st -> heap st !! D = Some xD -> body xD = DirBody chD ->
    exists st' xD' chD',
      construct_items _construct_node D items st = (Ok D, st')
      /\ store_ok st' /\ next_id st <= next_id st' /\ root st' = root st
      /\ (forall i, i < next_id st -> i <> D -> heap st' !! i = heap st !! i)
      /\ heap st' !! D = Some xD' /\ body xD' = DirBody chD'
      /\ created xD' = created xD /\ accessed xD' = accessed xD /\ name xD' = name xD
      /\ (l = [] -> modified xD' = modified xD)
      /\ (forall k, k ∉ fst <$> l -> chD' !! k = chD !! k)
      /\ (forall k c, (k, c) ∈ l ->
            exists c', chD' !! k = Some c' /\ name <$> heap st' !! c' = Some k
                       /\ mirrors h (heap st') c c').
Proof.
  induction 1 as [|[k c] [k' d] l items [Hk Hd] _ IH]; intros Hnd st xD chD Hok HD Hb.
  - exists st, xD, chD. cbn [construct_items]. split_and!; try done.
    by intros k c ?%elem_of_nil.
  - cbn [fst snd] in Hk, Hd. subst k'. rewrite fmap_cons in Hnd. cbn [fst] in Hnd.
    apply NoDup_cons in Hnd as [Hk Hnd].
    assert (HltD : D < next_id st) by (destruct Hok as [[Hbd _] _]; by eapply Hbd).
    destruct (IHf c d Hd k (Some D) st Hok) as (sa & Ec & Hoka & Hlta & Hra & Hfa & Hna & Hma).
    cbn [construct_items]. rewrite Ec.
    set (c1 := next_id st) in *.
    destruct (heap sa !! c1) as [xc|] eqn:Hxc; [|done]. cbn in Hna. injection Hna as Hna.
    assert (HDa : heap sa !! D = Some xD) by (by rewrite Hfa).
    assert (Hne : D <> c1) by lia.
    destruct (add_child_nodes D c1 sa xD chD xc HDa Hb Hxc Hne)
      as (HDb & Hcb & Hfb & Hnb & Hrb).
    rewrite Hna in HDb.
    assert (Hokb : store_ok (add_child D c1 sa)) by (apply store_ok_add_child; [lia|done]).
    destruct (IH Hnd (add_child D c1 sa) _ (<[k := c1]> chD) Hokb HDb eq_refl)
      as (st' & xD' & chD' & Ei & Hok' & Hlt' & Hr' & Hf' & HD' & Hb' & Hcr & Hac & Hnm & _ & Hkeys & Hmem).
    exists st', xD', chD'. rewrite Hnb in *.
    split_and!; try done.
    + lia.
    + congruence.
    + intros i Hi HiD. rewrite Hf' by lia. rewrite Hfb by lia. by apply Hfa.
    + intros k0 Hk0. rewrite fmap_cons in Hk0. cbn [fst] in Hk0.
      apply not_elem_of_cons in Hk0 as [Hk1 Hk2].
      rewrite Hkeys by done. by rewrite lookup_insert_ne.
    + intros k0 c0 [[= -> ->]|Hin]%elem_of_cons; [|by apply Hmem].
      exists c1. rewrite Hkeys by done. rewrite lookup_insert_eq.
      assert (Hsame : forall x, c1 <= x < next_id sa -> heap st' !! x = heap sa !! x
                                \/ (x = c1 /\ heap st' !! x = Some (set_parent (Some D) xc))).
      { intros x Hx. rewrite Hf' by lia. destruct (decide (x = c1)) as [->|Hxc1].
        - right. by rewrite Hcb.
        - left. apply Hfb; lia. }
      split; [done|]. split.
      * destruct (Hsame c1 ltac:(lia)) as [E|[_ E]]; rewrite E; [by rewrite Hxc; cbn; f_equal|].
        cbn. by f_equal.
      * apply (mirrors_stable h (heap sa) (heap st') (next_id sa) (proj1 Hoka)
                 (next_id sa) c c1); [lia|done|].
        intros x Hx. destruct (Hsame x Hx) as [E|[-> E]]; rewrite E; [done|].
        by rewrite Hxc.
Qed.

End ConstructItemsMirrors.

(** building a node from the dictionary of a node gives a mirror of it *)
Lemma construct_mirrors h fuel :
  forall id d, node_to_dict fuel h id = Ok d ->
    forall nm par st, store_ok st ->
      exists st', _construct_node nm d par st = (Ok (next_id st), st')
                  /\ built h id nm st st'.
Proof.
  assert (Hfile : forall id d,
             children_of h id = None ->
             match h !! id with Some c => to_metadata c | None => Raise AttributeError end
             = Ok d ->
             forall nm par st, store_ok st ->
               exists st', _construct_node nm d par st = (Ok (next_id st), st')
                           /\ built h id nm st st').
  { intros id d Hch. destruct (h !! id) as [n|] eqn:Hn; [|done]. unfold to_metadata.
    unfold children_of in Hch. rewrite Hn in Hch.
    destruct (body n) as [c sz|] eqn:Hb; [|done].
    destruct (Utf8.decode c) as [s|] eqn:Hd; [|done]. intros [= <-] nm par st Hok.
    by apply (construct_file_mirrors h id n c sz s). }
  induction fuel as [|f IHf]; intros id d; unfold node_to_dict;
    destruct (children_of h id) as [ch|] eqn:Hch.
  - done.
  - by apply Hfile.
  - cbn [DirectoryNode_to_dict]. destruct (h !! id) as [n|] eqn:Hn; [|done].
    unfold children_of in Hch. rewrite Hn in Hch.
    destruct (body n) as [|ch0] eqn:Hb; [done|]. injection Hch as ->.
    unfold to_metadata. rewrite Hb.
    destruct (mapM (child_to_dict (DirectoryNode_to_dict f h) h) (map_to_list ch))
      as [items|e] eqn:Hm; [|done].
    intros [= <-] nm par st Hok.
    cbn [_construct_node DirectoryNode new_node].
    set (D := next_id st).
    set (st2 := with_heap _ _).
    assert (Hok2 : store_ok st2).
    { apply (store_ok_alter_meta (set_times (created n) (accessed n) (modified n)) D
               (snd (new_node nm par (DirBody ∅) st))); [done|].
      apply store_ok_new_node; [by left|done]. }
    assert (HD2 : heap st2 !! D
                  = Some (mkNode nm par (created n) (modified n) (accessed n) (DirBody ∅))).
    { subst st2. unfold with_heap. cbn [heap]. by rewrite lookup_alter_eq, lookup_insert_eq. }
    assert (HF : Forall2 (fun kc kd => fst kd = fst kc
                                        /\ node_to_dict f h (snd kc) = Ok (snd kd))
                         (map_to_list ch) items).
    { apply mapM_Forall2 in Hm. eapply Forall2_impl; [exact Hm|].
      intros [k c] [k' d']. cbn [fst snd]. apply child_to_dict_inv. }
    destruct (construct_items_mirrors h f D IHf (map_to_list ch) items HF
                (NoDup_fst_map_to_list ch) st2 _ ∅ Hok2 HD2 eq_refl)
      as (st' & xD' & chD' & Ei & Hok' & Hlt' & Hr' & Hf' & HD' & Hb' & Hcr & Hac & Hnm
          & Hmo & Hkeys & Hmem).
    exists st'. split; [exact Ei|].
    assert (Hn2 : next_id st2 = S D) by done.
    assert (Hr2 : root st2 = root st) by done.
    unfold built. fold D. split_and!; try done; try lia; try congruence.
    + intros i Hi. rewrite Hf' by lia. subst st2. unfold with_heap. cbn [heap].
      rewrite lookup_alter_ne, lookup_insert_ne by lia. done.
    + rewrite HD'. cbn. by rewrite Hnm.
    + eapply (mirrors_dir _ _ _ _ n xD' ch chD'); try done.
      * intros ->. apply Hmo. apply map_to_list_empty.
      * intros k Hk. rewrite Hkeys; [done|].
        intros [[k0 c0] [E Hin]]%list_elem_of_fmap. cbn in E. subst k0.
        apply elem_of_map_to_list in Hin. congruence.
      * intros k c Hk. apply Hmem. by apply elem_of_map_to_list.
  - by apply Hfile.
Qed.

Lemma construct_root_file_mirrors h id n c sz nm par st :
  h !! id = Some n -> body n = FileBody c sz -> store_ok st ->
  exists st',
    _construct_node nm (FileData (created n) (accessed n) (modified n)
                                 (Some sz) (Some (PyBytes c))) par st
    = (Ok (next_id st), st')
    /\ built h id nm st st'.
Proof.
  intros Hn Hb Hok.
  pose proof (constructs_ok_file (created n) (accessed n) (modified n)
                (Some sz) (Some (PyBytes c)) nm par st) as Hc.
  revert Hc. cbn [_construct_node FileNode new_node].
  intros Hc. eexists. split; [reflexivity|].
  destruct (Hc _ _ Hok eq_refl) as (Hok' & _ & Hlt & _ & Hr & _).
  unfold built, with_heap in *. cbn [heap next_id root] in *.
  split_and!; try done.
  - intros i Hi. rewrite !lookup_alter_ne, lookup_insert_ne by lia. done.
  - by rewrite !lookup_alter_eq, lookup_insert_eq.
  - eapply (mirrors_file _ _ _ _ n _ c sz); [done| |done|..].
    + by rewrite !lookup_alter_eq, lookup_insert_eq.
    + done.
    + done.
    + done.
    + done.
Qed.

(** mirrors along a path *)
Lemma mirrors_walk h h' segs :
  forall x x', mirrors h h' x x' ->
    match walk h segs x with
    | Some y => exists y', walk h' segs x' = Some y' /\ mirrors h h' y y'
    | None => walk h' segs x' = None
    end.
Proof.
  induction segs as [|k t IH]; intros x x' Hm; [by exists x'|].
  cbn [walk]. destruct (String.eqb k ""); [done|]. unfold children_of.
  inversion Hm as [? ? n n' c sz Hn Hn' Hb Hb' _ _ _
                  |? ? n n' ch ch' Hn Hn' Hb Hb' _ _ _ Hnone Hsome]; subst;
    rewrite Hn, Hn', Hb, Hb'; [done|].
  destruct (ch !! k) as [c|] eqn:Hk.
  - destruct (Hsome k c Hk) as (c' & -> & _ & Hmc). by apply IH.
  - by rewrite (Hnone k Hk).
Qed.

(** X20. Writing a reachable tree with [to_dict] and loading what
    [update_json_storage] stores gives a file system whose tree mirrors the
    old one: under every name the same kind of node, the same content and
    size, the same created and accessed time, and the same modified time for
    every file and every directory without children; each loaded node is
    named by its key and the root by ["/"]. Hence every list of segments
    that leads to a node of the old tree leads to its mirror in the new one,
    and one that leads nowhere leads nowhere. *)
Theorem reload_mirrors_tree (escaped_template : string -> outcome string) st data clk :
  reachable escaped_template st ->
  file_system_status st = Ok data ->
  exists st',
    from_dict clk data = Ok st'
    /\ mirrors (heap st) (heap st') (root st) (root st')
    /\ name <$> heap st' !! root st' = Some "/"
    /\ forall segs,
         match walk (heap st) segs (root st) with
         | Some y => exists y', walk (heap st') segs (root st') = Some y'
                                /\ mirrors (heap st) (heap st') y y'
         | None => walk (heap st') segs (root st') = None
         end.
Proof.
  intros Hreach Hdata. pose proof (reachable_store_ok _ _ Hreach) as Hok.
  unfold file_system_status in Hdata. destruct (to_dict st) as [d|e] eqn:Hd; [|done].
  injection Hdata as <-.
  assert (Hb : exists st1,
             _construct_node "/" d None (VirtualFileSystem_init clk)
             = (Ok (next_id (VirtualFileSystem_init clk)), st1)
             /\ built (heap st) (root st) "/" (VirtualFileSystem_init clk) st1).
  { unfold to_dict, to_dict_fuel in Hd.
    destruct (heap st !! root st) as [n|] eqn:Hn; [|done].
    destruct (body n) as [c sz|ch] eqn:Hbody.
    - unfold FileNode_to_dict, to_metadata in Hd. rewrite Hbody in Hd.
      destruct (Utf8.decode c); [|done]. injection Hd as <-.
      apply (construct_root_file_mirrors _ _ n c sz); [done..|apply store_ok_init].
    - apply (construct_mirrors (heap st) (next_id st)); [|apply store_ok_init].
      unfold node_to_dict, children_of. by rewrite Hn, Hbody. }
  destruct Hb as (st1 & Ec & Hok1 & Hlt & Hr & Hframe & Hname & Hm).
  unfold from_dict. rewrite Ec.
  set (r := next_id (VirtualFileSystem_init clk)) in *.
  assert (Hl : is_Some (heap st1 !! r)).
  { destruct (heap st1 !! r); [eauto|done]. }
  pose proof (cache_persisted_data_ok _ _ (proj1 Hok1) (next_id st1) r "/"
                (traversal_cache st1) ltac:(lia) Hl) as H.
  cbn [with_root next_id heap traversal_cache].
  destruct (_cache_persisted_data (next_id st1) (heap st1) r "/" (traversal_cache st1))
    as [cache|e]; [|done].
  eexists. split; [reflexivity|]. cbn [with_cache heap root].
  split_and!; [done..|]. intros segs. by apply mirrors_walk.
Qed.

Lemma reload_mirrors_tree_witness :
  reachable (fun _ => Raise ReError) tree_a_file
  /\ file_system_status tree_a_file = Ok persisted_a_file
  /\ exists st',
       from_dict 7 persisted_a_file = Ok st'
       /\ mirrors (heap tree_a_file) (heap st') (root tree_a_file) (root st')
       /\ name <$> heap st' !! root st' = Some "/"
       /\ forall segs,
            match walk (heap tree_a_file) segs (root tree_a_file) with
            | Some y => exists y', walk (heap st') segs (root st') = Some y'
                                   /\ mirrors (heap tree_a_file) (heap st') y y'
            | None => walk (heap st') segs (root st') = None
            end.
Proof.
  assert (H1 : reachable (fun _ => Raise ReError) tree_a_file).
  { apply (reachable_call _ (CreateFile "/a/b" ["h"%byte; "i"%byte])).
    apply (reachable_call _ (CreateDirectory "/a")), reachable_init. }
  assert (H2 : file_system_status tree_a_file = Ok persisted_a_file)
    by (vm_compute; reflexivity).
  split; [exact H1|]. split; [exact H2|].
  exact (reload_mirrors_tree _ tree_a_file persisted_a_file 7 H1 H2).
Defined.

(** ** Names and parents agree with the children dictionaries *)

Lemma link_alter (h : gmap nat Node) f i y :
  (forall n, link (f n) = link n) ->
  link <$> alter f i h !! y = link <$> h !! y.
Proof.
  intros Hf. destruct (decide (y = i)) as [->|Hne].
  - rewrite lookup_alter_eq. destruct (h !! i); cbn; [by rewrite Hf|done].
  - by rewrite lookup_alter_ne.
Qed.

Lemma links_ok_link h :
  links_ok h <->
  forall d ch k c, children_of h d = Some ch -> ch !! k = Some c ->
                   link <$> h !! c = Some (k, Some d).
Proof.
  split; intros H d ch k c Hch Hk.
  - destruct (H d ch k c Hch Hk) as (n & -> & <- & E). cbn. unfold link. by rewrite E.
  - specialize (H d ch k c Hch Hk). destruct (h !! c) as [n|]; [|done].
    cbn in H. injection H as H1 H2. by exists n.
Qed.

(** a change of nodes that keeps children, names and parents *)
Lemma links_ok_alter h f i :
  (forall n, link (f n) = link n) ->
  (forall n, dir_children (f n) = dir_children n) ->
  links_ok h -> links_ok (alter f i h).
Proof.
  intros Hl Hd. rewrite !links_ok_link. intros H d ch k c.
  rewrite children_of_alter by done. rewrite link_alter by done. apply H.
Qed.

Lemma detached_alter h f i c :
  (forall n, dir_children (f n) = dir_children n) ->
  detached h c -> detached (alter f i h) c.
Proof. intros Hd H d ch k. rewrite children_of_alter by done. apply H. Qed.

Lemma links_ok_update_timestamp self f st :
  links_ok (heap st) -> links_ok (heap (update_timestamp_metadata self f st)).
Proof.
  intros H. unfold update_timestamp_metadata. cbn [heap]. apply links_ok_alter; [| |done].
  - intros n. by destruct f.
  - intros n. apply dir_children_set_timestamp.
Qed.

Lemma links_ok_new_node nm par b st :
  leaf_body b -> store_ok st -> links_ok (heap st) ->
  links_ok (heap (snd (new_node nm par b st)))
  /\ detached (heap (snd (new_node nm par b st))) (next_id st).
Proof.
  intros Hb [[Hbd Hch] _] H. unfold new_node. cbn [snd heap].
  assert (Hfresh : heap st !! next_id st = None).
  { destruct (heap st !! next_id st) eqn:E; [|done]. apply Hbd in E. lia. }
  assert (Hkids : forall d ch, children_of
                    (<[next_id st := mkNode nm par (clock st) (clock st) (clock st) b]> (heap st))
                    d = Some ch ->
                  (d = next_id st /\ ch = ∅) \/ (d <> next_id st /\ children_of (heap st) d = Some ch)).
  { intros d ch. unfold children_of. destruct (decide (d = next_id st)) as [->|Hne].
    - rewrite lookup_insert_eq. cbn. destruct Hb as [->|(c & sz & ->)]; [|done].
      intros [= <-]. by left.
    - rewrite lookup_insert_ne by done. by right. }
  split.
  - intros d ch k c Hd Hk. destruct (Hkids d ch Hd) as [[-> ->]|[Hne Hd']]; [done|].
    destruct (H d ch k c Hd' Hk) as (n & Hn & Hname & Hpar).
    exists n. rewrite lookup_insert_ne; [done|]. intros <-. congruence.
  - intros d ch k Hd Hk. destruct (Hkids d ch Hd) as [[-> ->]|[Hne Hd']]; [done|].
    destruct (Hch d ch k _ Hd' Hk) as [_ [x Hx]]. congruence.
Qed.

Lemma links_ok_add_child D c st xc :
  heap st !! c = Some xc -> D <> c -> detached (heap st) c ->
  links_ok (heap st) -> links_ok (heap (add_child D c st)).
Proof.
  intros Hc Hne Hdet. rewrite !links_ok_link. intros H d ch k c0.
  unfold add_child. rewrite Hc. unfold update_timestamp_metadata, with_heap. cbn [heap clock].
  rewrite children_of_alter by (intros; apply dir_children_set_timestamp).
  rewrite children_of_alter by done.
  rewrite children_of_on_children.
  rewrite link_alter by done.
  intros Hd Hk.
  assert (Hcase : (d = D /\ k = name xc /\ c0 = c)
                  \/ (c0 <> c /\ exists ch0, children_of (heap st) d = Some ch0
                                             /\ ch0 !! k = Some c0)).
  { case_decide as E.
    - subst d. destruct (children_of (heap st) D) as [chD|] eqn:HD; [|done].
      cbn in Hd. injection Hd as <-. rewrite lookup_insert in Hk. case_decide as Ek.
      + left. by injection Hk as <-.
      + right. split; [|by exists chD]. intros ->. by apply (Hdet D chD k).
    - right. split; [|by exists ch]. intros ->. by apply (Hdet d ch k). }
  destruct Hcase as [(-> & -> & ->)|(Hc0 & ch0 & Hd0 & Hk0)].
  - rewrite lookup_alter_eq, lookup_alter_ne, Hc by done. done.
  - rewrite lookup_alter_ne by done. rewrite link_alter; [by eapply H|].
    intros n. unfold on_children, link. by destruct (body n).
Qed.

Lemma links_ok_remove_child D nm st :
  links_ok (heap st) -> links_ok (heap (remove_child D nm st)).
Proof.
  rewrite !links_ok_link. intros H. unfold remove_child.
  destruct (children_of (heap st) D) as [chD|] eqn:HD; [|done].
  destruct (chD !! nm) as [x|] eqn:Hx; [|done].
  unfold update_timestamp_metadata, with_heap. cbn [heap clock].
  intros d ch k c.
  rewrite children_of_alter by (intros; apply dir_children_set_timestamp).
  rewrite children_of_on_children. rewrite link_alter by done.
  rewrite link_alter by (intros n; unfold on_children, link; by destruct (body n)).
  case_decide as E.
  - subst d. rewrite HD. cbn. intros [= <-]. rewrite lookup_delete_Some.
    intros [_ Hk]. by eapply H.
  - apply H.
Qed.

Lemma detached_after_remove D nm st x chD :
  links_ok (heap st) -> children_of (heap st) D = Some chD -> chD !! nm = Some x ->
  detached (heap (remove_child D nm st)) x.
Proof.
  intros H HD Hx. destruct (H D chD nm x HD Hx) as (n & Hn & Hname & Hpar).
  unfold remove_child. rewrite HD, Hx.
  unfold update_timestamp_metadata, with_heap. cbn [heap clock].
  intros d ch k.
  rewrite children_of_alter by (intros; apply dir_children_set_timestamp).
  rewrite children_of_on_children. case_decide as E.
  - subst d. rewrite HD. cbn. intros [= <-]. rewrite lookup_delete_Some. intros [Hk Hk'].
    destruct (H D chD k x HD Hk') as (n' & Hn' & Hname' & _). congruence.
  - intros Hd Hk. destruct (H d ch k x Hd Hk) as (n' & Hn' & _ & Hpar'). congruence.
Qed.

Lemma links_ok_attach nm D b st :
  leaf_body b -> store_ok st -> is_Some (children_of (heap st) D) ->
  links_ok (heap st) ->
  links_ok (heap (add_child D (next_id st) (snd (new_node nm (Some D) b st)))).
Proof.
  intros Hb Hok HD H. pose proof (store_ok_live_lt st D Hok HD) as Hlt.
  destruct (links_ok_new_node nm (Some D) b st Hb Hok H) as [H1 Hdet].
  eapply links_ok_add_child; [|lia|done|done].
  unfold new_node. cbn [snd heap]. apply lookup_insert_eq.
Qed.

Section LinksOfOperations.

Variable escaped_template : string -> outcome string.

Lemma links_ok_create_file path content st :
  store_ok st -> links_ok (heap st) -> links_ok (heap (snd (create_file path content st))).
Proof.
  intros Hok H. unfold create_file.
  pose proof (same_but_cache_parent path st) as (Hh & Hn & Hc & Hr & _).
  destruct (_get_parent_directory_and_name path st) as [[[[d|] nm]|e] st1] eqn:E;
    cbn [snd] in *; try by rewrite Hh.
  destruct (get_child (heap st1) d nm); [cbn [snd]; by rewrite Hh|].
  destruct (parent_is_directory _ _ _ _ _ E) as (_ & _ & _ & _ & Hd).
  cbn [FileNode snd with_cache heap].
  apply links_ok_attach; [right; by eexists _, _|by apply (store_ok_ext st)|done|by rewrite Hh].
Qed.

Lemma links_ok_create_directory path st :
  store_ok st -> links_ok (heap st) -> links_ok (heap (snd (create_directory path st))).
Proof.
  intros Hok H. unfold create_directory.
  pose proof (same_but_cache_parent path st) as (Hh & Hn & Hc & Hr & _).
  destruct (_get_parent_directory_and_name path st) as [[[[d|] nm]|e] st1] eqn:E;
    cbn [snd] in *; try by rewrite Hh.
  destruct (get_child (heap st1) d nm); [cbn [snd]; by rewrite Hh|].
  destruct (parent_is_directory _ _ _ _ _ E) as (_ & _ & _ & _ & Hd).
  cbn [DirectoryNode snd with_cache heap].
  apply links_ok_attach; [by left|by apply (store_ok_ext st)|done|by rewrite Hh].
Qed.

Lemma links_ok_read_file path st :
  links_ok (heap st) -> links_ok (heap (snd (read_file path st))).
Proof.
  intros H. unfold read_file.
  pose proof (same_but_cache_resolve path st) as (Hh & _).
  destruct (_get_node_object_by_path path st) as [[f|] st1]; cbn [snd] in *; [|cbn [snd]; by rewrite Hh].
  destruct (content_of (heap st1) f); [|cbn [snd]; by rewrite Hh].
  unfold FileNode_read. cbn [snd]. apply links_ok_update_timestamp. by rewrite Hh.
Qed.

Lemma links_ok_write f content st :
  links_ok (heap st) -> links_ok (heap (FileNode_write f content st)).
Proof.
  intros H. unfold FileNode_write. do 3 apply links_ok_update_timestamp.
  unfold with_heap. cbn [heap]. apply links_ok_alter; [..|done].
  - intros n. unfold link. by destruct (body n).
  - intros n. unfold dir_children. destruct (body n) eqn:E; cbn; by rewrite ?E.
Qed.

Lemma links_ok_write_file path content st :
  store_ok st -> links_ok (heap st) -> links_ok (heap (snd (write_file path content st))).
Proof.
  intros Hok H. unfold write_file.
  pose proof (same_but_cache_resolve path st) as (Hh & Hn & Hc & Hr & _).
  destruct (_get_node_object_by_path path st) as [[f|] st1]; cbn [snd] in *.
  - destruct (content_of (heap st1) f); [|cbn [snd]; by rewrite Hh]. cbn [snd].
    apply links_ok_write. by rewrite Hh.
  - assert (Hok1 : store_ok st1) by (by apply (store_ok_ext st)).
    pose proof (same_but_cache_parent path st1) as (Hh2 & Hn2 & Hc2 & Hr2 & _).
    destruct (_get_parent_directory_and_name path st1) as [[[[d|] nm]|e] st2] eqn:E;
      cbn [snd] in *; try by rewrite Hh2, Hh.
    destruct (parent_is_directory _ _ _ _ _ E) as (_ & _ & _ & _ & Hd).
    cbn [FileNode snd with_cache heap].
    apply links_ok_attach;
      [right; by eexists _, _|by apply (store_ok_ext st1)|done|by rewrite Hh2, Hh].
Qed.

Lemma links_ok_delete path st :
  links_ok (heap st) -> links_ok (heap (snd (delete path st))).
Proof.
  intros H. unfold delete.
  pose proof (same_but_cache_parent path st) as (Hh & _).
  destruct (_get_parent_directory_and_name path st) as [[[[d|] nm]|e] st1] eqn:E;
    cbn [snd] in *; try by rewrite Hh.
  pose proof (same_but_cache_resolve path st1) as (Hh2 & _).
  destruct (_get_node_object_by_path path st1) as [[x|] st2]; cbn [snd] in *;
    [|cbn [snd]; by rewrite Hh2, Hh].
  destruct (Nat.eqb x (root st2)); [cbn [snd]; by rewrite Hh2, Hh|].
  cbn [snd]. apply links_ok_update_timestamp.
  unfold _remove_changed_node_from_cache, with_cache. cbn [heap].
  apply links_ok_remove_child. by rewrite Hh2, Hh.
Qed.

Lemma links_ok_rename path new_name st :
  store_ok st -> links_ok (heap st) ->
  links_ok (heap (snd (rename escaped_template path new_name st))).
Proof.
  intros Hok H. unfold rename.
  pose proof (same_but_cache_parent path st) as (Hh & Hn & Hc & Hr & _).
  destruct (_get_parent_directory_and_name path st) as [[[[d|] nm]|e] st1] eqn:E;
    cbn [snd] in *; try by rewrite Hh.
  assert (Hok1 : store_ok st1) by (by apply (store_ok_ext st)).
  assert (H1 : links_ok (heap st1)) by (by rewrite Hh).
  destruct (get_child (heap st1) d nm) as [x|] eqn:Hx; [|done].
  pose proof (get_child_lt st1 d nm x Hok1 Hx) as Hlt.
  apply get_child_Some in Hx as (chD & HD & Hk).
  destruct (H1 d chD nm x HD Hk) as (xn & Hxn & Hname & Hpar).
  rewrite Hxn, Hname.
  set (st2 := remove_child d nm st1).
  assert (H2 : links_ok (heap st2)) by (by apply links_ok_remove_child).
  assert (Hdet : detached (heap st2) x) by (by apply (detached_after_remove d nm st1 x chD)).
  assert (Hx2 : exists y, heap st2 !! x = Some y).
  { subst st2. unfold remove_child. rewrite HD, Hk.
    unfold update_timestamp_metadata, with_heap. cbn [heap].
    rewrite !lookup_alter_ne by lia. eauto. }
  destruct Hx2 as [y Hy].
  assert (H4 : links_ok (heap (add_child d x (with_heap (alter (set_name new_name) x (heap st2))
                                                        st2)))).
  { apply (links_ok_add_child d x _ (set_name new_name y)).
    - unfold with_heap. cbn [heap]. by rewrite lookup_alter_eq, Hy.
    - lia.
    - unfold with_heap. cbn [heap]. by apply detached_alter.
    - unfold with_heap. cbn [heap]. apply links_ok_link. intros d0 ch k c.
      rewrite children_of_alter by done. intros Hd0 Hk0.
      rewrite lookup_alter_ne; [by eapply (proj1 (links_ok_link _) H2)|].
      intros <-. by apply (Hdet d0 ch k). }
  by destruct (expand_template escaped_template ("/" +:+ new_name)).
Qed.

End LinksOfOperations.

Lemma children_of_add_child_other D c st d :
  d <> D -> children_of (heap (add_child D c st)) d = children_of (heap st) d.
Proof.
  intros Hne. unfold add_child. destruct (heap st !! c); [|done].
  unfold update_timestamp_metadata, with_heap. cbn [heap].
  rewrite children_of_alter by (intros; apply dir_children_set_timestamp).
  rewrite children_of_alter by done.
  rewrite children_of_on_children. by rewrite decide_False.
Qed.

Lemma link_set_times cr ac mo n : link (set_times cr ac mo n) = link n.
Proof. done. Qed.

Lemma link_set_size sz n : link (set_size sz n) = link n.
Proof. unfold set_size, link. by destruct (body n). Qed.

Lemma link_set_content c n : link (set_content c n) = link n.
Proof. unfold set_content, link. by destruct (body n). Qed.

Lemma constructs_links_file cr ac mo sz ct : constructs_links (FileData cr ac mo sz ct).
Proof.
  intros nm par st id st' Hok H. cbn [_construct_node FileNode new_node].
  destruct (links_ok_new_node nm par (FileBody [] (length (@nil byte))) st
              ltac:(right; by eexists _, _) Hok H) as [H1 _].
  unfold new_node in H1. cbn [snd] in H1.
  set (st1 := mkVFS _ _ _ _ _) in *.
  assert (Hf0 : forall d, d < next_id st -> children_of (heap st1) d = children_of (heap st) d).
  { intros d Hd. subst st1. unfold children_of. cbn [heap]. by rewrite lookup_insert_ne by lia. }
  set (h1 := alter (set_times cr ac mo) (next_id st) (heap st1)).
  assert (Hl1 : links_ok h1) by (by apply links_ok_alter).
  assert (Hf1 : forall d, d < next_id st -> children_of h1 d = children_of (heap st) d).
  { intros d Hd. rewrite <- (Hf0 d Hd). subst h1. unfold children_of.
    by rewrite lookup_alter_ne by lia. }
  set (h2 := match sz with Some n => alter (set_size n) (next_id st) h1 | None => h1 end).
  assert (Hl2 : links_ok h2).
  { subst h2. destruct sz; [|done]. apply links_ok_alter; [..|done].
    - apply link_set_size.
    - intros y. apply dir_children_set_size. }
  assert (Hf2 : forall d, d < next_id st -> children_of h2 d = children_of (heap st) d).
  { intros d Hd. rewrite <- (Hf1 d Hd). subst h2. destruct sz; [|done].
    unfold children_of. by rewrite lookup_alter_ne by lia. }
  assert (Hl3 : forall b, links_ok (alter (set_content b) (next_id st) h2)).
  { intros b. apply links_ok_alter; [..|done].
    - apply link_set_content.
    - intros y. apply dir_children_set_content. }
  assert (Hf3 : forall b d, d < next_id st ->
                  children_of (alter (set_content b) (next_id st) h2) d
                  = children_of (heap st) d).
  { intros b d Hd. rewrite <- (Hf2 d Hd). unfold children_of. by rewrite lookup_alter_ne by lia. }
  clearbody h2 st1.
  destruct ct as [[s|b]|].
  - destruct (Utf8.encode s) as [b|]; [|done]. intros [= <- <-].
    unfold with_heap. cbn [heap]. split_and!; [apply Hl3|done|apply Hf3].
  - intros [= <- <-]. unfold with_heap. cbn [heap]. split_and!; [apply Hl3|done|apply Hf3].
  - intros [= <- <-]. unfold with_heap. cbn [heap]. by split_and!.
Qed.

Lemma constructs_links_items D l :
  Forall (fun kv => constructs_links (snd kv)) l ->
  forall st id st',
    store_ok st -> links_ok (heap st) -> D < next_id st -> is_Some (heap st !! D) ->
    construct_items _construct_node D l st = (Ok id, st') ->
    links_ok (heap st')
    /\ forall d, d < next_id st -> d <> D ->
                 children_of (heap st') d = children_of (heap st) d.
Proof.
  induction 1 as [|[k data] l Hd _ IH]; intros st id st' Hok H HD Hlive.
  - by intros [= <- <-].
  - cbn [construct_items].
    destruct (_construct_node k data (Some D) st) as [[c|e] sa] eqn:E; [|done].
    destruct (constructs_ok_all data k (Some D) st c sa Hok E)
      as (Hoka & Hge & Hlta & [xc Hxc] & Hra & Hga).
    destruct (Hd k (Some D) st c sa Hok H E) as (Ha & -> & Hfa).
    assert (Hdet : detached (heap sa) (next_id st)).
    { intros d ch k0 Hch Hk0. destruct (decide (d < next_id st)) as [Hlt|Hge'].
      - rewrite (Hfa d Hlt) in Hch.
        destruct (proj2 (proj1 Hok) d ch k0 _ Hch Hk0) as [_ [x Hx]].
        apply (proj1 (proj1 Hok)) in Hx. lia.
      - destruct (proj2 (proj1 Hoka) d ch k0 _ Hch Hk0) as [Hlt' _]. lia. }
    assert (Hb : links_ok (heap (add_child D (next_id st) sa))).
    { apply (links_ok_add_child D (next_id st) sa xc); [done|lia|done|done]. }
    assert (Hokb : store_ok (add_child D (next_id st) sa))
      by (apply store_ok_add_child; [lia|done]).
    destruct (add_child_frame D (next_id st) sa) as (Hnb & Hrb & Hlb).
    intros Hrest.
    destruct (IH _ _ _ Hokb Hb ltac:(lia) (Hlb _ (Hga _ Hlive)) Hrest) as [H' Hf'].
    split; [done|]. intros d Hlt Hne.
    rewrite Hf' by lia. rewrite children_of_add_child_other by done. by apply Hfa.
Qed.

Lemma constructs_links_all data : constructs_links data.
Proof.
  induction data as [cr ac mo sz ct|cr ac mo|cr ac mo l IH] using NodeData_ind'.
  - apply constructs_links_file.
  - intros nm par st id st' Hok H. cbn [_construct_node DirectoryNode new_node].
    intros [= <- <-].
    destruct (links_ok_new_node nm par (DirBody ∅) st ltac:(by left) Hok H) as [H1 _].
    unfold with_heap, new_node in *. cbn [heap next_id snd] in *.
    split_and!; [by apply links_ok_alter|done|].
    intros d Hd. unfold children_of. by rewrite lookup_alter_ne, lookup_insert_ne by lia.
  - intros nm par st id st' Hok H. cbn [_construct_node DirectoryNode new_node].
    destruct (links_ok_new_node nm par (DirBody ∅) st ltac:(by left) Hok H) as [H1 _].
    pose proof (store_ok_new_node nm par (DirBody ∅) st (or_introl eq_refl) Hok) as Hok1.
    pose proof (store_ok_alter_meta (set_times cr ac mo) (next_id st) _ ltac:(done) Hok1) as Hok2.
    set (st2 := with_heap _ _) in *.
    assert (H2 : links_ok (heap st2)).
    { subst st2. unfold with_heap. cbn [heap]. by apply links_ok_alter. }
    assert (Hl : is_Some (heap st2 !! next_id st)).
    { subst st2. unfold with_heap, new_node. cbn [heap snd]. apply is_Some_alter.
      rewrite lookup_insert_eq. eauto. }
    intros Ei.
    destruct (constructs_ok_items (next_id st) l (Forall_impl _ _ _ IH (fun _ _ => constructs_ok_all _))
                st2 id st' Hok2 ltac:(cbn; lia) Hl Ei) as (-> & _).
    destruct (constructs_links_items (next_id st) l IH st2 _ st' Hok2 H2 ltac:(cbn; lia) Hl Ei)
      as [H' Hf'].
    split_and!; [done..|]. intros d Hd. rewrite Hf' by (cbn; lia).
    subst st2. unfold with_heap, new_node, children_of. cbn [heap snd].
    by rewrite lookup_alter_ne, lookup_insert_ne by lia.
Qed.

Lemma links_ok_init clk : links_ok (heap (VirtualFileSystem_init clk)).
Proof.
  intros d ch k c. unfold VirtualFileSystem_init, children_of. cbn.
  rewrite lookup_insert. case_decide; [|by rewrite lookup_empty]. cbn.
  intros [= <-]. by rewrite lookup_empty.
Qed.

Lemma links_ok_from_dict clk data st :
  from_dict clk data = Ok st -> links_ok (heap st).
Proof.
  unfold from_dict. destruct data as [|[root_name root_data] rest]; [done|].
  destruct (_construct_node root_name root_data None (VirtualFileSystem_init clk))
    as [[r|e] st1] eqn:E; [|done].
  destruct (constructs_links_all root_data _ _ _ _ _ (store_ok_init clk) (links_ok_init clk) E)
    as (H & _).
  destruct (_cache_persisted_data _ _ _ _ _); [|done]. by intros [= <-].
Qed.

(** X21. In every reachable state, whatever the paths, names and
    dictionaries of the calls were, each entry of the children of a directory
    leads to a live node whose [name] is the key of the entry and whose
    [parent] is that directory. *)
Theorem reachable_links_agree (escaped_template : string -> outcome string) st d ch k c :
  reachable escaped_template st ->
  children_of (heap st) d = Some ch -> ch !! k = Some c ->
  exists n, heap st !! c = Some n /\ name n = k /\ parent n = Some d.
Proof.
  intros Hr. revert d ch k c. change (links_ok (heap st)).
  induction Hr as [clk|clk data st Hd|c st Hr IH].
  - apply links_ok_init.
  - by eapply links_ok_from_dict.
  - pose proof (reachable_store_ok _ _ Hr) as Hok.
    destruct c; cbn [exec].
    + by apply links_ok_create_file.
    + by apply links_ok_create_directory.
    + by apply links_ok_write_file.
    + by apply links_ok_read_file.
    + by apply links_ok_delete.
    + by apply links_ok_rename.
Qed.

Lemma reachable_links_agree_witness :
  reachable (fun _ => Raise ReError) tree_a
  /\ children_of (heap tree_a) 0 = Some {[ "a" := 1 ]}
  /\ ({[ "a" := 1 ]} : gmap string nat) !! "a" = Some 1
  /\ exists n, heap tree_a !! 1 = Some n /\ name n = "a" /\ parent n = Some 0.
Proof.
  assert (H1 : reachable (fun _ => Raise ReError) tree_a).
  { apply (reachable_call _ (CreateDirectory "/a")), reachable_init. }
  assert (H2 : children_of (heap tree_a) 0 = Some {[ "a" := 1 ]}) by (vm_compute; reflexivity).
  assert (H3 : ({[ "a" := 1 ]} : gmap string nat) !! "a" = Some 1) by reflexivity.
  split; [exact H1|]. split; [exact H2|]. split; [exact H3|].
  exact (reachable_links_agree _ tree_a 0 _ "a" 1 H1 H2 H3).
Defined.

(** ** A rename that raises in [re.sub] *)

Lemma name_remove_child d k st y :
  name <$> heap (remove_child d k st) !! y = name <$> heap st !! y.
Proof.
  unfold remove_child. destruct (children_of (heap st) d) as [ch|]; [|done].
  destruct (ch !! k); [|done]. unfold update_timestamp_metadata, with_heap. cbn [heap].
  rewrite name_alter by done. apply name_alter.
  intros x. unfold on_children. by destruct (body x).
Qed.

Lemma directory_remove_child d d' k st :
  is_Some (children_of (heap st) d) -> is_Some (children_of (heap (remove_child d' k st)) d).
Proof.
  intros Hd. unfold remove_child. destruct (children_of (heap st) d') as [ch|] eqn:E; [|done].
  destruct (ch !! k); [|done]. unfold update_timestamp_metadata, with_heap. cbn [heap].
  rewrite children_of_alter by (intros; apply dir_children_set_timestamp).
  rewrite children_of_on_children. case_decide; [subst; by rewrite E|done].
Qed.

Section RenameRaises.

Variable escaped_template : string -> outcome string.

(** X22. When [re.sub] raises on the replacement template built from the
    new name, [rename] raises as well, but only after it has renamed the
    node: the node has the new name and is the child of its directory under
    that name. The cache has lost the entries of the old path and of the
    paths below it and has got no entry: what it holds was there when the
    parent directory had been looked up. *)
Theorem rename_raises_after_renaming path new_name st d nm st1 x e :
  store_ok st ->
  _get_parent_directory_and_name path st = (Ok (Some d, nm), st1) ->
  get_child (heap st1) d nm = Some x ->
  expand_template escaped_template ("/" +:+ new_name) = Raise e ->
  exists st',
    rename escaped_template path new_name st = (Raise e, st')
    /\ name <$> heap st' !! x = Some new_name
    /\ get_child (heap st') d new_name = Some x
    /\ (forall q, changed (_normalize_path path) q = true ->
                  traversal_cache st' !! q = None)
    /\ (forall q n, traversal_cache st' !! q = Some n ->
                    traversal_cache st1 !! q = Some n).
Proof.
  intros Hok Hp Hx He. unfold rename. rewrite Hp, Hx, He.
  eexists. split; [reflexivity|].
  destruct (parent_is_directory _ _ _ _ _ Hp) as (Hh & _ & Hn & Hr & Hd).
  assert (Hok1 : store_ok st1) by (by apply (store_ok_ext st)).
  set (old := match heap st1 !! x with Some n => name n | None => nm end).
  set (st2 := remove_child d old st1).
  assert (Hlive : exists y, heap st2 !! x = Some y).
  { apply get_child_Some in Hx as (ch & Hch & Hk).
    destruct (proj2 (proj1 Hok1) d ch nm x Hch Hk) as [_ [y Hy]].
    pose proof (name_remove_child d old st1 x) as E. fold st2 in E. rewrite Hy in E.
    destruct (heap st2 !! x); [eauto|done]. }
  destruct Hlive as [y Hy].
  assert (Hd2 : is_Some (children_of (heap st2) d)) by (by apply directory_remove_child).
  destruct Hd2 as [ch2 Hch2].
  set (st3 := with_heap (alter (set_name new_name) x (heap st2)) st2).
  assert (Hx3 : heap st3 !! x = Some (set_name new_name y)).
  { subst st3. unfold with_heap. cbn [heap]. by rewrite lookup_alter_eq, Hy. }
  assert (Hch3 : children_of (heap st3) d = Some ch2).
  { subst st3. unfold with_heap. cbn [heap]. by rewrite children_of_alter. }
  destruct (add_child_effect st3 d x _ ch2 Hx3 Hch3) as (Hkids & _ & Hnames & _).
  assert (Hc4 : traversal_cache (add_child d x st3) = traversal_cache st1).
  { unfold add_child. rewrite Hx3. subst st3 st2. unfold with_heap, remove_child.
    cbn [update_timestamp_metadata traversal_cache].
    destruct (children_of (heap st1) d) as [c1|]; [|done]. by destruct (c1 !! old). }
  unfold _remove_changed_node_from_cache, with_cache. cbn [heap traversal_cache].
  rewrite Hc4. split_and!.
  - rewrite Hnames, Hx3. done.
  - rewrite Hkids. cbn [name set_name]. by rewrite decide_True.
  - intros q Hq. apply map_lookup_filter_None. right. intros n _. cbn [fst]. congruence.
  - intros q n. rewrite map_lookup_filter_Some. by intros [? _].
Qed.

End RenameRaises.

Lemma rename_raises_after_renaming_witness :
  store_ok tree_a
  /\ _get_parent_directory_and_name "/a" tree_a = (Ok (Some 0, "a"), tree_a)
  /\ get_child (heap tree_a) 0 "a" = Some 1
  /\ expand_template (fun _ => Raise ReError) ("/" +:+ "b\c") = Raise ReError
  /\ exists st',
       rename (fun _ => Raise ReError) "/a" "b\c" tree_a = (Raise ReError, st')
       /\ name <$> heap st' !! 1 = Some "b\c"
       /\ get_child (heap st') 0 "b\c" = Some 1
       /\ (forall q, changed (_normalize_path "/a") q = true ->
                     traversal_cache st' !! q = None)
       /\ (forall q n, traversal_cache st' !! q = Some n ->
                       traversal_cache tree_a !! q = Some n).
Proof.
  assert (H1 : store_ok tree_a).
  { apply (reachable_store_ok (fun _ => Raise ReError)).
    apply (reachable_call _ (CreateDirectory "/a")), reachable_init. }
  assert (H2 : _get_parent_directory_and_name "/a" tree_a = (Ok (Some 0, "a"), tree_a))
    by (vm_compute; reflexivity).
  assert (H3 : get_child (heap tree_a) 0 "a" = Some 1) by (vm_compute; reflexivity).
  assert (H4 : expand_template (fun _ => Raise ReError) ("/" +:+ "b\c") = Raise ReError)
    by reflexivity.
  split; [exact H1|]. split; [exact H2|]. split; [exact H3|]. split; [exact H4|].
  exact (rename_raises_after_renaming _ "/a" "b\c" tree_a 0 "a" tree_a 1 ReError H1 H2 H3 H4).
Defined.

(** ** The parent and the leaf name of any path *)

Section ParentAndName.
Import Str Re.

Lemma occurs_app c a b : occurs c (a +:+ b) = occurs c a || occurs c b.
Proof.
  induction a as [|x a IH]; [by rewrite app_nil|].
  rewrite app_cons. cbn [occurs]. by rewrite IH, orb_assoc.
Qed.

Lemma occurs_drop_last c s : occurs c s = false -> occurs c (drop_last s) = false.
Proof.
  induction s as [|x s IH]; [done|]. cbn [occurs]. intros [H1 H2]%orb_false_elim.
  destruct s as [|y s]; [done|]. cbn [drop_last occurs]. rewrite H1. by apply IH.
Qed.

Lemma normalize_no_newline p :
  occurs newline p = false -> occurs newline (_normalize_path p) = false.
Proof.
  intros H. unfold _normalize_path.
  set (p1 := if String.eqb p "" then "/" else p).
  assert (H1 : occurs newline p1 = false) by (subst p1; by destruct (String.eqb p "")).
  set (p2 := if startswith p1 "/" then p1 else "/" +:+ p1).
  assert (H2 : occurs newline p2 = false).
  { subst p2. destruct (startswith p1 "/"); [done|]. by rewrite occurs_app, H1. }
  destruct (negb (String.eqb p2 "/") && endswith_slash p2); [|done].
  by apply occurs_drop_last.
Qed.

Lemma parent_match_at_no_slash s : occurs slash s = false -> parent_match_at s = None.
Proof.
  induction s as [|c s IH]; [done|]. cbn [occurs]. intros [H1 H2]%orb_false_elim.
  cbn [parent_match_at]. destruct (Ascii.eqb c newline); [done|].
  rewrite (IH H2). unfold at_last_slash. by rewrite H1.
Qed.

Lemma parent_match_at_last_slash a b :
  occurs newline a = false -> occurs slash b = false ->
  parent_match_at (a +:+ String slash b) = Some a.
Proof.
  intros Ha Hb. induction a as [|c a IH].
  - rewrite app_nil. cbn [parent_match_at]. change (Ascii.eqb slash newline) with false.
    cbv iota. rewrite (parent_match_at_no_slash b Hb). unfold at_last_slash.
    by rewrite (occurs_dotstar_slash b Hb).
  - cbn [occurs] in Ha. apply orb_false_elim in Ha as [H1 H2].
    rewrite app_cons. cbn [parent_match_at]. by rewrite H1, (IH H2).
Qed.

Lemma search_parent_last_slash a b :
  occurs newline a = false -> occurs slash b = false ->
  search_parent (a +:+ String slash b) = Some a.
Proof.
  intros Ha Hb. pose proof (parent_match_at_last_slash a b Ha Hb) as H.
  destruct a as [|c a]; [rewrite app_nil in *|rewrite app_cons in *];
    cbn [search_parent]; by rewrite H.
Qed.

Lemma dotstar_slash_app a b :
  occurs newline a = false -> dotstar_slash (a +:+ String slash b) = true.
Proof.
  induction a as [|c a IH]; [by rewrite app_nil|].
  cbn [occurs]. intros [H1 H2]%orb_false_elim. rewrite app_cons. cbn [dotstar_slash].
  destruct (Ascii.eqb c slash); [done|]. rewrite H1. by apply IH.
Qed.

Lemma search_name_last_slash a b :
  occurs newline a = false -> occurs newline b = false -> occurs slash b = false ->
  search_name (a +:+ String slash b) = Some (String slash b).
Proof.
  intros Ha Hn Hb. induction a as [|c a IH].
  - rewrite app_nil. cbn [search_name name_match_at].
    change (Ascii.eqb slash slash) with true.
    by rewrite (occurs_dotstar_slash b Hb), (dotstar_end_no_newline b Hn).
  - cbn [occurs] in Ha. apply orb_false_elim in Ha as [H1 H2].
    rewrite app_cons. cbn [search_name name_match_at].
    rewrite (dotstar_slash_app a b H2). rewrite andb_false_r. by apply IH.
Qed.

Lemma remove_slashes_none b : occurs slash b = false -> remove_slashes b = b.
Proof.
  induction b as [|c b IH]; [done|]. cbn [occurs]. intros [H1 H2]%orb_false_elim.
  cbn [remove_slashes]. by rewrite H1, (IH H2).
Qed.

(** X23. For a path other than ["/"] that holds a separator and no line
    feed, written as [a], the last separator and [b], and whose normalised
    path is [a'], the last separator and [b']: the leaf name that
    [_get_parent_directory_and_name] returns is
    [b], taken from the path as given, while the parent is looked up under
    the text before the last separator of the normalised path; the parent is
    returned when that text resolves to a directory. *)
Theorem parent_and_name_law a b a' b' st :
  occurs newline (a +:+ String slash b) = false -> occurs slash b = false ->
  String.eqb (a +:+ String slash b) "/" = false ->
  _normalize_path (a +:+ String slash b) = a' +:+ String slash b' ->
  occurs slash b' = false ->
  _get_parent_directory_and_name (a +:+ String slash b) st
  = (Ok (match fst (_get_node_object_by_path a' st) with
         | Some p =>
             match children_of (heap (snd (_get_node_object_by_path a' st))) p with
             | Some _ => Some p
             | None => None
             end
         | None => None
         end, b),
     snd (_get_node_object_by_path a' st)).
Proof.
  intros Hn Hb Hroot Hnorm Hb'.
  pose proof (normalize_no_newline _ Hn) as Hn'. rewrite Hnorm in Hn'.
  rewrite occurs_app in Hn, Hn'. cbn [occurs] in Hn, Hn'.
  apply orb_false_elim in Hn as [Ha Hn]. apply orb_false_elim in Hn as [_ Hnb].
  apply orb_false_elim in Hn' as [Ha' _].
  unfold _get_parent_directory_and_name. rewrite Hroot, Hnorm.
  rewrite (search_parent_last_slash a' b' Ha' Hb').
  rewrite (search_name_last_slash a b Ha Hnb Hb). cbn [group remove_slashes].
  change (Ascii.eqb slash slash) with true. cbv iota. rewrite (remove_slashes_none b Hb).
  destruct (_get_node_object_by_path a' st) as [[p|] st1]; cbn [fst snd]; [|done].
  by destruct (children_of (heap st1) p).
Qed.

End ParentAndName.

Lemma parent_and_name_law_witness :
  occurs Str.newline ("/a" +:+ String Str.slash "") = false
  /\ occurs Str.slash "" = false
  /\ String.eqb ("/a" +:+ String Str.slash "") "/" = false
  /\ _normalize_path ("/a" +:+ String Str.slash "") = "" +:+ String Str.slash "a"
  /\ occurs Str.slash "a" = false
  /\ _get_parent_directory_and_name "/a/" tree_a = (Ok (Some 0, ""), tree_a).
Proof.
  do 5 (split; [reflexivity|]).
  exact (parent_and_name_law "/a" "" "" "a" tree_a eq_refl eq_refl eq_refl eq_refl eq_refl).
Defined.

(** ** What [delete] leaves as it was *)

Section DeleteFrame.
Import Str Re.

Lemma create_returns st segs nm content :
  tidy st -> valid_segs (segs ++ [nm])%list ->
  fst (create_directory (path_of (segs ++ [nm])%list) st) = Ok (can_create st segs nm)
  /\ fst (create_file (path_of (segs ++ [nm])%list) content st) = Ok (can_create st segs nm).
Proof.
  intros Ht Hv.
  destruct (parent_by_walk st segs nm Ht Hv) as (o & st1 & Ep & Hh & Hr & Ht1 & Ho).
  assert (Hcreate : can_create st segs nm
                    = match o with
                      | Some d => negb (is_some (get_child (heap st1) d nm))
                      | None => false
                      end).
  { unfold can_create. destruct o as [d|].
    - destruct Ho as [-> [ch Hch]]. rewrite Hh. unfold get_child. rewrite Hch.
      by destruct (ch !! nm).
    - unfold leads_to_directory in Ho. destruct (walk (heap st) segs (root st)) as [d|]; [|done].
      by destruct (children_of (heap st) d). }
  unfold create_directory, create_file. rewrite Ep, Hcreate.
  destruct o as [d|]; [|done]. by destruct (get_child (heap st1) d nm).
Qed.

(** [delete] on a valid path in a tidy state: the rest of the tree *)
Lemma delete_tidy_frame st segs nm :
  tidy st -> valid_segs (segs ++ [nm])%list ->
  let r := delete (path_of (segs ++ [nm])%list) st in
  fst r = Ok true ->
  exists d,
    walk (heap st) segs (root st) = Some d
    /\ root (snd r) = root st
    /\ (forall s, (forall t, s <> (segs ++ nm :: t)%list) ->
                  walk (heap (snd r)) s (root st) = walk (heap st) s (root st))
    /\ is_Some (children_of (heap (snd r)) d)
    /\ forall y, y <> d -> heap (snd r) !! y = heap st !! y.
Proof.
  intros Ht Hv. pose proof (valid_segs_last _ _ Hv) as Hnm.
  pose proof (valid_segment_nonempty nm Hnm) as Hk.
  destruct (parent_and_name_tidy' st segs nm Ht Hv)
    as (o & st1 & Hpn & Hh1 & Hn1 & Hr1 & Hk1 & Ht1 & Ho).
  unfold delete. rewrite Hpn. destruct o as [d|]; [|done]. destruct Ho as [Hwd _].
  pose proof (resolve_tidy st1 (segs ++ [nm])%list Ht1 Hv) as H. cbv zeta in H.
  destruct (_get_node_object_by_path (path_of (segs ++ [nm])%list) st1) as [[x|] st2];
    cbn [fst snd] in *; destruct H as (Hw & Hh2 & Hn2 & Hr2 & Hk2 & Ht2 & _); [|done].
  destruct (x =? root st2)%nat; [done|]. cbn [fst snd]. intros _.
  symmetry in Hw. rewrite <- Hh2, <- Hr2 in Hw.
  destruct (walk_last _ _ _ _ _ Hk Hw) as (d' & Hwd' & Hx).
  assert (d' = d) as ->.
  { rewrite Hh2, Hr2, Hh1, Hr1, Hwd in Hwd'. by injection Hwd'. }
  destruct (get_child_Some _ _ _ _ Hx) as (ch & Hch & Hchk).
  destruct (remove_child_effect st2 d nm ch x Hch Hchk) as (Hdel & Hsame & Hnames & Hr3 & Hc3).
  pose proof (walk_del _ _ _ _ _ _ (tidy_paths _ Ht2) Hwd' Hsame Hdel) as Hkeep.
  exists d. unfold _remove_changed_node_from_cache, update_timestamp_metadata, with_cache.
  cbn [heap root]. split_and!.
  - done.
  - by rewrite Hr3, Hr2, Hr1.
  - intros s Hs. rewrite (walk_same (heap (remove_child d nm st2))).
    + rewrite <- Hr1, <- Hr2, (Hkeep s Hs). by rewrite Hh2, Hh1.
    + intros y k. apply get_child_alter. intros n. apply dir_children_set_timestamp.
  - rewrite children_of_alter by (intros; apply dir_children_set_timestamp).
    apply directory_remove_child. by rewrite Hch.
  - intros y Hy. rewrite lookup_alter_ne by done.
    rewrite remove_child_other by done. by rewrite Hh2, Hh1.
Qed.

(** X24. In a tidy state, after [delete] of a valid path returned [True]:
    every list of segments that does not go through the deleted path leads
    to the node it led to before, every node but the parent directory is
    unchanged, and the path is free again: [create_directory] and
    [create_file] on it return [True]. *)
Theorem delete_keeps_the_rest st st' segs nm content :
  tidy st -> valid_segs (segs ++ [nm])%list ->
  delete (path_of (segs ++ [nm])%list) st = (Ok true, st') ->
  (forall s, (forall t, s <> (segs ++ nm :: t)%list) ->
             walk (heap st') s (root st') = walk (heap st) s (root st))
  /\ (exists d, walk (heap st) segs (root st) = Some d
                /\ forall y, y <> d -> heap st' !! y = heap st !! y)
  /\ fst (create_directory (path_of (segs ++ [nm])%list) st') = Ok true
  /\ fst (create_file (path_of (segs ++ [nm])%list) content st') = Ok true.
Proof.
  intros Ht Hv Hdel.
  destruct (delete_tidy_spec st segs nm Ht Hv) as [Ht' Hspec].
  pose proof (delete_tidy_frame st segs nm Ht Hv) as Hframe. cbv zeta in Hframe.
  rewrite Hdel in Ht', Hspec, Hframe. cbn [fst snd] in *.
  destruct (Hspec eq_refl) as (d0 & x & Hd0 & Hx & Hgone & _).
  destruct (Hframe eq_refl) as (d & Hd & Hr & Hkeep & [ch Hch] & Hnodes).
  assert (d0 = d) as -> by congruence.
  assert (Hfree : can_create st' segs nm = true).
  { unfold can_create. rewrite Hr, Hkeep, Hd, Hch.
    - unfold get_child in Hgone. rewrite Hch in Hgone. by rewrite Hgone.
    - intros t E. apply (f_equal length) in E. rewrite length_app in E. cbn in E. lia. }
  destruct (create_returns st' segs nm content Ht' Hv) as [-> ->]. rewrite Hfree.
  split_and!; try done.
  - intros s Hs. rewrite Hr. by apply Hkeep.
  - by exists d.
Qed.

End DeleteFrame.

Lemma delete_keeps_the_rest_witness :
  tidy tree_a_file /\ valid_segs (["a"] ++ ["b"])%list
  /\ fst (delete "/a/b" tree_a_file) = Ok true
  /\ (forall s, (forall t, s <> (["a"] ++ "b" :: t)%list) ->
                walk (heap (snd (delete "/a/b" tree_a_file))) s
                     (root (snd (delete "/a/b" tree_a_file)))
                = walk (heap tree_a_file) s (root tree_a_file))
  /\ fst (create_directory "/a/b" (snd (delete "/a/b" tree_a_file))) = Ok true
  /\ fst (create_file "/a/b" [] (snd (delete "/a/b" tree_a_file))) = Ok true.
Proof.
  assert (H1 : tidy tree_a_file).
  { apply (tidy_create_file tree_a ["a"] "b"); [|by repeat constructor].
    apply (tidy_create_directory fresh_vfs [] "a"); [apply tidy_init|by repeat constructor]. }
  assert (H2 : valid_segs (["a"] ++ ["b"])%list) by (by repeat constructor).
  assert (H3 : delete "/a/b" tree_a_file = (Ok true, snd (delete "/a/b" tree_a_file)))
    by (vm_compute; reflexivity).
  split; [exact H1|]. split; [exact H2|]. split; [by rewrite H3|].
  destruct (delete_keeps_the_rest tree_a_file _ ["a"] "b" [] H1 H2 H3) as (Hw & _ & Hc1 & Hc2).
  split; [exact Hw|]. split; [exact Hc1|exact Hc2].
Defined.

(** ** What a creation leaves as it was *)

Section CreateFrame.
Import Str Re.

Lemma attach_walks st segs nm b d ch :
  tidy st -> valid_segs (segs ++ [nm])%list ->
  walk (heap st) segs (root st) = Some d ->
  children_of (heap st) d = Some ch -> ch !! nm = None -> leaf_body b ->
  let st3 := add_child d (next_id st) (snd (new_node nm (Some d) b st)) in
  (forall s, s <> (segs ++ [nm])%list ->
             walk (heap st3) s (root st) = walk (heap st) s (root st))
  /\ walk (heap st3) (segs ++ [nm])%list (root st) = Some (next_id st)
  /\ (forall y, y <> d -> y <> next_id st -> heap st3 !! y = heap st !! y)
  /\ body <$> heap st3 !! next_id st = Some b.
Proof.
  intros [T1 T2 T3 T4] Hv Hd Hch Hfree Hleaf st3.
  pose proof (valid_segment_nonempty nm (valid_segs_last _ _ Hv)) as Hk.
  pose proof (attach_same_kids st d nm b ch T1 Hch Hleaf) as Hsame. fold st3 in Hsame.
  pose proof (attach_get_child_parent st d nm b ch T1 Hch) as Hnew. fold st3 in Hnew.
  pose proof (attach_get_child_leaf st d nm b ch T1 Hch Hleaf) as Hlf. fold st3 in Hlf.
  pose proof (attach_fresh st T1) as Hfr.
  assert (Hfree' : get_child (heap st) d nm = None).
  { unfold get_child. by rewrite Hch. }
  pose proof (walk_add_old _ _ _ _ _ _ _ T4 Hd Hsame Hnew Hfree') as Hold.
  pose proof (walk_add_new _ _ _ _ _ _ _ T4 Hd Hsame Hnew Hlf) as Hnw.
  assert (Hne : d <> next_id st).
  { intros ->. unfold children_of in Hch. by rewrite Hfr in Hch. }
  split_and!.
  - intros s Hs. destruct (walk (heap st) s (root st)) as [n|] eqn:Hw; [by apply Hold|].
    destruct (walk (heap st3) s (root st)) as [n|] eqn:Hw'; [|done].
    destruct (Hnw _ _ Hw') as [E|[E _]]; congruence.
  - by apply (walk_add_to_child (heap st) (heap st3) (root st) d (next_id st) segs nm).
  - intros y Hy Hy'. subst st3. unfold add_child, new_node. cbn [snd heap].
    rewrite lookup_insert_eq. unfold update_timestamp_metadata, with_heap. cbn [heap].
    rewrite !lookup_alter_ne by done. by rewrite lookup_insert_ne.
  - subst st3. rewrite add_child_body by done. unfold new_node. cbn [snd heap].
    by rewrite lookup_insert_eq.
Qed.

(** X25. In a tidy state, after [create_file] or [create_directory] of a
    valid path returned [True]: the path leads to the new node, which holds
    the content given (or no children), every other list of segments leads
    where it led before, and every node but the parent directory is
    unchanged. *)
Theorem create_keeps_the_rest st segs nm content :
  tidy st -> valid_segs (segs ++ [nm])%list ->
  let P := path_of (segs ++ [nm])%list in
  (forall st', create_file P content st = (Ok true, st') ->
     walk (heap st') (segs ++ [nm])%list (root st') = Some (next_id st)
     /\ body <$> heap st' !! next_id st = Some (FileBody content (length content))
     /\ (forall s, s <> (segs ++ [nm])%list ->
                   walk (heap st') s (root st') = walk (heap st) s (root st))
     /\ exists d, walk (heap st) segs (root st) = Some d
                  /\ forall y, y <> d -> y <> next_id st -> heap st' !! y = heap st !! y)
  /\ (forall st', create_directory P st = (Ok true, st') ->
     walk (heap st') (segs ++ [nm])%list (root st') = Some (next_id st)
     /\ body <$> heap st' !! next_id st = Some (DirBody ∅)
     /\ (forall s, s <> (segs ++ [nm])%list ->
                   walk (heap st') s (root st') = walk (heap st) s (root st))
     /\ exists d, walk (heap st) segs (root st) = Some d
                  /\ forall y, y <> d -> y <> next_id st -> heap st' !! y = heap st !! y).
Proof.
  intros Ht Hv P. subst P.
  destruct (parent_and_name_tidy' st segs nm Ht Hv)
    as (o & st1 & Hpn & Hh1 & Hn1 & Hr1 & Hk1 & Ht1 & Ho).
  assert (Hgen : forall b d,
             leaf_body b -> o = Some d -> get_child (heap st1) d nm = None ->
             let st3 := add_child d (next_id st1) (snd (new_node nm (Some d) b st1)) in
             walk (heap st3) (segs ++ [nm])%list (root st3) = Some (next_id st)
             /\ body <$> heap st3 !! next_id st = Some b
             /\ (forall s, s <> (segs ++ [nm])%list ->
                           walk (heap st3) s (root st3) = walk (heap st) s (root st))
             /\ exists d, walk (heap st) segs (root st) = Some d
                          /\ forall y, y <> d -> y <> next_id st ->
                                       heap st3 !! y = heap st !! y).
  { intros b d Hb -> Hg st3. destruct Ho as [Hd [ch Hch]].
    rewrite <- Hh1, <- Hr1 in Hd. rewrite <- Hh1 in Hch.
    assert (Hfree : ch !! nm = None) by (unfold get_child in Hg; by rewrite Hch in Hg).
    destruct (attach_walks st1 segs nm b d ch Ht1 Hv Hd Hch Hfree Hb) as (H1 & H2 & H3 & H4).
    destruct (attach_frame st1 d nm b) as [Hr3 _]. fold st3 in H1, H2, H3, H4, Hr3.
    rewrite Hr3, <- Hn1, <- Hh1, <- Hr1. split_and!; try done. exists d. by split. }
  split; intros st'.
  - unfold create_file. rewrite Hpn. destruct o as [d|]; [|done].
    destruct (get_child (heap st1) d nm) eqn:Hg; [done|]. intros [= <-].
    apply (Hgen (FileBody content (length content)) d); [right; by eexists _, _|done..].
  - unfold create_directory. rewrite Hpn. destruct o as [d|]; [|done].
    destruct (get_child (heap st1) d nm) eqn:Hg; [done|]. intros [= <-].
    apply (Hgen (DirBody ∅) d); [by left|done..].
Qed.

End CreateFrame.

Lemma create_keeps_the_rest_witness :
  tidy tree_a /\ valid_segs (["a"] ++ ["b"])%list
  /\ walk (heap tree_a_file) ["a"; "b"] (root tree_a_file) = Some (next_id tree_a)
  /\ body <$> heap tree_a_file !! next_id tree_a = Some (FileBody ["h"%byte; "i"%byte] 2)
  /\ (forall s, s <> ["a"; "b"] ->
                walk (heap tree_a_file) s (root tree_a_file)
                = walk (heap tree_a) s (root tree_a)).
Proof.
  assert (H1 : tidy tree_a).
  { apply (tidy_create_directory fresh_vfs [] "a"); [apply tidy_init|by repeat constructor]. }
  assert (H2 : valid_segs (["a"] ++ ["b"])%list) by (by repeat constructor).
  assert (H3 : create_file "/a/b" ["h"%byte; "i"%byte] tree_a = (Ok true, tree_a_file))
    by (vm_compute; reflexivity).
  split; [exact H1|]. split; [exact H2|].
  destruct (proj1 (create_keeps_the_rest tree_a ["a"] "b" ["h"%byte; "i"%byte] H1 H2)
              tree_a_file H3) as (Hw & Hb & Hs & _).
  split; [exact Hw|]. split; [exact Hb|exact Hs].
Defined.

(** ** The names under which children are stored *)







Section KeysOfOperations.
Import Str Re.

Variable escaped_template : string -> outcome string.








End KeysOfOperations.

(** ** The cache that [from_dict] fills *)

Section LoadedCache.
Import Str.








End LoadedCache.

(** ** Reading after a reload *)








